(** * phd2client: the session core of the PHD2 guiding client

    A shallow embedding of [src/python/src/phd2client/guider.py]: the running
    statistics accumulator [_Accum], the line framer and writer of [_Conn],
    the event projection [Guider._handle_event], the reader [Guider._worker],
    the request builder [Guider._make_jsonrpc], [Guider.Call] and the
    operations [Guide], [Dither], [CheckSettling] and [CaptureSingleFrame].

    Conventions of the embedding.
    - The Python values that travel as JSON ([None], [bool], [int], [float],
      [str], [list], [dict]) are the type [json]; the fields that the code
      fills from events or arguments without looking at them hold a [json].
    - Python [float] arithmetic is idealised to the real numbers [R]; Python
      [int] is [Z].
    - A Python [str] is a [string] whose characters are code points below 256;
      [bytes] is [list byte].
    - A method of [_Accum] or [_Conn] is a function from the old object to
      the new one.  A method of [Guider] is a computation [Guider.M]: it
      takes the session and gives back how it ended (a value, an exception,
      or no return yet) and the session as it left it.
    - The accumulators of the statistics belong to the class and are
      shared by the sessions of a process; one session is followed at a
      time, and [Guider.new] takes what the accumulators hold when the
      session is made.
    - The reader runs in its own thread.  The lines it handles while a
      caller waits for a response are an argument, [during], of the call;
      the sections under the lock are atomic. *)

From Stdlib Require Import Strings.String Strings.Ascii Strings.Byte.
From Stdlib Require Import DecimalString.
From Stdlib Require Import Reals Lra Lia ZArith List Bool.
From Equations Require Import Equations.
Import ListNotations.

Set Implicit Arguments.

(** ** Basic types *)

Definition str := string.
Definition bytes := list byte.

(** ** The running statistics accumulator, [class _Accum] *)

Module _Accum.

Local Open Scope R_scope.

Record t : Type := mk { n : Z; a : R; q : R; peak : R }.

Definition Reset (self : t) : t := mk 0 0 0 0.

Definition Add (x : R) (self : t) : t :=
  let ax := Rabs x in
  let peak1 := if Rlt_dec (peak self) ax then ax else peak self in
  let n1 := (n self + 1)%Z in
  let d := x - a self in
  let a1 := a self + d / IZR n1 in
  let q1 := q self + (x - a1) * d in
  mk n1 a1 q1 peak1.

Definition Mean (self : t) : R := a self.

Definition Stdev (self : t) : R :=
  if (1 <=? n self)%Z then sqrt (q self / IZR (n self)) else 0.

Definition Peak (self : t) : R := peak self.

(** The object after [Add(x1)], ..., [Add(xn)] in this order. *)
Definition AddAll (xs : list R) (self : t) : t :=
  fold_left (fun s x => Add x s) xs self.

End _Accum.

(** ** Reference statistics of a list of samples *)

Section SampleStatistics.

Local Open Scope R_scope.

Definition sum (xs : list R) : R := fold_right Rplus 0 xs.

Definition mean (xs : list R) : R := sum xs / INR (length xs).

Definition sqdev (m : R) (xs : list R) : R :=
  sum (map (fun x => (x - m) * (x - m)) xs).

Definition max_abs (xs : list R) : R :=
  fold_right (fun x m => Rmax (Rabs x) m) 0 xs.

(** The Welford invariant: after the samples [xs] the counter is their
    number, [a] is their mean and [q] the sum of squared deviations. *)
Record welford (xs : list R) (s : _Accum.t) : Prop := {
  wf_n : _Accum.n s = Z.of_nat (length xs);
  wf_a : _Accum.a s * INR (length xs) = sum xs;
  wf_q : _Accum.q s
         = sum (map (fun x => x * x) xs)
           - INR (length xs) * _Accum.a s * _Accum.a s;
  wf_peak : _Accum.peak s = max_abs xs
}.

End SampleStatistics.

(** ** Text: [str], [bytes] and [str.encode] *)

Section Text.

Local Open Scope string_scope.

Definition CR : ascii := "013"%char.
Definition LF : ascii := "010"%char.
Definition dquote : ascii := "034"%char.
Definition backslash : ascii := "092"%char.

Definition CRLF : str := String CR (String LF EmptyString).

(** The code points of a [str], as numbers. *)
Definition ord (c : ascii) : nat := nat_of_ascii c.

Definition byte_of_nat (k : nat) : byte := byte_of_ascii (ascii_of_nat k).

(** UTF-8 for code points below 256: one byte below 128, two above. *)
Definition encode_char (c : ascii) : bytes :=
  if (ord c <? 128)%nat then [byte_of_ascii c]
  else [byte_of_nat (192 + ord c / 64); byte_of_nat (128 + ord c mod 64)].

(** [s.encode()] *)
Fixpoint encode (s : str) : bytes :=
  match s with
  | EmptyString => []
  | String c s' => (encode_char c ++ encode s')%list
  end.

Fixpoint join (sep : str) (parts : list str) : str :=
  match parts with
  | [] => EmptyString
  | [p] => p
  | p :: rest => p ++ sep ++ join sep rest
  end.

(** [needle in hay] for two strings. *)
Fixpoint contains (needle hay : str) : bool :=
  if prefix needle hay then true
  else match hay with
       | EmptyString => false
       | String _ hay' => contains needle hay'
       end.

End Text.

(** ** JSON values, as [json.loads] produces and [json.dumps] consumes them *)

#[local] Set Warnings "-register-all".

Inductive json : Type :=
| JNull
| JBool (b : bool)
| JInt (z : Z)
| JFloat (x : R)
| JStr (s : str)
| JList (l : list json)
| JObj (d : list (str * json)).

(** ** Exceptions and results *)

Inductive exn : Type :=
| NotConnectedError
| GuiderError (msg : json)
| RuntimeError (msg : str)
| ValueError (msg : str)
| KeyError (key : str)
| TypeError
| AttributeError
| AssertionError
| OSError.

(** How a call ends: it returns a value, it raises, or it has not returned
    because the caller still waits for something that has not come. *)
Inductive result (A : Type) : Type :=
| Ok (v : A)
| Raise (e : exn)
| Blocks.

Arguments Ok {A} v.
Arguments Raise {A} e.
Arguments Blocks {A}.

(** A Python [dict] with string keys keeps the insertion order of its keys. *)
Definition dict := list (str * json).

(** [float.__repr__] is the interpreter's; the serializer takes it as given. *)
Class FloatRepr : Type := float_repr : R -> str.

Module Json.

Local Open Scope string_scope.

(** [d.get(k)] *)
Fixpoint get (k : str) (d : dict) : option json :=
  match d with
  | [] => None
  | (k', v) :: d' => if String.eqb k k' then Some v else get k d'
  end.

(** [d[k]] *)
Definition item (k : str) (d : dict) : result json :=
  match get k d with
  | Some v => Ok v
  | None => Raise (KeyError k)
  end.

(** [d[k] = v]: an existing key keeps its place, a new key goes last. *)
Fixpoint set (k : str) (v : json) (d : dict) : dict :=
  match d with
  | [] => [(k, v)]
  | (k', v') :: d' =>
      if String.eqb k k' then (k', v) :: d' else (k', v') :: set k v d'
  end.

Definition keys (d : dict) : list str := map fst d.

(** [j == s] for a string literal [s]. *)
Definition is_str (s : str) (j : json) : bool :=
  match j with
  | JStr t => String.eqb t s
  | _ => false
  end.

(** Truth value of a JSON value, as [if j:] and [not j] test it. *)
Definition truthy (j : json) : bool :=
  match j with
  | JNull => false
  | JBool b => b
  | JInt z => negb (z =? 0)%Z
  | JFloat x => if Req_dec_T x 0%R then false else true
  | JStr s => negb (String.eqb s EmptyString)
  | JList l => match l with [] => false | _ => true end
  | JObj d => match d with [] => false | _ => true end
  end.

(** [k in j]: key membership for an object, element membership for a
    list, substring for a string; other values are not iterable. *)
Definition has (k : str) (j : json) : result bool :=
  match j with
  | JObj d => Ok (match get k d with Some _ => true | None => false end)
  | JList l => Ok (existsb (is_str k) l)
  | JStr s => Ok (contains k s)
  | _ => Raise TypeError
  end.

(** [j[k]] for a string [k]: only an object can be indexed by a string. *)
Definition subscript (k : str) (j : json) : result json :=
  match j with
  | JObj d => item k d
  | _ => Raise TypeError
  end.

(** [j.get(k)], which is [None] when the key is absent. *)
Definition get_or_none (k : str) (j : json) : result json :=
  match j with
  | JObj d => Ok (match get k d with Some v => v | None => JNull end)
  | _ => Raise AttributeError
  end.

Definition is_none (j : json) : bool :=
  match j with JNull => true | _ => false end.

(** [j is False] *)
Definition is_False (j : json) : bool :=
  match j with JBool false => true | _ => false end.

(** A JSON number as a real; [True] and [False] count as 1 and 0. *)
Definition number (j : json) : result R :=
  match j with
  | JInt z => Ok (IZR z)
  | JFloat x => Ok x
  | JBool b => Ok (if b then 1%R else 0%R)
  | _ => Raise TypeError
  end.

Definition hex_digit (k : nat) : ascii :=
  ascii_of_nat (if (k <? 10)%nat then 48 + k else 87 + k).

(** The escape [\u00XX] of a code point below 256. *)
Definition escape_u (c : ascii) : str :=
  String backslash
    (String "u" (String "0" (String "0"
      (String (hex_digit (ord c / 16))
        (String (hex_digit (ord c mod 16)) EmptyString))))).

(** One character of a string literal with [ensure_ascii] on: printable
    ASCII stays, the quote and the backslash are escaped, and so is the
    rest. *)
Definition escape_char (c : ascii) : str :=
  let k := ord c in
  if (k =? 34)%nat then String backslash (String dquote EmptyString)
  else if (k =? 92)%nat then String backslash (String backslash EmptyString)
  else if (k =? 8)%nat then String backslash "b"
  else if (k =? 12)%nat then String backslash "f"
  else if (k =? 10)%nat then String backslash "n"
  else if (k =? 13)%nat then String backslash "r"
  else if (k =? 9)%nat then String backslash "t"
  else if ((32 <=? k) && (k <=? 126))%nat then String c EmptyString
  else escape_u c.

Fixpoint escape (s : str) : str :=
  match s with
  | EmptyString => EmptyString
  | String c s' => escape_char c ++ escape s'
  end.

Definition quote (s : str) : str :=
  String dquote (escape s ++ String dquote EmptyString).

Definition int_repr (z : Z) : str := NilZero.string_of_int (Z.to_int z).

(** [json.dumps(j, separators=(",", ":"))] *)
Fixpoint dumps `{FloatRepr} (j : json) : str :=
  match j with
  | JNull => "null"
  | JBool true => "true"
  | JBool false => "false"
  | JInt z => int_repr z
  | JFloat x => float_repr x
  | JStr s => quote s
  | JList l => "[" ++ join "," (map dumps l) ++ "]"
  | JObj d =>
      "{" ++ join "," (map (fun '(k, v) => quote k ++ ":" ++ dumps v) d)
          ++ "}"
  end.

(** [j.get(k, default)] *)
Definition get_default (k : str) (default : json) (j : json) : result json :=
  match j with
  | JObj d => Ok (match get k d with Some v => v | None => default end)
  | _ => Raise AttributeError
  end.

(** [j == z] for an integer literal [z]. *)
Definition eq_int (z : Z) (j : json) : bool :=
  match j with
  | JInt z' => (z' =? z)%Z
  | JFloat x => if Req_dec_T x (IZR z) then true else false
  | JBool b => ((if b then 1 else 0) =? z)%Z
  | _ => false
  end.

(** The text of a number inside an f-string. *)
Definition format_number `{FloatRepr} (j : json) : str :=
  match j with
  | JInt z => int_repr z
  | JFloat x => float_repr x
  | JBool true => "True"
  | JBool false => "False"
  | _ => EmptyString
  end.

End Json.

(** ** The connection, [class _Conn] *)

(** What the kernel does with one [send]: it takes some of the bytes offered
    (possibly none), or the call raises. *)
Inductive send_outcome : Type :=
| Accepts (k : nat)
| Fails.

(** The socket as the client sees it: [inbox] holds the chunks that the
    next calls of [recv] return, [outbox] the bytes written so far,
    [send_plan i] what the [i]-th call of [send] will do and [send_count]
    the number of calls made. *)
Module Socket.

Record t : Type := mk {
  inbox : list bytes;
  outbox : bytes;
  send_plan : nat -> send_outcome;
  send_count : nat
}.

(** [sock.send(data)]: the number of bytes taken, which are appended to
    the bytes written; [None] when the call raises [OSError]. *)
Definition send (data : bytes) (sk : t) : option nat * t :=
  match send_plan sk (send_count sk) with
  | Accepts k =>
      let sent := Nat.min k (length data) in
      (Some sent,
       mk (inbox sk) (outbox sk ++ firstn sent data) (send_plan sk)
          (S (send_count sk)))
  | Fails =>
      (None,
       mk (inbox sk) (outbox sk) (send_plan sk) (S (send_count sk)))
  end.

End Socket.

Module _Conn.

(** The selector [sel] is set and cleared together with [sock] and is
    not a field of its own here. *)
Record t : Type := mk {
  lines : list bytes;
  buf : bytes;
  sock : option Socket.t;
  terminate : bool
}.

Definition IsConnected (self : t) : bool :=
  match sock self with Some _ => true | None => false end.

Definition Terminate (self : t) : t :=
  mk (lines self) (buf self) (sock self) true.

Definition close (self : t) : t :=
  mk (lines self) (buf self) None (terminate self).

Definition is_terminator (c : byte) : bool :=
  Byte.eqb c (byte_of_ascii CR) || Byte.eqb c (byte_of_ascii LF).

(** The scan of one received chunk: [s] is what is left of the chunk from
    index [i] on and [seg] is the slice [s[i0:i]] not yet moved to [buf]. *)
Fixpoint scan (s seg : bytes) (lines : list bytes) (buf : bytes)
  : list bytes * bytes :=
  match s with
  | [] => (lines, buf ++ seg)
  | c :: s' =>
      if is_terminator c then
        match buf ++ seg with
        | [] => scan s' [] lines []
        | b :: bs => scan s' [] (lines ++ [b :: bs]) []
        end
      else scan s' (seg ++ [c]) lines buf
  end.

(** How a call of [ReadLine] ends: with a line, with the empty line
    after [Terminate], or not at all as long as no data arrives. *)
Inductive read : Type :=
| Line (l : bytes)
| Terminated
| Waiting.

(** The loop of [ReadLine] over the chunks still to be received. *)
Fixpoint ReadLine_loop (inbox : list bytes) (lines : list bytes)
  (buf : bytes) (terminate : bool)
  : read * (list bytes * list bytes * bytes) :=
  match lines with
  | l :: lines' => (Line l, (inbox, lines', buf))
  | [] =>
      if terminate then (Terminated, (inbox, [], buf))
      else
        match inbox with
        | [] => (Waiting, (inbox, [], buf))
        | s :: inbox' =>
            let '(lines1, buf1) := scan s [] [] buf in
            ReadLine_loop inbox' lines1 buf1 terminate
        end
  end.

(** [ReadLine()]; [None] when the assertion on [sock] fails. *)
Definition ReadLine (self : t) : option (read * t) :=
  match sock self with
  | None => None
  | Some sk =>
      let '(r, (inbox1, lines1, buf1)) :=
        ReadLine_loop (Socket.inbox sk) (lines self) (buf self)
          (terminate self) in
      Some (r, mk lines1 buf1
                 (Some (Socket.mk inbox1 (Socket.outbox sk)
                          (Socket.send_plan sk) (Socket.send_count sk)))
                 (terminate self))
  end.

(** [k] calls of [ReadLine] in a row, as the reader makes them: the lines
    they return, up to the first call that returns no line. *)
Fixpoint ReadLines (k : nat) (self : t) : list bytes * t :=
  match k with
  | O => ([], self)
  | S k' =>
      match ReadLine self with
      | Some (Line l, self1) =>
          let '(ls, self2) := ReadLines k' self1 in (l :: ls, self2)
      | Some (_, self1) => ([], self1)
      | None => ([], self)
      end
  end.

(** The loop of [WriteLine]: [b] is the encoded string, [totsent] the
    number of its bytes already taken by the socket. *)
Equations? WriteLine_loop (b : bytes) (sk : Socket.t) (totsent : nat)
  : result unit * Socket.t by wf (length b - totsent) lt :=
  WriteLine_loop b sk totsent with lt_dec totsent (length b) := {
    | right _ => (Ok tt, sk)
    | left Hlt with Socket.send (skipn totsent b) sk := {
        | (None, sk1) => (Raise OSError, sk1)
        | (Some O, sk1) =>
            (Raise (RuntimeError "socket connection broken"%string), sk1)
        | (Some (S sent), sk1) => WriteLine_loop b sk1 (totsent + S sent)
      }
  }.
Proof. lia. Qed.

(** [WriteLine(s)]; [None] when the assertion on [sock] fails. *)
Definition WriteLine (s : str) (self : t) : option (result unit * t) :=
  match sock self with
  | None => None
  | Some sk =>
      let '(r, sk1) := WriteLine_loop (encode s) sk 0 in
      Some (r, mk (lines self) (buf self) (Some sk1) (terminate self))
  end.

End _Conn.

(** ** The data classes *)

Module SettleProgress.

Record t : Type := mk {
  Done : bool;
  Distance : json;
  SettlePx : json;
  Time : json;
  SettleTime : json;
  Status : json;
  Error : json
}.

(** [SettleProgress()], all fields at their defaults. *)
Definition new : t :=
  mk false (JInt 0) (JInt 0) (JInt 0) (JInt 0) (JInt 0) JNull.

End SettleProgress.

Module GuideStats.

Record t : Type := mk {
  rms_tot : R;
  rms_ra : R;
  rms_dec : R;
  peak_ra : R;
  peak_dec : R
}.

(** [GuideStats()] *)
Definition new : t := mk 0 0 0 0 0.

End GuideStats.

Module Subframe.

Record t : Type := mk { x : json; y : json; width : json; height : json }.

End Subframe.

Module SingleFrameResult.

Record t : Type := mk {
  success : json;
  error_message : json;
  path : json
}.

End SingleFrameResult.

(** ** Library functions *)

(** [math.hypot(x, y)] *)
Definition hypot (x y : R) : R := sqrt (x * x + y * y).

(** ** The session, [class Guider] *)

Module Guider.

Local Open Scope string_scope.

(** The fields that the reader and the operations below use; the value
    [None] of [response] is [JNull]. *)
Record t : Type := mk {
  conn : option _Conn.t;
  terminate : bool;
  response : json;
  AppState : json;
  AvgDist : json;
  Version : json;
  PHDSubver : json;
  accum_active : bool;
  settle_px : json;
  accum_ra : _Accum.t;
  accum_dec : _Accum.t;
  Stats : GuideStats.t;
  Settle : option SettleProgress.t;
  single_frame : option SingleFrameResult.t
}.

(** [Guider()]: the session as the class body declares it.  The two
    accumulators are objects that the class body makes once, for the class:
    every session of the process reads and updates these same two objects,
    so a session starts with the contents [class_ra] and [class_dec] that
    they have when it is made.  The other fields are rebound by assignment
    and start at the values of the class body. *)
Definition new (class_ra class_dec : _Accum.t) : t :=
  mk None false JNull (JStr EmptyString) (JInt 0) (JStr EmptyString)
     (JStr EmptyString) false (JInt 0) class_ra class_dec
     GuideStats.new None None.

(** *** Field assignments *)

Definition set_conn (v : option _Conn.t) (g : t) : t :=
  mk v (terminate g) (response g) (AppState g) (AvgDist g) (Version g)
     (PHDSubver g) (accum_active g) (settle_px g) (accum_ra g)
     (accum_dec g) (Stats g) (Settle g) (single_frame g).

Definition set_response (v : json) (g : t) : t :=
  mk (conn g) (terminate g) v (AppState g) (AvgDist g) (Version g)
     (PHDSubver g) (accum_active g) (settle_px g) (accum_ra g)
     (accum_dec g) (Stats g) (Settle g) (single_frame g).

Definition set_AppState (v : json) (g : t) : t :=
  mk (conn g) (terminate g) (response g) v (AvgDist g) (Version g)
     (PHDSubver g) (accum_active g) (settle_px g) (accum_ra g)
     (accum_dec g) (Stats g) (Settle g) (single_frame g).

Definition set_AvgDist (v : json) (g : t) : t :=
  mk (conn g) (terminate g) (response g) (AppState g) v (Version g)
     (PHDSubver g) (accum_active g) (settle_px g) (accum_ra g)
     (accum_dec g) (Stats g) (Settle g) (single_frame g).

Definition set_Version (v : json) (g : t) : t :=
  mk (conn g) (terminate g) (response g) (AppState g) (AvgDist g) v
     (PHDSubver g) (accum_active g) (settle_px g) (accum_ra g)
     (accum_dec g) (Stats g) (Settle g) (single_frame g).

Definition set_PHDSubver (v : json) (g : t) : t :=
  mk (conn g) (terminate g) (response g) (AppState g) (AvgDist g)
     (Version g) v (accum_active g) (settle_px g) (accum_ra g)
     (accum_dec g) (Stats g) (Settle g) (single_frame g).

Definition set_accum_active (v : bool) (g : t) : t :=
  mk (conn g) (terminate g) (response g) (AppState g) (AvgDist g)
     (Version g) (PHDSubver g) v (settle_px g) (accum_ra g)
     (accum_dec g) (Stats g) (Settle g) (single_frame g).

Definition set_settle_px (v : json) (g : t) : t :=
  mk (conn g) (terminate g) (response g) (AppState g) (AvgDist g)
     (Version g) (PHDSubver g) (accum_active g) v (accum_ra g)
     (accum_dec g) (Stats g) (Settle g) (single_frame g).

Definition set_accum_ra (v : _Accum.t) (g : t) : t :=
  mk (conn g) (terminate g) (response g) (AppState g) (AvgDist g)
     (Version g) (PHDSubver g) (accum_active g) (settle_px g) v
     (accum_dec g) (Stats g) (Settle g) (single_frame g).

Definition set_accum_dec (v : _Accum.t) (g : t) : t :=
  mk (conn g) (terminate g) (response g) (AppState g) (AvgDist g)
     (Version g) (PHDSubver g) (accum_active g) (settle_px g) (accum_ra g)
     v (Stats g) (Settle g) (single_frame g).

Definition set_Stats (v : GuideStats.t) (g : t) : t :=
  mk (conn g) (terminate g) (response g) (AppState g) (AvgDist g)
     (Version g) (PHDSubver g) (accum_active g) (settle_px g) (accum_ra g)
     (accum_dec g) v (Settle g) (single_frame g).

Definition set_Settle (v : option SettleProgress.t) (g : t) : t :=
  mk (conn g) (terminate g) (response g) (AppState g) (AvgDist g)
     (Version g) (PHDSubver g) (accum_active g) (settle_px g) (accum_ra g)
     (accum_dec g) (Stats g) v (single_frame g).

Definition set_single_frame (v : option SingleFrameResult.t) (g : t) : t :=
  mk (conn g) (terminate g) (response g) (AppState g) (AvgDist g)
     (Version g) (PHDSubver g) (accum_active g) (settle_px g) (accum_ra g)
     (accum_dec g) (Stats g) (Settle g) v.

(** *** Methods are computations on the session

    A method takes the session and gives back how it ended together with
    the session as it left it: what a method assigned before it raised
    stays assigned. *)

Definition M (A : Type) : Type := t -> result A * t.

Definition ret {A : Type} (v : A) : M A := fun g => (Ok v, g).

Definition raise {A : Type} (e : exn) : M A := fun g => (Raise e, g).

Definition bind {A B : Type} (m : M A) (k : A -> M B) : M B :=
  fun g =>
    match m g with
    | (Ok v, g1) => k v g1
    | (Raise e, g1) => (Raise e, g1)
    | (Blocks, g1) => (Blocks, g1)
    end.

Definition lift {A : Type} (r : result A) : M A := fun g => (r, g).

Definition gets {A : Type} (f : t -> A) : M A := fun g => (Ok (f g), g).

Definition modify (f : t -> t) : M unit := fun g => (Ok tt, f g).

(** [try: m  except Exception as e: h e] *)
Definition try_except {A : Type} (m : M A) (h : exn -> M A) : M A :=
  fun g =>
    match m g with
    | (Raise e, g1) => h e g1
    | r => r
    end.

Notation "x <- m ;; k" := (bind m (fun x => k))
  (at level 61, m at next level, right associativity).
Notation "m ;;; k" := (bind m (fun _ => k))
  (at level 61, right associativity).

(** *** The event projection *)

Definition _is_guiding (st : json) : bool :=
  Json.is_str "Guiding" st || Json.is_str "LostLock" st.

Definition _accum_get_stats (ra dec : _Accum.t) : GuideStats.t :=
  GuideStats.mk (GuideStats.rms_tot GuideStats.new)
    (_Accum.Stdev ra) (_Accum.Stdev dec) (_Accum.Peak ra) (_Accum.Peak dec).

(** The two statements [self.accum_ra.Reset(); self.accum_dec.Reset()]. *)
Definition reset_accums : M unit :=
  modify (fun g => set_accum_ra (_Accum.Reset (accum_ra g)) g) ;;;
  modify (fun g => set_accum_dec (_Accum.Reset (accum_dec g)) g).

Definition snapshot : M GuideStats.t :=
  gets (fun g => _accum_get_stats (accum_ra g) (accum_dec g)).

Definition _handle_event (ev : json) : M unit :=
  e <- lift (Json.subscript "Event" ev) ;;
  if Json.is_str "AppState" e then
    st <- lift (Json.subscript "State" ev) ;;
    modify (set_AppState st) ;;;
    st1 <- gets AppState ;;
    if _is_guiding st1 then modify (set_AvgDist (JInt 0)) else ret tt
  else if Json.is_str "Version" e then
    v <- lift (Json.subscript "PHDVersion" ev) ;;
    modify (set_Version v) ;;;
    sv <- lift (Json.subscript "PHDSubver" ev) ;;
    modify (set_PHDSubver sv)
  else if Json.is_str "StartGuiding" e then
    modify (set_accum_active true) ;;;
    reset_accums ;;;
    stats <- snapshot ;;
    modify (set_Stats stats)
  else if Json.is_str "GuideStep" e then
    active <- gets accum_active ;;
    stats <- (if active then
                ra <- lift (Json.subscript "RADistanceRaw" ev) ;;
                x <- lift (Json.number ra) ;;
                modify (fun g => set_accum_ra (_Accum.Add x (accum_ra g)) g) ;;;
                dec <- lift (Json.subscript "DECDistanceRaw" ev) ;;
                y <- lift (Json.number dec) ;;
                modify (fun g => set_accum_dec (_Accum.Add y (accum_dec g)) g) ;;;
                st <- snapshot ;;
                ret (Some st)
              else ret None) ;;
    modify (set_AppState (JStr "Guiding")) ;;;
    d <- lift (Json.subscript "AvgDist" ev) ;;
    modify (set_AvgDist d) ;;;
    active1 <- gets accum_active ;;
    match active1, stats with
    | true, Some st => modify (set_Stats st)
    | _, _ => ret tt
    end
  else if Json.is_str "SettleBegin" e then
    modify (set_accum_active false)
  else if Json.is_str "Settling" e then
    dist <- lift (Json.subscript "Distance" ev) ;;
    px <- gets settle_px ;;
    tm <- lift (Json.subscript "Time" ev) ;;
    stm <- lift (Json.subscript "SettleTime" ev) ;;
    modify (set_Settle
              (Some (SettleProgress.mk false dist px tm stm (JInt 0)
                       (SettleProgress.Error SettleProgress.new))))
  else if Json.is_str "SettleDone" e then
    modify (set_accum_active true) ;;;
    reset_accums ;;;
    stats <- snapshot ;;
    status <- lift (Json.subscript "Status" ev) ;;
    err <- lift (Json.get_or_none "Error" ev) ;;
    modify (set_Settle
              (Some (SettleProgress.mk true
                       (SettleProgress.Distance SettleProgress.new)
                       (SettleProgress.SettlePx SettleProgress.new)
                       (SettleProgress.Time SettleProgress.new)
                       (SettleProgress.SettleTime SettleProgress.new)
                       status err))) ;;;
    modify (set_Stats stats)
  else if Json.is_str "Paused" e then
    modify (set_AppState (JStr "Paused"))
  else if Json.is_str "StartCalibration" e then
    modify (set_AppState (JStr "Calibrating"))
  else if Json.is_str "LoopingExposures" e then
    modify (set_AppState (JStr "Looping"))
  else if Json.is_str "LoopingExposuresStopped" e
          || Json.is_str "GuidingStopped" e then
    modify (set_AppState (JStr "Stopped"))
  else if Json.is_str "StarLost" e then
    modify (set_AppState (JStr "LostLock")) ;;;
    d <- lift (Json.subscript "AvgDist" ev) ;;
    modify (set_AvgDist d)
  else if Json.is_str "SingleFrameComplete" e then
    ok <- lift (Json.subscript "Success" ev) ;;
    err <- lift (Json.get_or_none "Error" ev) ;;
    pth <- lift (Json.get_or_none "Path" ev) ;;
    modify (set_single_frame (Some (SingleFrameResult.mk ok err pth)))
  else ret tt.

(** *** The reader

    [json.loads] is the library's parser: a line comes with its parse,
    [None] for a line that is not JSON. *)

(** The body of the loop of [_worker] for one line. *)
Definition _worker_body (line : option json) : M unit :=
  match line with
  | None => ret tt
  | Some j =>
      is_response <- lift (Json.has "jsonrpc" j) ;;
      if is_response then modify (set_response j) else _handle_event j
  end.

(** The loop of [_worker] over the lines that [ReadLine] returns: it
    goes on while the session is not told to terminate, and it ends with
    the first exception, which ends the reader thread. *)
Fixpoint _worker (lines : list (option json)) : M unit :=
  match lines with
  | [] => ret tt
  | line :: rest =>
      stop <- gets terminate ;;
      if stop then ret tt else _worker_body line ;;; _worker rest
  end.

(** *** Remote calls *)

(** The dictionary [req] that [_make_jsonrpc] builds. *)
Definition _make_jsonrpc_req (method : str) (params : json) : dict :=
  let req := [("method", JStr method); ("id", JInt 1)] in
  if negb (Json.is_none params) then
    match params with
    | JList _ | JObj _ => Json.set "params" params req
    | _ => Json.set "params" (JList [params]) req
    end
  else req.

Definition _make_jsonrpc `{FloatRepr} (method : str) (params : json) : str :=
  Json.dumps (JObj (_make_jsonrpc_req method params)).

Definition _failed (res : json) : result bool := Json.has "error" res.

(** The wait of [Call] for the response.  The reader runs in its own
    thread; [during] are the lines it handles between the moment the
    request is written and the moment the caller finds the response, and
    with no response in the slot by then the caller goes on waiting. *)
Definition await_response (during : list (option json)) : M json :=
  fun g =>
    let g1 := snd (_worker during g) in
    if negb (Json.truthy (response g1)) then (Blocks, g1)
    else (Ok (response g1), set_response JNull g1).

(** The part of [Call] after the request is written. *)
Definition receive (during : list (option json)) : M json :=
  response <- await_response during ;;
  failed <- lift (_failed response) ;;
  if failed then
    err <- lift (Json.subscript "error" response) ;;
    msg <- lift (Json.subscript "message" err) ;;
    raise (GuiderError msg)
  else ret response.

Definition Call `{FloatRepr} (method : str) (params : json)
  (during : list (option json)) : M json :=
  c <- gets conn ;;
  match c with
  | None => raise NotConnectedError
  | Some c0 =>
      let s := _make_jsonrpc method params in
      match _Conn.WriteLine (s ++ CRLF) c0 with
      | None => raise AssertionError
      | Some (sent, c1) =>
          modify (set_conn (Some c1)) ;;;
          lift sent ;;;
          receive during
      end
  end.

Definition _CheckConnected : M unit :=
  c <- gets conn ;;
  match c with
  | None => raise NotConnectedError
  | Some c0 =>
      if negb (_Conn.IsConnected c0)
      then raise (GuiderError (JStr "PHD2 Server disconnected"))
      else ret tt
  end.

(** [self.Settle and not self.Settle.Done] *)
Definition settle_in_progress (g : t) : bool :=
  match Settle g with
  | Some s => negb (SettleProgress.Done s)
  | None => false
  end.

(** *** Operations *)

Definition Guide `{FloatRepr} (settlePixels settleTime settleTimeout : json)
  (during : list (option json)) : M unit :=
  _CheckConnected ;;;
  let s := SettleProgress.mk false (JInt 0) settlePixels (JInt 0) settleTime
             (JInt 0) (SettleProgress.Error SettleProgress.new) in
  busy <- gets settle_in_progress ;;
  if busy then raise (GuiderError (JStr "cannot guide while settling"))
  else
    modify (set_Settle (Some s)) ;;;
    try_except
      (Call "guide"
         (JList [JObj [("pixels", settlePixels); ("time", settleTime);
                       ("timeout", settleTimeout)];
                 JBool false]) during ;;;
       modify (set_settle_px settlePixels))
      (fun e => modify (set_Settle None) ;;; raise e).

Definition Dither `{FloatRepr}
  (ditherPixels settlePixels settleTime settleTimeout : json)
  (during : list (option json)) : M unit :=
  _CheckConnected ;;;
  let s := SettleProgress.mk false ditherPixels settlePixels (JInt 0)
             settleTime (JInt 0) (SettleProgress.Error SettleProgress.new) in
  busy <- gets settle_in_progress ;;
  if busy then raise (GuiderError (JStr "cannot dither while settling"))
  else
    modify (set_Settle (Some s)) ;;;
    try_except
      (Call "dither"
         (JList [ditherPixels; JBool false;
                 JObj [("pixels", settlePixels); ("time", settleTime);
                       ("timeout", settleTimeout)]]) during ;;;
       modify (set_settle_px settlePixels))
      (fun e => modify (set_Settle None) ;;; raise e).

Definition CheckSettling : M SettleProgress.t :=
  _CheckConnected ;;;
  let ret0 := SettleProgress.new in
  st <- gets Settle ;;
  match st with
  | None => raise (GuiderError (JStr "not settling"))
  | Some s =>
      if SettleProgress.Done s then
        modify (set_Settle None) ;;;
        ret (SettleProgress.mk true
               (SettleProgress.Distance ret0) (SettleProgress.SettlePx ret0)
               (SettleProgress.Time ret0) (SettleProgress.SettleTime ret0)
               (SettleProgress.Status s) (SettleProgress.Error s))
      else
        px <- gets settle_px ;;
        ret (SettleProgress.mk false
               (SettleProgress.Distance s) px
               (SettleProgress.Time s) (SettleProgress.SettleTime s)
               (SettleProgress.Status ret0) (SettleProgress.Error ret0))
  end.

(** [if v is not None: params[k] = v] *)
Definition set_if_given (k : str) (v : json) (params : dict) : dict :=
  if negb (Json.is_none v) then Json.set k v params else params.

(** The dictionary [params] that [CaptureSingleFrame] builds. *)
Definition capture_params (exposure binning gain : json)
  (roi : option Subframe.t) (path save : json) : dict :=
  let params := [] in
  let params := set_if_given "exposure" exposure params in
  let params := set_if_given "binning" binning params in
  let params := set_if_given "gain" gain params in
  let params :=
    match roi with
    | Some r =>
        Json.set "subframe"
          (JList [Subframe.x r; Subframe.y r; Subframe.width r;
                  Subframe.height r]) params
    | None => params
    end in
  let params := set_if_given "path" path params in
  let params := set_if_given "save" save params in
  params.

Definition CaptureSingleFrame `{FloatRepr} (exposure binning gain : json)
  (roi : option Subframe.t) (path save : json)
  (during : list (option json)) : M unit :=
  if negb (Json.is_none path) && Json.is_False save then
    raise (ValueError
      "invalid arguments: when save is False, the path argument should be omitted")
  else
    let params := capture_params exposure binning gain roi path save in
    modify (set_single_frame None) ;;;
    Call "capture_single_frame" (JObj params) during ;;;
    ret tt.

(** *** Queries *)

Definition IsSettling `{FloatRepr} (during : list (option json)) : M json :=
  _CheckConnected ;;;
  st <- gets Settle ;;
  match st with
  | Some _ => ret (JBool true)
  | None =>
      res <- Call "get_settling" JNull during ;;
      val <- lift (Json.subscript "result" res) ;;
      (if Json.truthy val then
         let s := SettleProgress.mk false (JFloat (-1)) (JFloat 0) (JFloat 0)
                    (JFloat 0) (JInt 0)
                    (SettleProgress.Error SettleProgress.new) in
         st1 <- gets Settle ;;
         match st1 with
         | None => modify (set_Settle (Some s))
         | Some _ => ret tt
         end
       else ret tt) ;;;
      ret val
  end.

Definition GetStats : M GuideStats.t :=
  _CheckConnected ;;;
  stats <- gets Stats ;;
  ret (GuideStats.mk
         (hypot (GuideStats.rms_ra stats) (GuideStats.rms_dec stats))
         (GuideStats.rms_ra stats) (GuideStats.rms_dec stats)
         (GuideStats.peak_ra stats) (GuideStats.peak_dec stats)).

Definition GetStatus : M (json * json) :=
  _CheckConnected ;;;
  gets (fun g => (AppState g, AvgDist g)).

Definition IsGuiding : M bool :=
  status <- GetStatus ;;
  ret (_is_guiding (fst status)).

Definition CheckSingleFrame : M (option SingleFrameResult.t) :=
  result <- gets single_frame ;;
  modify (set_single_frame None) ;;;
  ret result.

(** *** Operations of one call *)

Definition PixelScale `{FloatRepr} (during : list (option json)) : M json :=
  res <- Call "get_pixel_scale" JNull during ;;
  lift (Json.subscript "result" res).

Definition GetExposure `{FloatRepr} (during : list (option json)) : M json :=
  res <- Call "get_exposure" JNull during ;;
  lift (Json.subscript "result" res).

(** [for p in j]: a list gives its elements, a dictionary its keys, a
    string its characters; other values are not iterable. *)
Definition iterate (j : json) : result (list json) :=
  match j with
  | JList l => Ok l
  | JObj d => Ok (map (fun kv => JStr (fst kv)) d)
  | JStr s =>
      Ok (map (fun c => JStr (String c EmptyString)) (list_ascii_of_string s))
  | _ => Raise TypeError
  end.

(** The loop [for p in ps: profiles.append(p["name"])]. *)
Fixpoint profile_names (ps : list json) : result (list json) :=
  match ps with
  | [] => Ok []
  | p :: rest =>
      match Json.subscript "name" p with
      | Ok name =>
          match profile_names rest with
          | Ok names => Ok (name :: names)
          | Raise e => Raise e
          | Blocks => Blocks
          end
      | Raise e => Raise e
      | Blocks => Blocks
      end
  end.

Definition GetEquipmentProfiles `{FloatRepr} (during : list (option json))
  : M (list json) :=
  res <- Call "get_profiles" JNull during ;;
  profiles <- lift (Json.subscript "result" res) ;;
  ps <- lift (iterate profiles) ;;
  lift (profile_names ps).

Definition Pause `{FloatRepr} (during : list (option json)) : M unit :=
  Call "set_paused" (JBool true) during ;;; ret tt.

Definition Unpause `{FloatRepr} (during : list (option json)) : M unit :=
  Call "set_paused" (JBool false) during ;;; ret tt.

Definition SaveImage `{FloatRepr} (during : list (option json)) : M json :=
  res <- Call "save_image" JNull during ;;
  r <- lift (Json.subscript "result" res) ;;
  lift (Json.subscript "filename" r).

Definition Shutdown `{FloatRepr} (during : list (option json)) : M unit :=
  Call "shutdown" JNull during ;;; ret tt.

(** *** Operations with several waiting points

    An operation that makes several calls, or sleeps between looks at the
    session, meets the reader at every one of these points.  Its future is
    the rounds of lines that the reader handles, one round for each wait of
    a call and each sleep, and the readings of [time.monotonic()], one for
    each look at the clock.  An operation that runs out of future has not
    returned yet. *)

Record future : Type := Future {
  rounds : list (list (option json));
  clock : list R
}.

Definition W (A : Type) : Type := future -> t -> (result A * t) * future.

Definition retW {A : Type} (v : A) : W A := fun f g => ((Ok v, g), f).

Definition bindW {A B : Type} (m : W A) (k : A -> W B) : W B :=
  fun f g =>
    match m f g with
    | ((Ok v, g1), f1) => k v f1 g1
    | ((Raise e, g1), f1) => ((Raise e, g1), f1)
    | ((Blocks, g1), f1) => ((Blocks, g1), f1)
    end.

(** A computation that waits for nothing. *)
Definition now {A : Type} (m : M A) : W A := fun f g => (m g, f).

Notation "x <~ m ;; k" := (bindW m (fun x => k))
  (at level 61, m at next level, right associativity).
Notation "m ;;~ k" := (bindW m (fun _ => k))
  (at level 61, right associativity).

(** [self.Call(method, params)], waiting through the next round. *)
Definition call `{FloatRepr} (method : str) (params : json) : W json :=
  fun f g =>
    match rounds f with
    | [] => (Call method params [] g, f)
    | r :: rs => (Call method params r g, Future rs (clock f))
    end.

(** [time.monotonic()] *)
Definition monotonic : W R :=
  fun f g =>
    match clock f with
    | [] => ((Blocks, g), f)
    | t0 :: ts => ((Ok t0, g), Future (rounds f) ts)
    end.

(** [time.sleep(secs)] for a number [secs] that is not negative: the
    reader handles the next round meanwhile. *)
Definition sleep : W unit :=
  fun f g =>
    match rounds f with
    | [] => ((Blocks, g), f)
    | r :: rs => ((Ok tt, snd (_worker r g)), Future rs (clock f))
    end.

(** The loop
    [while True: if self.AppState == name: return; time.sleep(1);
     self._CheckConnected(); if time.monotonic() > deadline: break]:
    [true] when it returned, [false] when it broke out. *)
Fixpoint poll_AppState (name : str) (deadline : R)
  (rs : list (list (option json))) (ts : list R) (g : t)
  : (result bool * t) * future :=
  if Json.is_str name (AppState g) then ((Ok true, g), Future rs ts)
  else
    match rs with
    | [] => ((Blocks, g), Future [] ts)
    | r :: rs1 =>
        let g1 := snd (_worker r g) in
        match _CheckConnected g1 with
        | (Ok _, g2) =>
            match ts with
            | [] => ((Blocks, g2), Future rs1 [])
            | t0 :: ts1 =>
                if Rlt_dec deadline t0 then ((Ok false, g2), Future rs1 ts1)
                else poll_AppState name deadline rs1 ts1 g2
            end
        | (Raise e, g2) => ((Raise e, g2), Future rs1 ts)
        | (Blocks, g2) => ((Blocks, g2), Future rs1 ts)
        end
    end.

Definition poll (name : str) (deadline : R) : W bool :=
  fun f g => poll_AppState name deadline (rounds f) (clock f) g.

Definition StopCapture `{FloatRepr} (timeoutSeconds : json) : W unit :=
  call "stop_capture" JNull ;;~
  t0 <~ monotonic ;;
  secs <~ now (lift (Json.number timeoutSeconds)) ;;
  let deadline := (t0 + secs)%R in
  returned <~ poll "Stopped" deadline ;;
  if returned then retW tt
  else
    res <~ call "get_app_state" JNull ;;
    st <~ now (lift (Json.subscript "result" res)) ;;
    now (modify (set_AppState st)) ;;~
    if Json.is_str "Stopped" st then retW tt
    else
      now (raise (GuiderError
        (JStr ("guider did not stop capture after "
               ++ Json.format_number timeoutSeconds ++ " seconds!")))).

Definition Loop `{FloatRepr} (timeoutSeconds : json) : W unit :=
  now _CheckConnected ;;~
  st <~ now (gets AppState) ;;
  if Json.is_str "Looping" st then retW tt
  else
    res <~ call "get_exposure" JNull ;;
    exp_ms <~ now (lift (Json.subscript "result" res)) ;;
    call "loop" JNull ;;~
    t0 <~ monotonic ;;
    secs <~ now (lift (Json.number timeoutSeconds)) ;;
    let deadline := (t0 + secs)%R in
    ms <~ now (lift (Json.number exp_ms)) ;;
    (if Rlt_dec (ms / 1000) 0
     then now (raise (ValueError "sleep length must be non-negative"))
     else sleep) ;;~
    returned <~ poll "Looping" deadline ;;
    if returned then retW tt
    else
      now (raise (GuiderError
        (JStr "timed-out waiting for guiding to start looping"))).

(** The loop over the profiles in [ConnectEquipment], from [profid = -1]. *)
Fixpoint find_profile (profileName : str) (ps : list json) : result json :=
  match ps with
  | [] => Ok (JInt (-1))
  | p :: rest =>
      match Json.subscript "name" p with
      | Ok name =>
          if Json.is_str profileName name
          then Json.get_default "id" (JInt (-1)) p
          else find_profile profileName rest
      | Raise e => Raise e
      | Blocks => Blocks
      end
  end.

(** [DEFAULT_STOPCAPTURE_TIMEOUT] *)
Definition DEFAULT_STOPCAPTURE_TIMEOUT : json := JInt 10.

Definition ConnectEquipment `{FloatRepr} (profileName : str) : W unit :=
  res <~ call "get_profile" JNull ;;
  prof <~ now (lift (Json.subscript "result" res)) ;;
  name <~ now (lift (Json.subscript "name" prof)) ;;
  (if negb (Json.is_str profileName name) then
     res1 <~ call "get_profiles" JNull ;;
     profiles <~ now (lift (Json.subscript "result" res1)) ;;
     ps <~ now (lift (iterate profiles)) ;;
     profid <~ now (lift (find_profile profileName ps)) ;;
     if Json.eq_int (-1) profid then
       now (raise (GuiderError
         (JStr ("invalid phd2 profile name: " ++ profileName))))
     else
       StopCapture DEFAULT_STOPCAPTURE_TIMEOUT ;;~
       call "set_connected" (JBool false) ;;~
       call "set_profile" profid ;;~
       retW tt
   else retW tt) ;;~
  call "set_connected" (JBool true) ;;~
  retW tt.

Definition DisconnectEquipment `{FloatRepr} : W unit :=
  StopCapture DEFAULT_STOPCAPTURE_TIMEOUT ;;~
  call "set_connected" (JBool false) ;;~
  retW tt.

End Guider.

(** ** Reference framing of a byte stream

    The framing rule in words: every terminator closes the line being
    accumulated, which is emitted when it is not empty; what follows the
    last terminator is the residue. *)

Section Framing.

(** The lines that the stream [s] closes, given the unterminated bytes
    [cur] before it, and the residue after it. *)
Fixpoint frame (s : bytes) (cur : bytes) : list bytes * bytes :=
  match s with
  | [] => ([], cur)
  | c :: s' =>
      if _Conn.is_terminator c then
        let '(ls, r) := frame s' [] in
        (match cur with [] => ls | _ => cur :: ls end, r)
      else frame s' (cur ++ [c])
  end.

(** The framing rule by the words of the specification, over the bytes 13
    (carriage return) and 10 (line feed) themselves: each of them closes the
    line accumulated in [cur], which is emitted when it is not empty; any
    other byte is added to [cur]; what is left in [cur] at the end of the
    stream is the residue. *)
Definition closes_line (c : byte) : bool :=
  match c with
  | x0d | x0a => true
  | _ => false
  end.

Fixpoint framing_rule (s : bytes) (cur : bytes) : list bytes * bytes :=
  match s with
  | [] => ([], cur)
  | c :: s' =>
      if closes_line c then
        let '(ls, r) := framing_rule s' [] in
        (match cur with [] => ls | _ => cur :: ls end, r)
      else framing_rule s' (cur ++ [c])
  end.

(** The state of the framer, its queue of lines and its buffer, after
    one more chunk. *)
Definition feed (st : list bytes * bytes) (chunk : bytes)
  : list bytes * bytes :=
  _Conn.scan chunk [] (fst st) (snd st).

(** A connection over a socket whose next reads return [chunks]. *)
Definition conn_reading (chunks : list bytes) (c : _Conn.t) (sk : Socket.t)
  : _Conn.t :=
  _Conn.mk (_Conn.lines c) (_Conn.buf c)
    (Some (Socket.mk chunks (Socket.outbox sk) (Socket.send_plan sk)
             (Socket.send_count sk)))
    (_Conn.terminate c).

(** All the lines that calls of [ReadLine] can still return: those queued
    and, unless the connection was told to terminate, those that the bytes
    still to be received close. *)
Definition pending (inbox : list bytes) (lines : list bytes) (buf : bytes)
  (terminate : bool) : list bytes :=
  if terminate then lines else lines ++ fst (frame (concat inbox) buf).

End Framing.

(** Every call of [send] from the [i0]-th on takes at least one byte. *)
Definition accepting (plan : nat -> send_outcome) (i0 : nat) : Prop :=
  forall i, i0 <= i -> exists k, plan i = Accepts (S k).

(** ** Relating the session before and after a computation *)

(** A computation relates the session it ends in to the one it started in,
    however it ends. *)
Definition preserves {A : Type} (R : Guider.t -> Guider.t -> Prop)
  (m : Guider.M A) : Prop :=
  forall g, R g (snd (m g)).

(** The reader leaves these fields alone. *)
Definition same_link (g g1 : Guider.t) : Prop :=
  Guider.conn g1 = Guider.conn g
  /\ Guider.settle_px g1 = Guider.settle_px g
  /\ Guider.terminate g1 = Guider.terminate g.

(** The bytes written to the socket of the session so far. *)
Definition written (g : Guider.t) : bytes :=
  match Guider.conn g with
  | Some c =>
      match _Conn.sock c with
      | Some sk => Socket.outbox sk
      | None => []
      end
  | None => []
  end.

(** The session has an open connection: [_CheckConnected] lets it pass. *)
Definition connected (g : Guider.t) : Prop :=
  exists c, Guider.conn g = Some c /\ _Conn.IsConnected c = true.

(** The session is connected to a socket that keeps taking bytes. *)
Definition online (g : Guider.t) : Prop :=
  exists c sk,
    Guider.conn g = Some c /\ _Conn.sock c = Some sk
    /\ accepting (Socket.send_plan sk) (Socket.send_count sk).

(** ** Sessions and messages for the examples *)

Section Examples.

Local Open Scope string_scope.

(** A printer of floats for the examples, none of which prints a float. *)
Definition any_float_repr : FloatRepr := fun _ => "<float>".

(** A string literal in which the apostrophe stands for the double quote. *)
Fixpoint dq (s : str) : str :=
  match s with
  | EmptyString => EmptyString
  | String c s' => String (if Ascii.eqb c "'" then dquote else c) (dq s')
  end.

(** A socket that takes up to [k] bytes at every [send]. *)
Definition socket_taking (k : nat) : Socket.t :=
  Socket.mk [] [] (fun _ => Accepts k) 0.

(** The first session of a process: the accumulators are as the class
    body has made them, [_Accum()]. *)
Definition first_session : Guider.t :=
  Guider.new (_Accum.Reset (_Accum.mk 0 0 0 0))
    (_Accum.Reset (_Accum.mk 0 0 0 0)).


(** A session just connected, on which no call was made and no line read. *)
Definition connected_session (k : nat) : Guider.t :=
  Guider.set_conn (Some (_Conn.mk [] [] (Some (socket_taking k)) false))
    first_session.

Definition ok_response : json :=
  JObj [("jsonrpc", JStr "2.0"); ("result", JInt 0); ("id", JInt 1)].

Definition error_response : json :=
  JObj [("jsonrpc", JStr "2.0");
        ("error", JObj [("code", JInt 1); ("message", JStr "no star")]);
        ("id", JInt 1)].

Definition event (name : str) (fields : dict) : json :=
  JObj (("Event", JStr name) :: fields).

Definition guide_step (ra dec avg : Z) : json :=
  event "GuideStep"
    [("RADistanceRaw", JInt ra); ("DECDistanceRaw", JInt dec);
     ("AvgDist", JInt avg)].

Definition settle_done : json := event "SettleDone" [("Status", JInt 0)].

Definition settling : json :=
  event "Settling"
    [("Distance", JInt 3); ("Time", JInt 1); ("SettleTime", JInt 10)].

End Examples.

(** ** Requests and pending progress of the operations, by the words of
    their contract *)

Section Contracts.

Local Open Scope string_scope.

(** The entry of a parameter that the caller set. *)
Definition given (k : str) (v : json) : dict :=
  if Json.is_none v then [] else [(k, v)].

Definition settle_object (settlePixels settleTime settleTimeout : json) : json :=
  JObj [("pixels", settlePixels); ("time", settleTime);
        ("timeout", settleTimeout)].

Definition guide_params (settlePixels settleTime settleTimeout : json) : json :=
  JList [settle_object settlePixels settleTime settleTimeout; JBool false].

Definition dither_params
  (ditherPixels settlePixels settleTime settleTimeout : json) : json :=
  JList [ditherPixels; JBool false;
         settle_object settlePixels settleTime settleTimeout].

(** The progress that [Guide] (with [distance] 0) and [Dither] (with
    [distance] the dither amount) install before they send the request. *)
Definition pending_progress (distance settlePixels settleTime : json)
  : SettleProgress.t :=
  SettleProgress.mk false distance settlePixels (JInt 0) settleTime (JInt 0)
    JNull.

(** How an operation ends that sends one request after it has installed a
    pending progress: success records [settle_px], an exception empties the
    settle slot on its way out. *)
Definition settle_call_outcome (settlePixels : json)
  (call : result json * Guider.t) : result unit * Guider.t :=
  match call with
  | (Ok _, g2) => (Ok tt, Guider.set_settle_px settlePixels g2)
  | (Raise e, g2) => (Raise e, Guider.set_Settle None g2)
  | (Blocks, g2) => (Blocks, g2)
  end.

(** The contract of an operation [op] that starts a settle with [method]
    and [params], for every session [g] and all lines [during] that the
    reader handles while the operation waits for the response.
    - In the middle of a settle, and on a session that is not connected,
      it raises and leaves the session as it was, so nothing is written.
    - Otherwise, on a connected session, it installs the pending progress
      and calls from there; an exception of the call leaves the settle slot
      empty; success leaves [settle_px] at the requested value; on a socket
      that takes bytes the request is written; and when the only line
      handled in the meantime is the response, success leaves the pending
      progress in the slot. *)
Definition settle_contract `{FloatRepr}
  (op : list (option json) -> Guider.M unit) (method : str)
  (params distance settlePixels settleTime : json) : Prop :=
  forall (during : list (option json)) (g : Guider.t),
    let pending := pending_progress distance settlePixels settleTime in
    (Guider.settle_in_progress g = true ->
     snd (op during g) = g /\ exists e, fst (op during g) = Raise e)
    /\ (~ connected g ->
        snd (op during g) = g /\ exists e, fst (op during g) = Raise e)
    /\ (connected g -> Guider.settle_in_progress g = false ->
        op during g
        = settle_call_outcome settlePixels
            (Guider.Call method params during
               (Guider.set_Settle (Some pending) g))
        /\ (forall e, fst (op during g) = Raise e ->
            Guider.Settle (snd (op during g)) = None)
        /\ (fst (op during g) = Ok tt ->
            Guider.settle_px (snd (op during g)) = settlePixels)
        /\ (online g ->
            written (snd (op during g))
            = (written g ++ encode (Guider._make_jsonrpc method params)
                 ++ [x0d; x0a])%list)
        /\ (forall j, during = [Some j] ->
            Guider.terminate g = false ->
            Json.has "jsonrpc" j = Ok true ->
            fst (op during g) = Ok tt ->
            Guider.Settle (snd (op during g)) = Some pending)).

(** A session with a settle that has completed and was not read yet. *)
Definition session_with_done_settle : Guider.t :=
  Guider.set_Settle
    (Some (SettleProgress.mk true (JInt 0) (JInt 0) (JInt 0) (JInt 0)
             (JInt 0) JNull))
    (connected_session 4096).

End Contracts.

(** ** The samples behind the statistics, by the words of the
    specification *)

Section Window.

Local Open Scope string_scope.

(** The name of the event on a line; a line that is not JSON or that the
    reader takes for a response carries no event. *)
Definition event_name (line : option json) : option json :=
  match line with
  | Some j =>
      match Json.has "jsonrpc" j with
      | Ok false =>
          match Json.subscript "Event" j with
          | Ok e => Some e
          | _ => None
          end
      | _ => None
      end
  | None => None
  end.

Definition is_named (name : str) (line : option json) : bool :=
  match event_name line with
  | Some e => Json.is_str name e
  | None => false
  end.

(** The sample of a guide step: its raw RA and Dec distances. *)
Definition sample_of (j : json) : option (R * R) :=
  match Json.subscript "RADistanceRaw" j, Json.subscript "DECDistanceRaw" j with
  | Ok ra, Ok dec =>
      match Json.number ra, Json.number dec with
      | Ok x, Ok y => Some (x, y)
      | _, _ => None
      end
  | _, _ => None
  end.

(** The window: whether samples are being collected, and the samples
    collected.  [StartGuiding] and [SettleDone] empty the window and open
    it, [SettleBegin] closes it, and a [GuideStep] adds its sample while the
    window is open. *)
Definition window_step (w : bool * list (R * R)) (line : option json)
  : bool * list (R * R) :=
  if is_named "StartGuiding" line || is_named "SettleDone" line then (true, [])
  else if is_named "SettleBegin" line then (false, snd w)
  else if is_named "GuideStep" line && fst w then
    match line with
    | Some j =>
        match sample_of j with
        | Some xy => (true, (snd w ++ [xy])%list)
        | None => w
        end
    | None => w
    end
  else w.

Definition window (lines : list (option json)) (w : bool * list (R * R))
  : bool * list (R * R) :=
  fold_left window_step lines w.

(** Root mean square deviation of a list of samples, 0 for no sample. *)
Definition rms (xs : list R) : R :=
  match xs with
  | [] => 0
  | _ => sqrt (sqdev (mean xs) xs / INR (length xs))
  end.

(** The statistics of a list of (RA, Dec) samples. *)
Definition stats_of (samples : list (R * R)) : GuideStats.t :=
  GuideStats.mk 0 (rms (map fst samples)) (rms (map snd samples))
    (max_abs (map fst samples)) (max_abs (map snd samples)).

(** The session holds the window [w]: its accumulators have taken the
    samples of the window, in order, since their last reset, and [Stats] is
    their snapshot. *)
Definition tracks (w : bool * list (R * R)) (g : Guider.t) : Prop :=
  Guider.accum_active g = fst w
  /\ Guider.accum_ra g = _Accum.AddAll (map fst (snd w)) (_Accum.mk 0 0 0 0)
  /\ Guider.accum_dec g = _Accum.AddAll (map snd (snd w)) (_Accum.mk 0 0 0 0)
  /\ Guider.Stats g
     = Guider._accum_get_stats (Guider.accum_ra g) (Guider.accum_dec g).

(** The reader takes no sample and resets nothing. *)
Definition same_accum (g g1 : Guider.t) : Prop :=
  Guider.accum_active g1 = Guider.accum_active g
  /\ Guider.accum_ra g1 = Guider.accum_ra g
  /\ Guider.accum_dec g1 = Guider.accum_dec g
  /\ Guider.Stats g1 = Guider.Stats g.








End Window.

(** ** Well-formed lines *)

(** A line as the framer emits it: not empty and without terminator. *)
Definition terminator_free (l : bytes) : bool :=
  forallb (fun c => negb (_Conn.is_terminator c)) l.

Definition clean_line (l : bytes) : bool :=
  match l with
  | [] => false
  | _ => terminator_free l
  end.

(** The queue of a connection holds clean lines and no terminator waits in
    its buffer. *)
Definition clean_conn (c : _Conn.t) : Prop :=
  forallb clean_line (_Conn.lines c) = true
  /\ terminator_free (_Conn.buf c) = true.

(** The bytes of a sequence of lines on the wire, each followed by CR LF. *)
Definition on_wire (ls : list bytes) : bytes :=
  concat (map (fun l => l ++ [x0d; x0a]) ls).

(** ** Kinds of lines and of events *)

Section Lines.

Local Open Scope string_scope.

(** The line is one that the reader takes for a response. *)
Definition is_response (line : option json) : bool :=
  match line with
  | Some j =>
      match Json.has "jsonrpc" j with
      | Ok true => true
      | _ => false
      end
  | None => false
  end.

Definition is_object (j : json) : bool :=
  match j with JObj _ => true | _ => false end.

(** The names of the events that [_handle_event] has a branch for. *)
Definition handled_events : list str :=
  ["AppState"; "Version"; "StartGuiding"; "GuideStep"; "SettleBegin";
   "Settling"; "SettleDone"; "Paused"; "StartCalibration";
   "LoopingExposures"; "LoopingExposuresStopped"; "GuidingStopped";
   "StarLost"; "SingleFrameComplete"].

Definition named_in (names : list str) (e : json) : bool :=
  existsb (fun name => Json.is_str name e) names.

(** The response slot is left alone. *)
Definition same_response (g g1 : Guider.t) : Prop :=
  Guider.response g1 = Guider.response g.

(** The stored result of a single frame is left alone. *)
Definition same_frame (g g1 : Guider.t) : Prop :=
  Guider.single_frame g1 = Guider.single_frame g.

(** None of the lines is a [SingleFrameComplete] event. *)
Definition no_frame_event (lines : list (option json)) : bool :=
  forallb (fun line => negb (is_named "SingleFrameComplete" line)) lines.

(** Everything but the connection and the response slot is left alone. *)
Definition same_derived (g g1 : Guider.t) : Prop :=
  Guider.terminate g1 = Guider.terminate g
  /\ Guider.AppState g1 = Guider.AppState g
  /\ Guider.AvgDist g1 = Guider.AvgDist g
  /\ Guider.Version g1 = Guider.Version g
  /\ Guider.PHDSubver g1 = Guider.PHDSubver g
  /\ Guider.accum_active g1 = Guider.accum_active g
  /\ Guider.settle_px g1 = Guider.settle_px g
  /\ Guider.accum_ra g1 = Guider.accum_ra g
  /\ Guider.accum_dec g1 = Guider.accum_dec g
  /\ Guider.Stats g1 = Guider.Stats g
  /\ Guider.Settle g1 = Guider.Settle g
  /\ Guider.single_frame g1 = Guider.single_frame g.

(** What a caller makes of the response [j] that it finds in the slot:
    the response itself, or the exception with the message of its [error]. *)
Definition answer (j : json) : result json :=
  match Guider._failed j with
  | Ok false => Ok j
  | Ok true =>
      match Json.subscript "error" j with
      | Ok err =>
          match Json.subscript "message" err with
          | Ok msg => Raise (GuiderError msg)
          | Raise e => Raise e
          | Blocks => Blocks
          end
      | Raise e => Raise e
      | Blocks => Blocks
      end
  | Raise e => Raise e
  | Blocks => Blocks
  end.

(** The application state that the handler of the event [name] writes
    down by itself, for the events with such a handler. *)
Definition state_after (name : str) : option str :=
  if String.eqb name "GuideStep" then Some "Guiding"
  else if String.eqb name "Paused" then Some "Paused"
  else if String.eqb name "StartCalibration" then Some "Calibrating"
  else if String.eqb name "LoopingExposures" then Some "Looping"
  else if String.eqb name "LoopingExposuresStopped" then Some "Stopped"
  else if String.eqb name "GuidingStopped" then Some "Stopped"
  else if String.eqb name "StarLost" then Some "LostLock"
  else None.

(** The line of a request on the wire. *)
Definition request_line `{FloatRepr} (method : str) (params : json) : bytes :=
  (encode (Guider._make_jsonrpc method params) ++ [x0d; x0a])%list.

(** A response that carries [result]. *)
Definition result_response (result : json) : json :=
  JObj [("jsonrpc", JStr "2.0"); ("result", result); ("id", JInt 1)].

End Lines.

(** ** Properties of the accumulator *)

Section AccumFacts.

Local Open Scope R_scope.

Lemma sum_app (xs ys : list R) : sum (xs ++ ys) = sum xs + sum ys.
Proof.
  induction xs as [|x xs IH]; simpl.
  - lra.
  - fold (sum (xs ++ ys)). fold (sum xs). rewrite IH. lra.
Qed.

Lemma max_abs_nonneg (xs : list R) : 0 <= max_abs xs.
Proof.
  induction xs as [|x xs IH]; simpl.
  - lra.
  - fold (max_abs xs). eapply Rle_trans; [exact IH | apply Rmax_r].
Qed.

Lemma max_abs_snoc (xs : list R) (x : R) :
  max_abs (xs ++ [x]) = Rmax (max_abs xs) (Rabs x).
Proof.
  induction xs as [|y xs IH]; simpl.
  - rewrite Rmax_comm. reflexivity.
  - fold (max_abs (xs ++ [x])). fold (max_abs xs).
    rewrite IH. rewrite Rmax_assoc. reflexivity.
Qed.

Lemma sqdev_expand (m : R) (xs : list R) :
  sqdev m xs
  = sum (map (fun x => x * x) xs) - 2 * m * sum xs + INR (length xs) * m * m.
Proof.
  unfold sqdev. induction xs as [|x xs IH].
  - simpl. lra.
  - cbn [map length]. rewrite S_INR.
    change (sum (?h :: ?t)) with (h + sum t).
    rewrite IH. lra.
Qed.

Lemma sqdev_nonneg (m : R) (xs : list R) : 0 <= sqdev m xs.
Proof.
  unfold sqdev. induction xs as [|x xs IH].
  - simpl. lra.
  - cbn [map]. change (sum (?h :: ?t)) with (h + sum t).
    pose proof (Rle_0_sqr (x - m)) as Hsq. unfold Rsqr in Hsq. lra.
Qed.

Lemma welford_Reset (s : _Accum.t) : welford [] (_Accum.Reset s).
Proof. split; simpl; lra || reflexivity. Qed.

Lemma welford_Add (xs : list R) (x : R) (s : _Accum.t) :
  welford xs s -> welford (xs ++ [x]) (_Accum.Add x s).
Proof.
  intros [Hn Ha Hq Hp].
  assert (Hlen : length (xs ++ [x]) = S (length xs))
    by (rewrite length_app; simpl; lia).
  assert (Hpos : 0 <= INR (length xs)) by apply pos_INR.
  assert (HIZR : IZR (_Accum.n s + 1) = INR (length xs) + 1).
  { rewrite Hn, plus_IZR, <- INR_IZR_INZ. reflexivity. }
  split; unfold _Accum.Add; cbn [_Accum.n _Accum.a _Accum.q _Accum.peak].
  - rewrite Hlen, Hn. lia.
  - rewrite Hlen, S_INR, sum_app, HIZR. simpl. rewrite <- Ha. field. lra.
  - rewrite Hlen, S_INR, map_app, sum_app, HIZR, Hq. simpl. field. lra.
  - rewrite max_abs_snoc, Hp. unfold Rmax.
    destruct (Rlt_dec (max_abs xs) (Rabs x)) as [Hlt|Hge];
      destruct (Rle_dec (max_abs xs) (Rabs x)) as [Hle|Hnle];
      try reflexivity; lra.
Qed.

Lemma welford_AddAll (ys xs : list R) (s : _Accum.t) :
  welford xs s -> welford (xs ++ ys) (_Accum.AddAll ys s).
Proof.
  revert xs s. induction ys as [|y ys IH]; intros xs s H.
  - rewrite app_nil_r. exact H.
  - replace (xs ++ y :: ys) with ((xs ++ [y]) ++ ys)
      by (rewrite <- app_assoc; reflexivity).
    apply IH, welford_Add, H.
Qed.

Lemma welford_Mean (xs : list R) (s : _Accum.t) :
  xs <> [] -> welford xs s -> _Accum.Mean s = mean xs.
Proof.
  intros Hne [_ Ha _ _]. unfold _Accum.Mean, mean. rewrite <- Ha.
  field. apply not_0_INR. destruct xs; [congruence | discriminate].
Qed.

Lemma welford_q (xs : list R) (s : _Accum.t) :
  xs <> [] -> welford xs s -> _Accum.q s = sqdev (mean xs) xs.
Proof.
  intros Hne H. pose proof (welford_Mean Hne H) as Hm.
  destruct H as [_ Ha Hq _]. unfold _Accum.Mean in Hm.
  rewrite sqdev_expand, Hq, <- Hm, <- Ha. ring.
Qed.

Lemma welford_Stdev (xs : list R) (s : _Accum.t) :
  xs <> [] -> welford xs s ->
  _Accum.Stdev s = sqrt (sqdev (mean xs) xs / INR (length xs)).
Proof.
  intros Hne H. unfold _Accum.Stdev.
  rewrite (welford_q Hne H). destruct H as [Hn _ _ _]. rewrite Hn.
  destruct xs as [|x xs]; [congruence|].
  replace (1 <=? Z.of_nat (length (x :: xs)))%Z with true
    by (symmetry; apply Z.leb_le; simpl length; lia).
  rewrite <- INR_IZR_INZ. reflexivity.
Qed.


(** The reference peak is an upper bound of the absolute values. *)
Lemma max_abs_upper (xs : list R) (x : R) :
  In x xs -> Rabs x <= max_abs xs.
Proof.
  induction xs as [|y xs IH]; simpl; [tauto|].
  fold (max_abs xs). intros [->|Hin].
  - apply Rmax_l.
  - eapply Rle_trans; [apply IH, Hin | apply Rmax_r].
Qed.

(** The reference peak of a nonempty list is attained by one sample. *)
Lemma max_abs_attained (xs : list R) :
  xs <> [] -> exists x, In x xs /\ max_abs xs = Rabs x.
Proof.
  induction xs as [|y xs IH]; [congruence|]. intros _.
  simpl. fold (max_abs xs). unfold Rmax.
  destruct (Rle_dec (Rabs y) (max_abs xs)) as [Hle|Hnle].
  - destruct xs as [|z xs].
    + simpl in *. exists y. split; [now left|].
      pose proof (Rabs_pos y). lra.
    + destruct IH as [x [Hin Hx]]; [discriminate|].
      exists x. split; [now right | exact Hx].
  - exists y. split; [now left | reflexivity].
Qed.

(** C2. Starting from [Reset()], after [Add(x1)], ..., [Add(xn)] with
    [n >= 1] the accumulator's [Mean()] is the arithmetic mean of the
    samples, [Stdev()] is the square root of the mean squared deviation
    (whose argument is not negative) and [Peak()] is the largest absolute
    value; with no sample [Stdev()] is 0; and right after [Reset()] the
    three are 0.  Arithmetic is exact, over the reals. *)
Theorem accum_statistics (s0 : _Accum.t) (xs : list R) :
  let acc := _Accum.AddAll xs (_Accum.Reset s0) in
  (xs <> [] ->
     _Accum.Mean acc = mean xs
     /\ _Accum.Stdev acc = sqrt (sqdev (mean xs) xs / INR (length xs))
     /\ 0 <= _Accum.q acc / IZR (_Accum.n acc)
     /\ _Accum.Peak acc = max_abs xs)
  /\ (xs = [] -> _Accum.Stdev acc = 0)
  /\ _Accum.Mean (_Accum.Reset s0) = 0
  /\ _Accum.Stdev (_Accum.Reset s0) = 0
  /\ _Accum.Peak (_Accum.Reset s0) = 0.
Proof.
  intros acc.
  assert (W : welford xs acc).
  { apply (welford_AddAll xs (xs := [])), welford_Reset. }
  repeat split; try reflexivity.
  - apply welford_Mean; assumption.
  - apply welford_Stdev; assumption.
  - rewrite (welford_q H W). destruct W as [Hn _ _ _]. rewrite Hn.
    rewrite <- INR_IZR_INZ. apply Rmult_le_pos; [apply sqdev_nonneg|].
    left. apply Rinv_0_lt_compat, lt_0_INR.
    destruct xs; [congruence | simpl; lia].
  - apply W.
  - intros ->. reflexivity.
Qed.

Lemma accum_statistics_witness :
  _Accum.Mean (_Accum.AddAll [1; 3] (_Accum.Reset (_Accum.mk 7 7 7 7)))
  = mean [1; 3].
Proof.
  destruct (accum_statistics (_Accum.mk 7 7 7 7) [1; 3]) as [H _].
  apply H. discriminate.
Defined.

End AccumFacts.

(** ** Properties of the line framer *)

Section FramerFacts.

(** The slice not yet moved to the buffer can be moved at once. *)
Lemma scan_seg (s seg : bytes) (lines : list bytes) (buf : bytes) :
  _Conn.scan s seg lines buf = _Conn.scan s [] lines (buf ++ seg).
Proof.
  revert seg lines buf.
  induction s as [|c s IH]; intros seg lines buf; cbn [_Conn.scan].
  - rewrite app_nil_r. reflexivity.
  - rewrite app_nil_r. destruct (_Conn.is_terminator c); [reflexivity|].
    rewrite IH, (IH ([] ++ [c])), <- app_assoc. reflexivity.
Qed.

Lemma scan_app (s1 s2 seg : bytes) (lines : list bytes) (buf : bytes) :
  _Conn.scan (s1 ++ s2) seg lines buf
  = _Conn.scan s2 [] (fst (_Conn.scan s1 seg lines buf))
      (snd (_Conn.scan s1 seg lines buf)).
Proof.
  revert seg lines buf.
  induction s1 as [|c s1 IH]; intros seg lines buf; cbn [_Conn.scan app].
  - cbn [fst snd]. apply scan_seg.
  - destruct (_Conn.is_terminator c); [|apply IH].
    destruct (buf ++ seg); apply IH.
Qed.

Lemma frame_lines_app (s : bytes) (cur : bytes) :
  forall lines0 : list bytes,
    _Conn.scan s [] lines0 cur
    = (lines0 ++ fst (frame s cur), snd (frame s cur)).
Proof.
  revert cur. induction s as [|c s IH]; intros cur lines0.
  - cbn. rewrite !app_nil_r. reflexivity.
  - cbn [_Conn.scan frame]. rewrite app_nil_r.
    destruct (_Conn.is_terminator c).
    + destruct (frame s []) as [ls r] eqn:E.
      destruct cur as [|b bs]; rewrite IH, E; cbn [fst snd].
      * reflexivity.
      * rewrite <- app_assoc. reflexivity.
    + rewrite scan_seg. apply IH.
Qed.

Lemma frame_app (s1 s2 cur : bytes) :
  frame (s1 ++ s2) cur
  = (fst (frame s1 cur) ++ fst (frame s2 (snd (frame s1 cur))),
     snd (frame s2 (snd (frame s1 cur)))).
Proof.
  revert cur. induction s1 as [|c s1 IH]; intros cur; cbn [frame app].
  - cbn [fst snd app]. destruct (frame s2 cur). reflexivity.
  - destruct (_Conn.is_terminator c); [|apply IH].
    rewrite IH. destruct (frame s1 []) as [ls r]. cbn [fst snd].
    destruct cur; reflexivity.
Qed.

Lemma frame_nonempty (s cur : bytes) :
  Forall (fun l => l <> []) (fst (frame s cur)).
Proof.
  revert cur. induction s as [|c s IH]; intros cur; cbn [frame].
  - constructor.
  - destruct (_Conn.is_terminator c); [|apply IH].
    specialize (IH []). destruct (frame s []) as [ls r]. cbn [fst] in *.
    destruct cur; [exact IH | constructor; [discriminate | exact IH]].
Qed.

Lemma feed_chunks (chunks : list bytes) (st : list bytes * bytes) :
  fold_left feed chunks st = feed st (concat chunks).
Proof.
  revert st. induction chunks as [|s chunks IH]; intros [lines buf].
  - cbn. rewrite app_nil_r. reflexivity.
  - cbn [fold_left concat]. rewrite IH. unfold feed at 1 3.
    rewrite scan_app. reflexivity.
Qed.

Lemma ReadLine_loop_pending (inbox : list bytes) :
  forall (lines : list bytes) (buf : bytes) (terminate : bool),
    match pending inbox lines buf terminate with
    | [] =>
        forall l, fst (_Conn.ReadLine_loop inbox lines buf terminate)
                  <> _Conn.Line l
    | l :: rest =>
        exists inbox1 lines1 buf1,
          _Conn.ReadLine_loop inbox lines buf terminate
          = (_Conn.Line l, (inbox1, lines1, buf1))
          /\ pending inbox1 lines1 buf1 terminate = rest
    end.
Proof.
  induction inbox as [|s inbox IH]; intros lines buf terminate.
  - destruct lines as [|l lines]; destruct terminate; cbn; try discriminate.
    + eexists _, _, _. split; reflexivity.
    + eexists _, _, _. split; [reflexivity|]. cbn.
      rewrite app_nil_r. reflexivity.
  - destruct lines as [|l lines].
    + destruct terminate; [cbn; discriminate|].
      cbn [_Conn.ReadLine_loop]. rewrite frame_lines_app. cbn [app].
      specialize (IH (fst (frame s buf)) (snd (frame s buf)) false).
      unfold pending in *. cbn [concat app]. rewrite frame_app. cbn [fst].
      exact IH.
    + unfold pending. destruct terminate; cbn.
      * eexists _, _, _. split; reflexivity.
      * eexists _, _, _. split; reflexivity.
Qed.

Lemma ReadLines_pending (k : nat) :
  forall (inbox : list bytes) (c : _Conn.t) (sk : Socket.t),
    fst (_Conn.ReadLines k (conn_reading inbox c sk))
    = firstn k (pending inbox (_Conn.lines c) (_Conn.buf c)
                  (_Conn.terminate c)).
Proof.
  induction k as [|k IH]; intros inbox c sk; [reflexivity|].
  cbn [_Conn.ReadLines]. unfold _Conn.ReadLine.
  cbn [conn_reading _Conn.sock _Conn.lines _Conn.buf _Conn.terminate
       Socket.inbox Socket.outbox Socket.send_plan Socket.send_count].
  pose proof (ReadLine_loop_pending inbox (_Conn.lines c) (_Conn.buf c)
                (_Conn.terminate c)) as H.
  destruct (pending inbox (_Conn.lines c) (_Conn.buf c) (_Conn.terminate c))
    as [|l rest].
  - destruct (_Conn.ReadLine_loop inbox (_Conn.lines c) (_Conn.buf c)
                (_Conn.terminate c)) as [[l| |] [[i1 l1] b1]];
      cbn [fst] in *; try reflexivity.
    exfalso. apply (H l). reflexivity.
  - destruct H as (i1 & l1 & b1 & -> & Hrest).
    specialize (IH i1 (_Conn.mk l1 b1 None (_Conn.terminate c)) sk).
    cbn [_Conn.lines _Conn.buf _Conn.terminate] in IH.
    unfold conn_reading in IH. cbn [_Conn.lines _Conn.buf _Conn.terminate] in IH.
    destruct (_Conn.ReadLines k _) as [ls c2]. cbn [fst firstn] in *.
    rewrite IH, Hrest. reflexivity.
Qed.

Lemma is_terminator_closes_line (c : byte) :
  _Conn.is_terminator c = closes_line c.
Proof. destruct c; reflexivity. Qed.

Lemma frame_framing_rule (s : bytes) :
  forall cur : bytes, frame s cur = framing_rule s cur.
Proof.
  induction s as [|c s IH]; intros cur; cbn [frame framing_rule].
  - reflexivity.
  - rewrite is_terminator_closes_line.
    destruct (closes_line c); [rewrite IH; reflexivity | apply IH].
Qed.

Lemma framing_rule_no_terminator (s : bytes) :
  forall cur : bytes,
    Forall (fun c => closes_line c = false) cur ->
    Forall (Forall (fun c => closes_line c = false))
      (fst (framing_rule s cur))
    /\ Forall (fun c => closes_line c = false) (snd (framing_rule s cur)).
Proof.
  induction s as [|c s IH]; intros cur Hcur; cbn [framing_rule].
  - split; [constructor | exact Hcur].
  - destruct (closes_line c) eqn:Hc.
    + destruct (IH [] (Forall_nil _)) as [Hl Hr].
      destruct (framing_rule s []) as [ls r]. cbn [fst snd] in *.
      split; [|exact Hr].
      destruct cur; [exact Hl | constructor; [exact Hcur | exact Hl]].
    + apply IH. apply Forall_app. split; [exact Hcur|].
      constructor; [exact Hc | constructor].
Qed.

(** C5. However a byte string is cut into the chunks that successive reads
    return, the framer ends in the state it reaches on the whole string:
    the same queue of lines and the same residue.  The lines added are
    those of the framing rule, stated over the bytes 13 and 10: each of
    them closes the current line, which is emitted when nonempty, and the
    rest carries over; no line added is empty or holds one of the two
    bytes.  The calls of [ReadLine] return these lines: the first [k]
    calls return the first [k] of the lines queued before and the lines
    added (of the lines queued alone once the connection is told to
    terminate), the same however the string is cut. *)
Theorem framer_chunking (chunks : list bytes) (c : _Conn.t) (sk : Socket.t) :
  let st := (_Conn.lines c, _Conn.buf c) in
  let whole := concat chunks in
  let added := fst (framing_rule whole (_Conn.buf c)) in
  let residue := snd (framing_rule whole (_Conn.buf c)) in
  fold_left feed chunks st = feed st whole
  /\ feed st whole = (_Conn.lines c ++ added, residue)
  /\ Forall (fun l => l <> []) added
  /\ (Forall (fun b => closes_line b = false) (_Conn.buf c) ->
      Forall (Forall (fun b => closes_line b = false)) added
      /\ Forall (fun b => closes_line b = false) residue)
  /\ (forall k,
        fst (_Conn.ReadLines k (conn_reading chunks c sk))
        = firstn k (if _Conn.terminate c then _Conn.lines c
                    else _Conn.lines c ++ added))
  /\ (forall k,
        fst (_Conn.ReadLines k (conn_reading chunks c sk))
        = fst (_Conn.ReadLines k (conn_reading [whole] c sk))).
Proof.
  intros st whole added residue. subst added residue.
  rewrite <- frame_framing_rule.
  split; [apply feed_chunks|]. split; [apply frame_lines_app|].
  split; [apply frame_nonempty|]. split; [|split].
  - rewrite frame_framing_rule. apply framing_rule_no_terminator.
  - intros k. rewrite ReadLines_pending. unfold pending.
    destruct (_Conn.terminate c); reflexivity.
  - intros k. rewrite !ReadLines_pending. unfold pending.
    cbn [concat]. rewrite app_nil_r. reflexivity.
Qed.

End FramerFacts.

Lemma framer_chunking_witness :
  fst (_Conn.ReadLines 3
         (conn_reading [[x61; x62; x0d]; [x0a; x0a; x63]; [x64; x0d; x65]]
            (_Conn.mk [] [] None false) (Socket.mk [] [] (fun _ => Fails) 0)))
  = [[x61; x62]; [x63; x64]].
Proof.
  exact (proj1 (proj2 (proj2 (proj2 (proj2
    (@framer_chunking [[x61; x62; x0d]; [x0a; x0a; x63]; [x64; x0d; x65]]
       (_Conn.mk [] [] None false) (Socket.mk [] [] (fun _ => Fails) 0))))))
    3).
Defined.

(** ** Properties of the line writer *)

Section WriterFacts.

Lemma encode_app (s1 s2 : str) :
  encode (s1 ++ s2)%string = encode s1 ++ encode s2.
Proof.
  induction s1 as [|c s1 IH]; cbn [String.append encode]; [reflexivity|].
  rewrite IH, app_assoc. reflexivity.
Qed.

Lemma encode_CRLF : encode CRLF = [x0d; x0a].
Proof. reflexivity. Qed.

Lemma send_spec (data : bytes) (sk sk1 : Socket.t) (r : option nat) :
  Socket.send data sk = (r, sk1) ->
  Socket.inbox sk1 = Socket.inbox sk
  /\ Socket.send_plan sk1 = Socket.send_plan sk
  /\ Socket.send_count sk1 = S (Socket.send_count sk)
  /\ match r with
     | Some m =>
         m <= length data
         /\ Socket.outbox sk1 = Socket.outbox sk ++ firstn m data
         /\ exists k, Socket.send_plan sk (Socket.send_count sk) = Accepts k
                      /\ m = Nat.min k (length data)
     | None =>
         Socket.outbox sk1 = Socket.outbox sk
         /\ Socket.send_plan sk (Socket.send_count sk) = Fails
     end.
Proof.
  unfold Socket.send.
  destruct (Socket.send_plan sk (Socket.send_count sk)) as [k|];
    intros H; inversion H; subst; cbn; repeat split; try lia.
  exists k. split; reflexivity.
Qed.

(** Whatever the socket does, the loop returns or raises, and what it has
    written by then is a prefix of what was left to write. *)
Lemma WriteLine_loop_prefix (b : bytes) (sk : Socket.t) (totsent : nat) :
  totsent <= length b ->
  exists m,
    Socket.outbox (snd (_Conn.WriteLine_loop b sk totsent))
    = Socket.outbox sk ++ firstn m (skipn totsent b)
    /\ Socket.inbox (snd (_Conn.WriteLine_loop b sk totsent)) = Socket.inbox sk
    /\ (fst (_Conn.WriteLine_loop b sk totsent) = Ok tt ->
        m = length b - totsent)
    /\ fst (_Conn.WriteLine_loop b sk totsent) <> Blocks.
Proof.
  funelim (_Conn.WriteLine_loop b sk totsent); intros Hle;
    try (apply send_spec in Heq; destruct Heq as (Hin & Hplan & Hcnt & Hr)).
  - exists 0. cbn. rewrite app_nil_r. repeat split; try discriminate. lia.
  - destruct Hr as (_ & Hout & _).
    exists 0. cbn [fst snd]. rewrite Hout, Hin. repeat split; discriminate.
  - destruct Hr as (Hm & Hout & _).
    assert (Hlen : length (skipn totsent b) = length b - totsent)
      by apply length_skipn.
    destruct H as (m & Hout1 & Hin1 & Hok & Hnb); [lia|].
    exists (S sent + m). rewrite Hout1, Hin1, Hout, Hin. repeat split.
    + rewrite <- app_assoc. f_equal.
      rewrite <- (firstn_skipn (S sent) (skipn totsent b)) at 2.
      rewrite firstn_app, firstn_firstn.
      replace (Nat.min (S sent + m) (S sent)) with (S sent) by lia.
      rewrite length_firstn, Hlen.
      replace (S sent + m - Nat.min (S sent) (length b - totsent)) with m
        by lia.
      rewrite skipn_skipn. f_equal. f_equal. f_equal. lia.
    + intros Hr. specialize (Hok Hr). lia.
    + exact Hnb.
  - destruct Hr as (Hout & _).
    exists 0. cbn [fst snd]. rewrite Hout, Hin, firstn_O, app_nil_r.
    repeat split; discriminate.
Qed.

(** With a socket that keeps taking bytes the loop returns. *)
Lemma WriteLine_loop_returns (b : bytes) (sk : Socket.t) (totsent : nat) :
  accepting (Socket.send_plan sk) (Socket.send_count sk) ->
  fst (_Conn.WriteLine_loop b sk totsent) = Ok tt
  /\ Socket.send_plan (snd (_Conn.WriteLine_loop b sk totsent))
     = Socket.send_plan sk
  /\ Socket.send_count sk
     <= Socket.send_count (snd (_Conn.WriteLine_loop b sk totsent)).
Proof.
  funelim (_Conn.WriteLine_loop b sk totsent); intros Hacc;
    try (apply send_spec in Heq; destruct Heq as (Hin & Hplan & Hcnt & Hr)).
  - cbn. auto.
  - exfalso. destruct Hr as (_ & _ & k & Hk & Hmin).
    destruct (Hacc _ (le_n _)) as [k' Hk'].
    assert (length (skipn totsent b) = length b - totsent)
      by apply length_skipn.
    rewrite Hk in Hk'. inversion Hk'. lia.
  - destruct H as (Hok & Hplan1 & Hcnt1).
    { rewrite Hplan, Hcnt. intros i Hi. apply Hacc. lia. }
    repeat split; [exact Hok | congruence | lia].
  - exfalso. destruct Hr as (_ & Hf).
    destruct (Hacc _ (le_n _)) as [k' Hk']. congruence.
Qed.

End WriterFacts.

(** ** Properties of the reader *)

Section Preservation.

Variable R : Guider.t -> Guider.t -> Prop.
Hypothesis R_refl : forall g, R g g.
Hypothesis R_trans : forall g1 g2 g3, R g1 g2 -> R g2 g3 -> R g1 g3.

Lemma preserves_ret {A : Type} (v : A) : preserves R (Guider.ret v).
Proof. intros g. apply R_refl. Qed.

Lemma preserves_raise {A : Type} (e : exn) : preserves R (@Guider.raise A e).
Proof. intros g. apply R_refl. Qed.

Lemma preserves_lift {A : Type} (r : result A) : preserves R (Guider.lift r).
Proof. intros g. apply R_refl. Qed.

Lemma preserves_gets {A : Type} (f : Guider.t -> A) :
  preserves R (Guider.gets f).
Proof. intros g. apply R_refl. Qed.

Lemma preserves_modify (f : Guider.t -> Guider.t) :
  (forall g, R g (f g)) -> preserves R (Guider.modify f).
Proof. intros H g. apply H. Qed.

Lemma preserves_bind {A B : Type} (m : Guider.M A) (k : A -> Guider.M B) :
  preserves R m -> (forall v, preserves R (k v)) ->
  preserves R (Guider.bind m k).
Proof.
  intros Hm Hk g. unfold Guider.bind. specialize (Hm g).
  destruct (m g) as [[v| e |] g1]; cbn [snd] in *; try exact Hm.
  eapply R_trans; [exact Hm | apply Hk].
Qed.

End Preservation.

Ltac preserve_step Hr Ht :=
  lazymatch goal with
  | |- preserves _ (Guider.ret _) => apply (preserves_ret _ Hr)
  | |- preserves _ (Guider.raise _) => apply (preserves_raise _ Hr)
  | |- preserves _ (Guider.lift _) => apply (preserves_lift _ Hr)
  | |- preserves _ (Guider.gets _) => apply (preserves_gets _ Hr)
  | |- preserves _ (Guider.bind _ _) =>
      apply (preserves_bind Ht); [| intros ?]
  | |- preserves _ (Guider.modify _) => apply preserves_modify; intros ?
  | |- preserves _ (if ?b then _ else _) => destruct b
  | |- preserves _ (match ?x with _ => _ end) => destruct x
  end.

Lemma preserves_bind_lift {A B : Type} (R : Guider.t -> Guider.t -> Prop)
  (r : result A) (k : A -> Guider.M B) :
  (forall g, R g g) ->
  (forall v, r = Ok v -> preserves R (k v)) ->
  preserves R (Guider.bind (Guider.lift r) k).
Proof.
  intros Hr Hk g. unfold Guider.bind, Guider.lift.
  destruct r as [v| e |]; cbn [snd]; try apply Hr.
  apply (Hk v eq_refl).
Qed.

Section ReaderFacts.

Lemma same_link_refl (g : Guider.t) : same_link g g.
Proof. repeat split. Qed.

Lemma same_link_trans (g1 g2 g3 : Guider.t) :
  same_link g1 g2 -> same_link g2 g3 -> same_link g1 g3.
Proof.
  unfold same_link. intros (?&?&?) (?&?&?). repeat split; congruence.
Qed.

Lemma handle_event_same_link (ev : json) :
  preserves same_link (Guider._handle_event ev).
Proof.
  unfold Guider._handle_event, Guider.reset_accums, Guider.snapshot.
  repeat preserve_step same_link_refl same_link_trans; repeat split.
Qed.

Lemma worker_body_same_link (line : option json) :
  preserves same_link (Guider._worker_body line).
Proof.
  unfold Guider._worker_body.
  repeat preserve_step same_link_refl same_link_trans;
    try apply handle_event_same_link; repeat split.
Qed.

Lemma worker_same_link (lines : list (option json)) :
  preserves same_link (Guider._worker lines).
Proof.
  induction lines as [|line lines IH]; cbn [Guider._worker].
  - apply (preserves_ret _ same_link_refl).
  - apply (preserves_bind same_link_trans);
      [apply (preserves_gets _ same_link_refl)|].
    intros [|]; [apply (preserves_ret _ same_link_refl)|].
    apply (preserves_bind same_link_trans); [|intros _; exact IH].
    apply worker_body_same_link.
Qed.

(** While the session is not told to terminate the reader takes the next
    line. *)
Lemma worker_running (line : option json) (lines : list (option json))
  (g : Guider.t) :
  Guider.terminate g = false ->
  Guider._worker (line :: lines) g
  = Guider.bind (Guider._worker_body line) (fun _ => Guider._worker lines) g.
Proof.
  intros Hrun. cbn [Guider._worker].
  unfold Guider.bind at 1, Guider.gets. rewrite Hrun. reflexivity.
Qed.

End ReaderFacts.

(** ** Properties of remote calls *)

Section CallFacts.

Context `{FloatRepr}.

Lemma WriteLine_spec (s : str) (c : _Conn.t) (sk : Socket.t) :
  _Conn.sock c = Some sk ->
  exists r sk1 m,
    _Conn.WriteLine s c
    = Some (r, _Conn.mk (_Conn.lines c) (_Conn.buf c) (Some sk1)
                 (_Conn.terminate c))
    /\ r <> Blocks
    /\ Socket.outbox sk1 = Socket.outbox sk ++ firstn m (encode s)
    /\ Socket.inbox sk1 = Socket.inbox sk
    /\ (r = Ok tt -> Socket.outbox sk1 = Socket.outbox sk ++ encode s)
    /\ (accepting (Socket.send_plan sk) (Socket.send_count sk) ->
        r = Ok tt
        /\ accepting (Socket.send_plan sk1) (Socket.send_count sk1)).
Proof.
  intros Hsk. unfold _Conn.WriteLine. rewrite Hsk.
  destruct (WriteLine_loop_prefix (encode s) sk (totsent := 0))
    as (m & Hout & Hin & Hok & Hnb); [lia|].
  pose proof (WriteLine_loop_returns (encode s) sk 0) as Hret.
  destruct (_Conn.WriteLine_loop (encode s) sk 0) as [r sk1].
  cbn [fst snd skipn] in *.
  exists r, sk1, m.
  split; [reflexivity|]. split; [exact Hnb|]. split; [exact Hout|].
  split; [exact Hin|]. split.
  - intros Hr. rewrite Hout, (Hok Hr), Nat.sub_0_r, firstn_all. reflexivity.
  - intros Hacc. destruct (Hret Hacc) as (Hr & Hplan & Hcnt).
    split; [exact Hr|]. rewrite Hplan.
    intros i Hi. apply Hacc. lia.
Qed.

Lemma receive_same_link (during : list (option json)) :
  preserves same_link (Guider.receive during).
Proof.
  unfold Guider.receive.
  apply (preserves_bind same_link_trans).
  - intros g. unfold Guider.await_response.
    pose proof (worker_same_link during g) as Hw.
    destruct (negb (Json.truthy (Guider.response (snd (Guider._worker during g)))));
      cbn [snd]; [exact Hw|].
    eapply same_link_trans; [exact Hw | repeat split].
  - intros response.
    repeat preserve_step same_link_refl same_link_trans.
Qed.

(** On a socket that keeps taking bytes, [Call] writes the request and its
    terminator and goes on to wait for the response. *)
Lemma Call_online (method : str) (params : json)
  (during : list (option json)) (g : Guider.t) (c : _Conn.t) (sk : Socket.t) :
  Guider.conn g = Some c -> _Conn.sock c = Some sk ->
  accepting (Socket.send_plan sk) (Socket.send_count sk) ->
  exists sk1,
    Socket.outbox sk1
    = Socket.outbox sk ++ encode (Guider._make_jsonrpc method params)
        ++ [x0d; x0a]
    /\ accepting (Socket.send_plan sk1) (Socket.send_count sk1)
    /\ Guider.Call method params during g
       = Guider.receive during
           (Guider.set_conn
              (Some (_Conn.mk (_Conn.lines c) (_Conn.buf c) (Some sk1)
                       (_Conn.terminate c))) g).
Proof.
  intros Hc Hsk Hacc.
  destruct (WriteLine_spec (Guider._make_jsonrpc method params ++ CRLF)%string
              c Hsk)
    as (r & sk1 & m & HW & _ & _ & _ & Hok & Hret).
  destruct (Hret Hacc) as [-> Hacc1]. exists sk1. repeat split.
  - rewrite (Hok eq_refl), encode_app. reflexivity.
  - exact Hacc1.
  - unfold Guider.Call, Guider.bind at 1, Guider.gets. rewrite Hc.
    cbv zeta. rewrite HW. reflexivity.
Qed.

Lemma written_receive (during : list (option json)) (g : Guider.t) :
  written (snd (Guider.receive during g)) = written g.
Proof.
  destruct (receive_same_link during g) as (Hc & _). unfold written.
  rewrite Hc. reflexivity.
Qed.

Lemma Call_online_written (method : str) (params : json)
  (during : list (option json)) (g : Guider.t) :
  online g ->
  written (snd (Guider.Call method params during g))
  = written g ++ encode (Guider._make_jsonrpc method params) ++ [x0d; x0a]
  /\ online (snd (Guider.Call method params during g)).
Proof.
  intros (c & sk & Hc & Hsk & Hacc).
  destruct (Call_online method params during g Hc Hsk Hacc)
    as (sk1 & Hout & Hacc1 & ->).
  split.
  - rewrite written_receive. unfold written at 1 2. rewrite Hc, Hsk.
    cbn. exact Hout.
  - destruct (receive_same_link during
                (Guider.set_conn
                   (Some (_Conn.mk (_Conn.lines c) (_Conn.buf c) (Some sk1)
                            (_Conn.terminate c))) g)) as (Hc1 & _).
    cbn in Hc1. eexists _, sk1. split; [exact Hc1|]. split; [reflexivity|].
    exact Hacc1.
Qed.

(** C7. On an open connection [WriteLine(s)] never hangs and what it has
    written when it returns or raises is a prefix of the bytes of [s]; when
    it returns, and it does when the socket takes at least one byte at
    every [send], it has written the bytes of [s], all of them and nothing
    after them.  The terminator is not its work: [Call] appends it to the
    request before it calls [WriteLine], so that a call writes the request
    followed by the two bytes CR LF. *)
Theorem WriteLine_writes (c : _Conn.t) (sk : Socket.t) :
  _Conn.sock c = Some sk ->
  (forall s : str,
     exists r sk1 m,
       _Conn.WriteLine s c
       = Some (r, _Conn.mk (_Conn.lines c) (_Conn.buf c) (Some sk1)
                    (_Conn.terminate c))
       /\ r <> Blocks
       /\ Socket.outbox sk1 = Socket.outbox sk ++ firstn m (encode s)
       /\ (r = Ok tt -> Socket.outbox sk1 = Socket.outbox sk ++ encode s)
       /\ (accepting (Socket.send_plan sk) (Socket.send_count sk) ->
           r = Ok tt))
  /\ (accepting (Socket.send_plan sk) (Socket.send_count sk) ->
      forall method params during g,
        Guider.conn g = Some c ->
        written (snd (Guider.Call method params during g))
        = Socket.outbox sk ++ encode (Guider._make_jsonrpc method params)
            ++ [x0d; x0a]).
Proof.
  intros Hsk. split.
  - intros s.
    destruct (WriteLine_spec s c Hsk)
      as (r & sk1 & m & HW & Hnb & Hout & _ & Hok & Hret).
    exists r, sk1, m. repeat split; try assumption.
    intros Hacc. apply Hret, Hacc.
  - intros Hacc method params during g Hc.
    assert (Hon : online g) by (exists c, sk; auto).
    destruct (Call_online_written method params during Hon) as [-> _].
    unfold written. rewrite Hc, Hsk. reflexivity.
Qed.

End CallFacts.

Lemma WriteLine_writes_witness :
  exists sk1,
    _Conn.WriteLine "ab"%string
      (_Conn.mk [] [] (Some (socket_taking 1)) false)
    = Some (Ok tt, _Conn.mk [] [] (Some sk1) false)
    /\ Socket.outbox sk1 = encode "ab"%string.
Proof.
  destruct (proj1 (@WriteLine_writes any_float_repr
                     (_Conn.mk [] [] (Some (socket_taking 1)) false)
                     (socket_taking 1) eq_refl) "ab"%string)
    as (r & sk1 & m & HW & _ & _ & Hok & Hacc).
  assert (Hr : r = Ok tt).
  { apply Hacc. intros i _. exists 0. reflexivity. }
  subst r. exists sk1. split; [exact HW | exact (Hok eq_refl)].
Defined.

(** [WriteLine("a")] on an open connection writes the one byte of its
    argument: no CR LF follows it. *)
Lemma WriteLine_adds_no_terminator :
  exists sk1,
    _Conn.WriteLine "a"%string (_Conn.mk [] [] (Some (socket_taking 4096)) false)
    = Some (Ok tt, _Conn.mk [] [] (Some sk1) false)
    /\ Socket.outbox sk1 = encode "a"%string
    /\ Socket.outbox sk1 <> encode "a"%string ++ [x0d; x0a].
Proof.
  eexists. split; [vm_compute; reflexivity|]. split; [reflexivity|].
  discriminate.
Qed.

(** ** Properties of the request builder *)

Section RequestFacts.

Context `{FloatRepr}.

Local Open Scope string_scope.

Lemma str_app_assoc (s1 s2 s3 : str) : (s1 ++ s2) ++ s3 = s1 ++ (s2 ++ s3).
Proof.
  induction s1 as [|c s1 IH]; cbn [String.append]; [reflexivity|].
  rewrite IH. reflexivity.
Qed.

(** C6. The request for method [m] and parameters [p] is the serialized
    dictionary with [method] equal to [m] and [id] equal to 1, in this
    order, followed by [params] unless [p] is [None]: [p] itself when it is
    a list or a dictionary, and the one-element list of [p] otherwise.  The
    text is given too. *)
Theorem make_jsonrpc_params (method : str) (params : json) :
  let req := Guider._make_jsonrpc_req method params in
  Guider._make_jsonrpc method params = Json.dumps (JObj req)
  /\ req = ([("method", JStr method); ("id", JInt 1)]
            ++ match params with
               | JNull => []
               | JList _ | JObj _ => [("params", params)]
               | _ => [("params", JList [params])]
               end)%list
  /\ Guider._make_jsonrpc method params
     = "{" ++ Json.quote "method" ++ ":" ++ Json.quote method ++ ","
           ++ Json.quote "id" ++ ":" ++ "1"
           ++ match params with
              | JNull => EmptyString
              | JList _ | JObj _ =>
                  "," ++ Json.quote "params" ++ ":" ++ Json.dumps params
              | _ =>
                  "," ++ Json.quote "params" ++ ":" ++ "["
                      ++ Json.dumps params ++ "]"
              end
           ++ "}".
Proof.
  intros req. split; [reflexivity|]. split.
  - subst req. destruct params; reflexivity.
  - unfold Guider._make_jsonrpc. fold req.
    replace req with ([("method", JStr method); ("id", JInt 1)]
              ++ match params with
                 | JNull => []
                 | JList _ | JObj _ => [("params", params)]
                 | _ => [("params", JList [params])]
                 end)%list
      by (subst req; destruct params; reflexivity).
    destruct params; cbn -[Json.quote Json.dumps];
      cbn [Json.dumps map join];
      change (Json.int_repr 1) with "1";
      repeat first [rewrite str_app_assoc | progress cbn [String.append]];
      reflexivity.
Qed.

End RequestFacts.

Section RequestExamples.

Local Open Scope string_scope.

Example make_jsonrpc_none :
  @Guider._make_jsonrpc any_float_repr "m" JNull = dq "{'method':'m','id':1}".
Proof. reflexivity. Qed.

Example make_jsonrpc_scalar :
  @Guider._make_jsonrpc any_float_repr "m" (JInt 7)
  = dq "{'method':'m','id':1,'params':[7]}".
Proof. reflexivity. Qed.

Example make_jsonrpc_list :
  @Guider._make_jsonrpc any_float_repr "m" (JList [JInt 1; JInt 2])
  = dq "{'method':'m','id':1,'params':[1,2]}".
Proof. reflexivity. Qed.

Example make_jsonrpc_object :
  @Guider._make_jsonrpc any_float_repr "m" (JObj [("a", JInt 1)])
  = dq "{'method':'m','id':1,'params':{'a':1}}".
Proof. reflexivity. Qed.

End RequestExamples.

(** ** Properties of the settle slot *)

Ltac known_event Hev :=
  unfold Guider._handle_event;
  unfold Guider.bind at 1; unfold Guider.lift at 1; rewrite Hev;
  cbn [Json.is_str String.eqb Ascii.eqb Bool.eqb orb];
  unfold Guider.reset_accums, Guider.snapshot, Guider.bind, Guider.lift,
    Guider.gets, Guider.modify.

Section SettleFacts.

Local Open Scope string_scope.

Lemma CheckConnected_connected (g : Guider.t) :
  connected g -> Guider._CheckConnected g = (Ok tt, g).
Proof.
  intros (c & Hc & Hopen).
  unfold Guider._CheckConnected, Guider.bind, Guider.gets.
  rewrite Hc, Hopen. reflexivity.
Qed.

Lemma online_connected (g : Guider.t) : online g -> connected g.
Proof.
  intros (c & sk & Hc & Hsk & _). exists c. split; [exact Hc|].
  unfold _Conn.IsConnected. rewrite Hsk. reflexivity.
Qed.

(** What the reader stores for a [Settling] event. *)
Lemma handle_Settling (ev : json) (g g1 : Guider.t) :
  Json.subscript "Event" ev = Ok (JStr "Settling") ->
  Guider._handle_event ev g = (Ok tt, g1) ->
  exists d t st,
    Json.subscript "Distance" ev = Ok d /\ Json.subscript "Time" ev = Ok t
    /\ Json.subscript "SettleTime" ev = Ok st
    /\ g1 = Guider.set_Settle
              (Some (SettleProgress.mk false d (Guider.settle_px g) t st
                       (JInt 0) JNull)) g.
Proof.
  intros Hev. known_event Hev.
  destruct (Json.subscript "Distance" ev) as [d| |]; try discriminate.
  destruct (Json.subscript "Time" ev) as [t| |]; try discriminate.
  destruct (Json.subscript "SettleTime" ev) as [st| |]; try discriminate.
  intros [= <-]. exists d, t, st. auto.
Qed.

(** What the reader stores for a [SettleDone] event. *)
Lemma handle_SettleDone (ev : json) (g g1 : Guider.t) :
  Json.subscript "Event" ev = Ok (JStr "SettleDone") ->
  Guider._handle_event ev g = (Ok tt, g1) ->
  exists status err,
    Json.subscript "Status" ev = Ok status
    /\ Json.get_or_none "Error" ev = Ok err
    /\ Guider.Settle g1
       = Some (SettleProgress.mk true (JInt 0) (JInt 0) (JInt 0) (JInt 0)
                 status err)
    /\ Guider.accum_active g1 = true
    /\ Guider.accum_ra g1 = _Accum.mk 0 0 0 0
    /\ Guider.accum_dec g1 = _Accum.mk 0 0 0 0
    /\ Guider.Stats g1 = GuideStats.mk 0 0 0 0 0
    /\ same_link g g1.
Proof.
  intros Hev. known_event Hev.
  destruct (Json.subscript "Status" ev) as [status| |]; try discriminate.
  destruct (Json.get_or_none "Error" ev) as [err| |]; try discriminate.
  intros [= <-]. exists status, err. cbn. repeat split.
Qed.

Lemma CheckConnected_disconnected (g : Guider.t) :
  ~ connected g ->
  exists e,
    Guider._CheckConnected g = (Raise e, g)
    /\ (e = NotConnectedError
        \/ e = GuiderError (JStr "PHD2 Server disconnected")).
Proof.
  intros Hoff. unfold Guider._CheckConnected, Guider.bind, Guider.gets.
  destruct (Guider.conn g) as [c|] eqn:Hc; [|eexists; split; [reflexivity|]].
  - destruct (_Conn.IsConnected c) eqn:Hopen.
    + exfalso. apply Hoff. exists c. split; assumption.
    + eexists. split; [reflexivity|]. right. reflexivity.
  - left. reflexivity.
Qed.

(** An operation that checks the connection first does nothing else on a
    session that is not connected. *)
Lemma checked_disconnected {A : Type} (k : unit -> Guider.M A) (g : Guider.t) :
  ~ connected g ->
  snd (Guider.bind Guider._CheckConnected k g) = g
  /\ exists e,
       fst (Guider.bind Guider._CheckConnected k g) = Raise e
       /\ (e = NotConnectedError
           \/ e = GuiderError (JStr "PHD2 Server disconnected")).
Proof.
  intros Hoff. destruct (CheckConnected_disconnected Hoff) as (e & He & Hk).
  unfold Guider.bind. rewrite He. split; [reflexivity|].
  exists e. split; [reflexivity | exact Hk].
Qed.

Lemma checked_disconnected_raises {A : Type} (k : unit -> Guider.M A)
  (g : Guider.t) :
  ~ connected g ->
  snd (Guider.bind Guider._CheckConnected k g) = g
  /\ exists e, fst (Guider.bind Guider._CheckConnected k g) = Raise e.
Proof.
  intros Hoff. destruct (checked_disconnected k Hoff) as (Hs & e & He & _).
  split; [exact Hs | exists e; exact He].
Qed.

(** C3. [CheckSettling] checks the connection first: on a session that is
    not connected it raises the connection error and leaves the session as
    it was.  On a connected session it raises "not settling" when the
    settle slot is empty.  When the stored progress is done it returns a
    done result with the stored status and error and empties the slot, so
    that the next call, with nothing new stored, raises "not settling".
    When the stored progress is not done it returns its distance, time and
    settle time together with the session's [settle_px] and leaves the slot
    as it is; after a [Settling] event these are the values of the event. *)
Theorem CheckSettling_contract (g : Guider.t) :
  (~ connected g ->
   snd (Guider.CheckSettling g) = g
   /\ exists e,
        fst (Guider.CheckSettling g) = Raise e
        /\ (e = NotConnectedError
            \/ e = GuiderError (JStr "PHD2 Server disconnected")))
  /\ (connected g ->
      match Guider.Settle g with
      | None =>
          Guider.CheckSettling g
          = (Raise (GuiderError (JStr "not settling")), g)
      | Some s =>
          if SettleProgress.Done s then
            Guider.CheckSettling g
            = (Ok (SettleProgress.mk true (JInt 0) (JInt 0) (JInt 0) (JInt 0)
                     (SettleProgress.Status s) (SettleProgress.Error s)),
               Guider.set_Settle None g)
            /\ Guider.CheckSettling (Guider.set_Settle None g)
               = (Raise (GuiderError (JStr "not settling")),
                  Guider.set_Settle None g)
          else
            Guider.CheckSettling g
            = (Ok (SettleProgress.mk false (SettleProgress.Distance s)
                     (Guider.settle_px g) (SettleProgress.Time s)
                     (SettleProgress.SettleTime s) (JInt 0) JNull), g)
      end
      /\ forall ev g1,
           Json.subscript "Event" ev = Ok (JStr "Settling") ->
           Guider._handle_event ev g = (Ok tt, g1) ->
           exists d t st,
             Json.subscript "Distance" ev = Ok d
             /\ Json.subscript "Time" ev = Ok t
             /\ Json.subscript "SettleTime" ev = Ok st
             /\ Guider.CheckSettling g1
                = (Ok (SettleProgress.mk false d (Guider.settle_px g) t st
                         (JInt 0) JNull), g1)).
Proof.
  split; [intros Hoff; apply (checked_disconnected _ Hoff)|].
  intros Hconn.
  assert (Hrun : forall g0, connected g0 ->
            Guider.CheckSettling g0
            = match Guider.Settle g0 with
              | None => (Raise (GuiderError (JStr "not settling")), g0)
              | Some s =>
                  if SettleProgress.Done s then
                    (Ok (SettleProgress.mk true (JInt 0) (JInt 0) (JInt 0)
                           (JInt 0) (SettleProgress.Status s)
                           (SettleProgress.Error s)),
                     Guider.set_Settle None g0)
                  else
                    (Ok (SettleProgress.mk false (SettleProgress.Distance s)
                           (Guider.settle_px g0) (SettleProgress.Time s)
                           (SettleProgress.SettleTime s) (JInt 0) JNull), g0)
              end).
  { intros g0 H0. unfold Guider.CheckSettling.
    unfold Guider.bind at 1. rewrite (CheckConnected_connected H0).
    unfold Guider.bind, Guider.gets, Guider.modify, Guider.ret, Guider.raise.
    destruct (Guider.Settle g0) as [s|]; [|reflexivity].
    destruct (SettleProgress.Done s); reflexivity. }
  split.
  - rewrite (Hrun g Hconn). destruct (Guider.Settle g) as [s|]; [|reflexivity].
    destruct (SettleProgress.Done s); [|reflexivity].
    split; [reflexivity|]. apply Hrun.
    destruct Hconn as (c & Hc & Hopen). exists c. split; assumption.
  - intros ev g1 Hev Hrun1.
    destruct (handle_Settling ev g Hev Hrun1) as (d & t & st & Hd & Ht & Hst & ->).
    exists d, t, st. repeat split; try assumption.
    rewrite Hrun; [reflexivity|].
    destruct Hconn as (c & Hc & Hopen). exists c. split; assumption.
Qed.

Lemma CheckSettling_contract_witness :
  Guider.CheckSettling (connected_session 1)
  = (Raise (GuiderError (JStr "not settling")), connected_session 1).
Proof.
  refine (proj1 (proj2 (@CheckSettling_contract (connected_session 1)) _)).
  eexists. split; reflexivity.
Defined.

(** A session that was never connected, with an empty settle slot:
    [CheckSettling] raises the connection error, not "not settling". *)
Lemma CheckSettling_not_connected :
  Guider.Settle first_session = None
  /\ Guider.CheckSettling first_session = (Raise NotConnectedError, first_session)
  /\ fst (Guider.CheckSettling first_session)
     <> Raise (GuiderError (JStr "not settling")).
Proof.
  split; [reflexivity|]. split; [reflexivity|]. cbn. discriminate.
Qed.

(** C10. A result of [CheckSettling] that is done has [Distance],
    [SettlePx], [Time] and [SettleTime] at 0, whatever was stored before;
    its [Status] and [Error] are those of the stored progress, which are
    the event's when the progress was stored for a [SettleDone] event. *)
Theorem CheckSettling_done_fields (g g1 : Guider.t) (r : SettleProgress.t) :
  Guider.CheckSettling g = (Ok r, g1) ->
  SettleProgress.Done r = true ->
  SettleProgress.Distance r = JInt 0
  /\ SettleProgress.SettlePx r = JInt 0
  /\ SettleProgress.Time r = JInt 0
  /\ SettleProgress.SettleTime r = JInt 0
  /\ (exists s,
        Guider.Settle g = Some s /\ SettleProgress.Done s = true
        /\ SettleProgress.Status r = SettleProgress.Status s
        /\ SettleProgress.Error r = SettleProgress.Error s
        /\ g1 = Guider.set_Settle None g)
  /\ forall ev g0,
       Json.subscript "Event" ev = Ok (JStr "SettleDone") ->
       Guider._handle_event ev g0 = (Ok tt, g) ->
       Json.subscript "Status" ev = Ok (SettleProgress.Status r)
       /\ Json.get_or_none "Error" ev = Ok (SettleProgress.Error r).
Proof.
  unfold Guider.CheckSettling. unfold Guider.bind at 1.
  destruct (Guider._CheckConnected g) as [[[]| e |] g0] eqn:Hc;
    try discriminate.
  assert (g0 = g) as ->.
  { revert Hc. unfold Guider._CheckConnected, Guider.bind, Guider.gets,
      Guider.raise, Guider.ret.
    destruct (Guider.conn g) as [c|]; [|discriminate].
    destruct (negb (_Conn.IsConnected c)); [discriminate|].
    intros [= <-]. reflexivity. }
  unfold Guider.bind, Guider.gets, Guider.modify, Guider.ret, Guider.raise.
  destruct (Guider.Settle g) as [s|] eqn:Hs; [|discriminate].
  destruct (SettleProgress.Done s) eqn:Hd.
  - intros [= <- <-] _. cbn. repeat split.
    + exists s. repeat split. exact Hd.
    + destruct (handle_SettleDone ev g0 H H0)
        as (status & err & Hst & _ & HS & _).
      rewrite Hs in HS. injection HS as ->. exact Hst.
    + destruct (handle_SettleDone ev g0 H H0)
        as (status & err & _ & Herr & HS & _).
      rewrite Hs in HS. injection HS as ->. exact Herr.
  - intros [= <- <-]. cbn. discriminate.
Qed.

Lemma CheckSettling_done_fields_witness :
  let g := Guider.set_Settle
             (Some (SettleProgress.mk true (JInt 0) (JInt 0) (JInt 0)
                      (JInt 0) (JInt 0) JNull))
             (connected_session 1) in
  Guider.Settle (connected_session 1) = None
  /\ exists s,
       Guider.Settle g = Some s /\ SettleProgress.Done s = true
       /\ JInt 0 = SettleProgress.Status s /\ JNull = SettleProgress.Error s
       /\ Guider.set_Settle None g = Guider.set_Settle None g.
Proof.
  split; [reflexivity|].
  refine (proj1 (proj2 (proj2 (proj2 (proj2
            (@CheckSettling_done_fields
               (Guider.set_Settle
                  (Some (SettleProgress.mk true (JInt 0) (JInt 0) (JInt 0)
                           (JInt 0) (JInt 0) JNull))
                  (connected_session 1))
               _ (SettleProgress.mk true (JInt 0) (JInt 0) (JInt 0)
                    (JInt 0) (JInt 0) JNull) _ _)))))).
  - reflexivity.
  - reflexivity.
Defined.

End SettleFacts.

(** ** Properties of the operations *)

Section OperationFacts.

Context `{FloatRepr}.

Local Open Scope string_scope.

Lemma capture_params_given (exposure binning gain : json)
  (roi : option Subframe.t) (path save : json) :
  Guider.capture_params exposure binning gain roi path save
  = (given "exposure" exposure ++ given "binning" binning
     ++ given "gain" gain
     ++ match roi with
        | Some r =>
            [("subframe",
              JList [Subframe.x r; Subframe.y r; Subframe.width r;
                     Subframe.height r])]
        | None => []
        end
     ++ given "path" path ++ given "save" save)%list.
Proof.
  unfold Guider.capture_params, Guider.set_if_given, given.
  destruct (Json.is_none exposure), (Json.is_none binning),
    (Json.is_none gain), roi, (Json.is_none path), (Json.is_none save);
    reflexivity.
Qed.

Lemma same_frame_refl (g : Guider.t) : same_frame g g.
Proof. reflexivity. Qed.

Lemma same_frame_trans (g1 g2 g3 : Guider.t) :
  same_frame g1 g2 -> same_frame g2 g3 -> same_frame g1 g3.
Proof. unfold same_frame. congruence. Qed.

(** Only the handler of [SingleFrameComplete] stores a result. *)
Lemma handle_event_same_frame (ev e : json) :
  Json.subscript "Event" ev = Ok e ->
  Json.is_str "SingleFrameComplete" e = false ->
  preserves same_frame (Guider._handle_event ev).
Proof.
  intros He E. unfold Guider._handle_event.
  apply preserves_bind_lift; [apply same_frame_refl|].
  intros v Hv. rewrite He in Hv. injection Hv as <-.
  rewrite E. cbv iota.
  unfold Guider.reset_accums, Guider.snapshot.
  repeat preserve_step same_frame_refl same_frame_trans; reflexivity.
Qed.

Lemma worker_body_same_frame (line : option json) (g : Guider.t) :
  is_named "SingleFrameComplete" line = false ->
  same_frame g (snd (Guider._worker_body line g)).
Proof.
  destruct line as [j|]; [|reflexivity].
  unfold is_named, event_name, Guider._worker_body.
  unfold Guider.bind at 1. unfold Guider.lift at 1.
  destruct (Json.has "jsonrpc" j) as [[|]| e |]; try reflexivity.
  destruct (Json.subscript "Event" j) as [e| e |] eqn:He.
  - intros E. apply (@handle_event_same_frame j e He E).
  - intros _. unfold Guider._handle_event, Guider.bind, Guider.lift.
    rewrite He. reflexivity.
  - intros _. unfold Guider._handle_event, Guider.bind, Guider.lift.
    rewrite He. reflexivity.
Qed.

Lemma worker_same_frame (lines : list (option json)) :
  forall g : Guider.t,
    no_frame_event lines = true ->
    same_frame g (snd (Guider._worker lines g)).
Proof.
  induction lines as [|line lines IH]; intros g Hl; [reflexivity|].
  cbn in Hl. apply andb_prop in Hl. destruct Hl as [Hline Hrest].
  apply negb_true_iff in Hline.
  cbn [Guider._worker]. unfold Guider.bind at 1, Guider.gets.
  destruct (Guider.terminate g); [reflexivity|].
  unfold Guider.bind.
  pose proof (worker_body_same_frame line g Hline) as Hb.
  destruct (Guider._worker_body line g) as [[[]| e |] g1]; cbn [snd] in *;
    try exact Hb.
  eapply same_frame_trans; [exact Hb | apply IH, Hrest].
Qed.

Lemma receive_same_frame (during : list (option json)) :
  no_frame_event during = true ->
  preserves same_frame (Guider.receive during).
Proof.
  intros Hl. unfold Guider.receive.
  apply (preserves_bind same_frame_trans).
  - intros g. unfold Guider.await_response.
    pose proof (worker_same_frame during g Hl) as Hw.
    destruct (negb (Json.truthy (Guider.response (snd (Guider._worker during g)))));
      cbn [snd]; exact Hw.
  - intros response.
    repeat preserve_step same_frame_refl same_frame_trans.
Qed.

Lemma Call_same_frame (method : str) (params : json)
  (during : list (option json)) :
  no_frame_event during = true ->
  preserves same_frame (Guider.Call method params during).
Proof.
  intros Hl. unfold Guider.Call. cbv zeta.
  repeat preserve_step same_frame_refl same_frame_trans;
    try apply (@receive_same_frame during Hl); reflexivity.
Qed.

(** C9. [CaptureSingleFrame] with a path and [save] false raises
    [ValueError] and leaves the session as it was: nothing is written and
    the stored result is not cleared.  Otherwise it clears [single_frame]
    and from there calls [capture_single_frame] with the dictionary of the
    arguments that were set, in the order exposure, binning, gain,
    subframe, path, save.  The stored result is then gone, however the call
    ends, unless the reader handles a [SingleFrameComplete] event
    meanwhile.  Connected to a socket that takes bytes the request is
    written; on a session without connection the call raises
    [NotConnectedError] after the result was cleared and nothing is
    written. *)
Theorem CaptureSingleFrame_contract (exposure binning gain : json)
  (roi : option Subframe.t) (path save : json)
  (during : list (option json)) (g : Guider.t) :
  let params := Guider.capture_params exposure binning gain roi path save in
  let run := Guider.CaptureSingleFrame exposure binning gain roi path save
               during g in
  (Json.is_none path = false -> Json.is_False save = true ->
   run = (Raise (ValueError
     "invalid arguments: when save is False, the path argument should be omitted"),
          g))
  /\ (Json.is_none path = true \/ Json.is_False save = false ->
      run = Guider.bind
              (Guider.Call "capture_single_frame" (JObj params) during)
              (fun _ => Guider.ret tt)
              (Guider.set_single_frame None g)
      /\ (no_frame_event during = true ->
          Guider.single_frame (snd run) = None)
      /\ (Guider.conn g = None ->
          run = (Raise NotConnectedError, Guider.set_single_frame None g)
          /\ written (snd run) = [])
      /\ (online g ->
          written (snd run)
          = (written g
               ++ encode (Guider._make_jsonrpc "capture_single_frame"
                            (JObj params))
               ++ [x0d; x0a])%list))
  /\ params
     = (given "exposure" exposure ++ given "binning" binning
        ++ given "gain" gain
        ++ match roi with
           | Some r =>
               [("subframe",
                 JList [Subframe.x r; Subframe.y r; Subframe.width r;
                        Subframe.height r])]
           | None => []
           end
        ++ given "path" path ++ given "save" save)%list.
Proof.
  intros params run. split; [|split].
  - intros Hp Hs. subst run. unfold Guider.CaptureSingleFrame.
    rewrite Hp, Hs. reflexivity.
  - intros Hcase.
    assert (Hrun : run = Guider.bind
              (Guider.Call "capture_single_frame" (JObj params) during)
              (fun _ => Guider.ret tt)
              (Guider.set_single_frame None g)).
    { subst run. unfold Guider.CaptureSingleFrame.
      replace (negb (Json.is_none path) && Json.is_False save) with false
        by (destruct Hcase as [-> | ->];
            [reflexivity | rewrite andb_false_r; reflexivity]).
      reflexivity. }
    assert (Hsnd : snd run
                   = snd (Guider.Call "capture_single_frame" (JObj params)
                            during (Guider.set_single_frame None g))).
    { rewrite Hrun. unfold Guider.bind.
      destruct (Guider.Call "capture_single_frame" (JObj params) during
                  (Guider.set_single_frame None g)) as [[v| e |] g2];
        reflexivity. }
    split; [exact Hrun|]. split; [|split].
    + intros Hl. rewrite Hsnd.
      exact (@Call_same_frame "capture_single_frame" (JObj params) during Hl
               (Guider.set_single_frame None g)).
    + intros Hc.
      assert (Hc1 : Guider.conn (Guider.set_single_frame None g) = None)
        by exact Hc.
      assert (Hraise : run = (Raise NotConnectedError,
                              Guider.set_single_frame None g)).
      { rewrite Hrun. unfold Guider.Call. unfold Guider.bind, Guider.gets.
        cbv beta iota zeta. rewrite Hc1. reflexivity. }
      split; [exact Hraise|]. rewrite Hraise. unfold written.
      cbn [snd]. rewrite Hc1. reflexivity.
    + intros Hon. rewrite Hsnd.
      assert (Hon1 : online (Guider.set_single_frame None g)) by exact Hon.
      exact (proj1 (Call_online_written "capture_single_frame" (JObj params)
                      during Hon1)).
  - apply capture_params_given.
Qed.

End OperationFacts.

Lemma CaptureSingleFrame_contract_witness :
  let g := Guider.set_single_frame
             (Some (SingleFrameResult.mk (JBool true) JNull JNull))
             (connected_session 8) in
  let run := @Guider.CaptureSingleFrame any_float_repr (JInt 2) JNull JNull
               (Some (Subframe.mk (JInt 0) (JInt 1) (JInt 32) (JInt 16)))
               JNull JNull [Some ok_response] g in
  Guider.single_frame g <> None
  /\ Guider.single_frame (snd run) = None
  /\ written (snd run)
     = encode (dq "{'method':'capture_single_frame','id':1,'params':{'exposure':2,'subframe':[0,1,32,16]}}"
               ++ CRLF)%string.
Proof.
  intros g run. split; [discriminate|].
  pose proof (proj1 (proj2
    (@CaptureSingleFrame_contract any_float_repr (JInt 2) JNull JNull
       (Some (Subframe.mk (JInt 0) (JInt 1) (JInt 32) (JInt 16)))
       JNull JNull [Some ok_response] g)) (or_introl eq_refl))
    as (_ & Hclear & _ & Hsend).
  split; [exact (Hclear eq_refl)|].
  refine (Hsend _).
  eexists _, _. split; [reflexivity|]. split; [reflexivity|].
  intros i _. exists 7. reflexivity.
Defined.

(** Without a connection nothing is sent, and yet the stored result is
    gone: the arguments are accepted, the result of the earlier frame is
    cleared, and the call raises [NotConnectedError] with nothing
    written. *)
Lemma CaptureSingleFrame_not_connected :
  let g := Guider.set_single_frame
             (Some (SingleFrameResult.mk (JBool true) JNull JNull))
             first_session in
  let run := @Guider.CaptureSingleFrame any_float_repr (JInt 2) JNull JNull
               None JNull JNull [] g in
  negb (Json.is_none JNull) && Json.is_False JNull = false
  /\ Guider.single_frame g <> None
  /\ fst run = Raise NotConnectedError
  /\ Guider.single_frame (snd run) = None
  /\ written (snd run) = [].
Proof.
  cbv zeta. split; [reflexivity|]. split; [discriminate|].
  split; [reflexivity|]. split; reflexivity.
Qed.

(** ** Properties of [Guide] and [Dither] *)

Section SettleCallFacts.

Context `{FloatRepr}.

Local Open Scope string_scope.

Lemma CheckConnected_keeps (g : Guider.t) :
  snd (Guider._CheckConnected g) = g.
Proof.
  unfold Guider._CheckConnected, Guider.bind, Guider.gets.
  destruct (Guider.conn g) as [c|]; [|reflexivity].
  destruct (negb (_Conn.IsConnected c)); reflexivity.
Qed.

(** A session in the middle of a settle refuses to guide. *)
Lemma Guide_busy (px tm tmo : json) (during : list (option json))
  (g : Guider.t) :
  Guider.settle_in_progress g = true ->
  snd (Guider.Guide px tm tmo during g) = g
  /\ (exists e, fst (Guider.Guide px tm tmo during g) = Raise e)
  /\ (connected g ->
      fst (Guider.Guide px tm tmo during g)
      = Raise (GuiderError (JStr "cannot guide while settling"))).
Proof.
  intros Hbusy.
  assert (E : Guider.Guide px tm tmo during g
              = (match fst (Guider._CheckConnected g) with
                 | Ok _ => Raise (GuiderError (JStr "cannot guide while settling"))
                 | Raise e => Raise e
                 | Blocks => Blocks
                 end, g)).
  { unfold Guider.Guide. unfold Guider.bind at 1.
    pose proof (CheckConnected_keeps g) as Hk.
    destruct (Guider._CheckConnected g) as [[[]| e |] g0];
      cbn [fst snd] in *; subst g0; try reflexivity.
    unfold Guider.bind at 1, Guider.gets. rewrite Hbusy. reflexivity. }
  rewrite E. cbn [fst snd]. split; [reflexivity|]. split.
  - unfold Guider._CheckConnected, Guider.bind, Guider.gets.
    destruct (Guider.conn g) as [c|]; [|eexists; reflexivity].
    destruct (negb (_Conn.IsConnected c)); eexists; reflexivity.
  - intros Hx. rewrite (CheckConnected_connected Hx). reflexivity.
Qed.

Lemma Guide_idle (px tm tmo : json) (during : list (option json))
  (g : Guider.t) :
  connected g -> Guider.settle_in_progress g = false ->
  Guider.Guide px tm tmo during g
  = settle_call_outcome px
      (Guider.Call "guide" (guide_params px tm tmo) during
         (Guider.set_Settle (Some (pending_progress (JInt 0) px tm)) g)).
Proof.
  intros Hconn Hidle. unfold Guider.Guide. unfold Guider.bind at 1.
  rewrite (CheckConnected_connected Hconn).
  unfold Guider.bind at 1, Guider.gets. rewrite Hidle.
  unfold Guider.bind at 1, Guider.modify at 1, Guider.try_except.
  unfold Guider.bind at 1. unfold guide_params, settle_object, pending_progress.
  cbn [SettleProgress.Error SettleProgress.new].
  destruct (Guider.Call _ _ _ _) as [[v| e |] g2]; reflexivity.
Qed.

Lemma Dither_busy (dp px tm tmo : json) (during : list (option json))
  (g : Guider.t) :
  Guider.settle_in_progress g = true ->
  snd (Guider.Dither dp px tm tmo during g) = g
  /\ (exists e, fst (Guider.Dither dp px tm tmo during g) = Raise e)
  /\ (connected g ->
      fst (Guider.Dither dp px tm tmo during g)
      = Raise (GuiderError (JStr "cannot dither while settling"))).
Proof.
  intros Hbusy.
  assert (E : Guider.Dither dp px tm tmo during g
              = (match fst (Guider._CheckConnected g) with
                 | Ok _ => Raise (GuiderError (JStr "cannot dither while settling"))
                 | Raise e => Raise e
                 | Blocks => Blocks
                 end, g)).
  { unfold Guider.Dither. unfold Guider.bind at 1.
    pose proof (CheckConnected_keeps g) as Hk.
    destruct (Guider._CheckConnected g) as [[[]| e |] g0];
      cbn [fst snd] in *; subst g0; try reflexivity.
    unfold Guider.bind at 1, Guider.gets. rewrite Hbusy. reflexivity. }
  rewrite E. cbn [fst snd]. split; [reflexivity|]. split.
  - unfold Guider._CheckConnected, Guider.bind, Guider.gets.
    destruct (Guider.conn g) as [c|]; [|eexists; reflexivity].
    destruct (negb (_Conn.IsConnected c)); eexists; reflexivity.
  - intros Hx. rewrite (CheckConnected_connected Hx). reflexivity.
Qed.

Lemma Dither_idle (dp px tm tmo : json) (during : list (option json))
  (g : Guider.t) :
  connected g -> Guider.settle_in_progress g = false ->
  Guider.Dither dp px tm tmo during g
  = settle_call_outcome px
      (Guider.Call "dither" (dither_params dp px tm tmo) during
         (Guider.set_Settle (Some (pending_progress dp px tm)) g)).
Proof.
  intros Hconn Hidle. unfold Guider.Dither. unfold Guider.bind at 1.
  rewrite (CheckConnected_connected Hconn).
  unfold Guider.bind at 1, Guider.gets. rewrite Hidle.
  unfold Guider.bind at 1, Guider.modify at 1, Guider.try_except.
  unfold Guider.bind at 1. unfold dither_params, settle_object, pending_progress.
  cbn [SettleProgress.Error SettleProgress.new].
  destruct (Guider.Call _ _ _ _) as [[v| e |] g2]; reflexivity.
Qed.

(** The consequences, for any operation of this shape. *)
Lemma settle_call_consequences (method : str) (params px : json)
  (progress : SettleProgress.t) (during : list (option json))
  (g g2 : Guider.t) (r : result unit) :
  settle_call_outcome px
    (Guider.Call method params during (Guider.set_Settle (Some progress) g))
  = (r, g2) ->
  (forall e, r = Raise e -> Guider.Settle g2 = None)
  /\ (r = Ok tt -> Guider.settle_px g2 = px)
  /\ (online g ->
      written g2
      = (written g ++ encode (Guider._make_jsonrpc method params)
           ++ [x0d; x0a])%list).
Proof.
  intros Hrun.
  assert (Hw : online g ->
               written (snd (Guider.Call method params during
                               (Guider.set_Settle (Some progress) g)))
               = (written g ++ encode (Guider._make_jsonrpc method params)
                    ++ [x0d; x0a])%list).
  { intros Hon.
    assert (Hon1 : online (Guider.set_Settle (Some progress) g)) by exact Hon.
    apply (Call_online_written method params during Hon1). }
  destruct (Guider.Call method params during
              (Guider.set_Settle (Some progress) g)) as [[v| e |] g1];
    cbn [settle_call_outcome snd] in *; inversion Hrun; subst;
    repeat split; try discriminate; try reflexivity; try exact Hw.
Qed.

End SettleCallFacts.

Section ResponseFacts.

Context `{FloatRepr}.

Local Open Scope string_scope.

Lemma contains_nonempty (c : ascii) (k s : str) :
  contains (String c k) s = true -> s <> EmptyString.
Proof. destruct s; [discriminate | discriminate]. Qed.

(** What the reader takes for a response counts as true. *)
Lemma has_truthy (c : ascii) (k : str) (j : json) :
  Json.has (String c k) j = Ok true -> Json.truthy j = true.
Proof.
  destruct j as [| b | z | x | s | l | d]; cbn [Json.has Json.truthy];
    try discriminate.
  - intros [= Hc]. destruct s; [discriminate | reflexivity].
  - intros [= He]. destruct l; [discriminate | reflexivity].
  - intros [= Hg]. destruct d; [discriminate | reflexivity].
Qed.

(** The reader stores a response, whatever the slot holds and whoever
    waits. *)
Lemma worker_body_response (j : json) (g : Guider.t) :
  Json.has "jsonrpc" j = Ok true ->
  Guider._worker_body (Some j) g = (Ok tt, Guider.set_response j g).
Proof.
  intros Hj. unfold Guider._worker_body, Guider.bind, Guider.lift.
  rewrite Hj. reflexivity.
Qed.

(** A caller that finds the response [j] in the slot when it looks. *)
Lemma receive_stored (j : json) (g : Guider.t) :
  Json.truthy j = true ->
  Guider.receive [] (Guider.set_response j g)
  = (match Guider._failed j with
     | Ok false => Ok j
     | Ok true =>
         match Json.subscript "error" j with
         | Ok err =>
             match Json.subscript "message" err with
             | Ok msg => Raise (GuiderError msg)
             | Raise e => Raise e
             | Blocks => Blocks
             end
         | Raise e => Raise e
         | Blocks => Blocks
         end
     | Raise e => Raise e
     | Blocks => Blocks
     end, Guider.set_response JNull g).
Proof.
  intros Ht. unfold Guider.receive, Guider.bind at 1, Guider.await_response.
  cbn [Guider._worker Guider.ret snd Guider.response Guider.set_response].
  rewrite Ht. cbn [negb].
  unfold Guider.bind, Guider.lift, Guider.raise, Guider.ret.
  destruct (Guider._failed j) as [[|]| e |]; try reflexivity.
  destruct (Json.subscript "error" j) as [err| e |]; try reflexivity.
  destruct (Json.subscript "message" err) as [msg| e |]; reflexivity.
Qed.

Lemma await_one_response (j : json) (g : Guider.t) :
  Guider.terminate g = false ->
  Json.has "jsonrpc" j = Ok true ->
  Guider.await_response [Some j] g
  = Guider.await_response [] (Guider.set_response j g).
Proof.
  intros Hrun Hj. unfold Guider.await_response.
  assert (E : Guider._worker [Some j] g = (Ok tt, Guider.set_response j g)).
  { rewrite (worker_running _ _ _ Hrun). unfold Guider.bind.
    rewrite (@worker_body_response j g Hj). reflexivity. }
  rewrite E. reflexivity.
Qed.

Lemma receive_one_response (j : json) (g : Guider.t) :
  Guider.terminate g = false ->
  Json.has "jsonrpc" j = Ok true ->
  Guider.receive [Some j] g = Guider.receive [] (Guider.set_response j g).
Proof.
  intros Hrun Hj. unfold Guider.receive. unfold Guider.bind at 1.
  rewrite (@await_one_response j g Hrun Hj). reflexivity.
Qed.

Lemma receive_one_response_Settle (j : json) (g : Guider.t) :
  Guider.terminate g = false ->
  Json.has "jsonrpc" j = Ok true ->
  Guider.Settle (snd (Guider.receive [Some j] g)) = Guider.Settle g.
Proof.
  intros Hrun Hj. rewrite (@receive_one_response j g Hrun Hj).
  rewrite (@receive_stored j g (@has_truthy _ _ j Hj)). reflexivity.
Qed.

(** Any operation with the two behaviours of [Guide] meets the contract. *)
Lemma settle_contract_intro (op : list (option json) -> Guider.M unit)
  (method : str) (params distance px tm : json) :
  (forall during g,
     Guider.settle_in_progress g = true ->
     snd (op during g) = g /\ exists e, fst (op during g) = Raise e) ->
  (forall during g,
     ~ connected g ->
     snd (op during g) = g /\ exists e, fst (op during g) = Raise e) ->
  (forall during g,
     connected g -> Guider.settle_in_progress g = false ->
     op during g
     = settle_call_outcome px
         (Guider.Call method params during
            (Guider.set_Settle (Some (pending_progress distance px tm)) g))) ->
  settle_contract op method params distance px tm.
Proof.
  intros Hbusy Hoff Hidle during g pending. split; [apply Hbusy|].
  split; [apply Hoff|].
  intros Hconn Hfree. specialize (Hidle during g Hconn Hfree).
  split; [exact Hidle|].
  destruct (op during g) as [r g2] eqn:Hop. cbn [fst snd].
  symmetry in Hidle.
  destruct (@settle_call_consequences _ _ _ _ _ _ _ _ _ Hidle)
    as (Hraise & Hok & Hw).
  split; [exact Hraise|]. split; [exact Hok|]. split; [exact Hw|].
  intros j -> Hrun Hj ->. revert Hidle.
  destruct Hconn as (c & Hc & Hopen).
  unfold Guider.Call, Guider.bind at 1, Guider.gets.
  cbn [Guider.conn Guider.set_Settle]. rewrite Hc. cbv zeta.
  destruct (_Conn.WriteLine _ c) as [[sent c1]|]; [|discriminate].
  unfold Guider.bind at 1, Guider.modify at 1.
  unfold Guider.bind at 1, Guider.lift at 1.
  destruct sent as [[]| e |]; try discriminate.
  match goal with
  | |- settle_call_outcome _ (Guider.receive _ ?g1) = _ -> _ =>
      pose proof (@receive_one_response_Settle j g1 Hrun Hj) as HS;
      destruct (Guider.receive [Some j] g1) as [[v| e |] g3]
  end; cbn [settle_call_outcome snd] in *; intros [= <-]; exact HS.
Qed.

(** C4. [Guide] and [Dither] meet the contract of an operation that starts
    a settle: [Guide] with pending distance 0 and the [guide] request,
    [Dither] with the dither amount as pending distance and the [dither]
    request.  On an exception of the call the settle slot is left empty,
    whatever it held before the operation. *)
Theorem Guide_Dither_contract
  (ditherPixels settlePixels settleTime settleTimeout : json) :
  settle_contract (Guider.Guide settlePixels settleTime settleTimeout)
    "guide" (guide_params settlePixels settleTime settleTimeout)
    (JInt 0) settlePixels settleTime
  /\ settle_contract
       (Guider.Dither ditherPixels settlePixels settleTime settleTimeout)
       "dither"
       (dither_params ditherPixels settlePixels settleTime settleTimeout)
       ditherPixels settlePixels settleTime.
Proof.
  split; apply settle_contract_intro.
  - intros during g Hb.
    destruct (Guide_busy settlePixels settleTime settleTimeout during g Hb)
      as (Hs & He & _). split; assumption.
  - intros during g Hoff. apply (checked_disconnected_raises _ Hoff).
  - intros during g. apply Guide_idle.
  - intros during g Hb.
    destruct (Dither_busy ditherPixels settlePixels settleTime settleTimeout
                during g Hb) as (Hs & He & _). split; assumption.
  - intros during g Hoff. apply (checked_disconnected_raises _ Hoff).
  - intros during g. apply Dither_idle.
Qed.

End ResponseFacts.

(** A guide request that the server refuses, on a session whose last settle
    has completed and was not read yet: the exception leaves the settle
    slot empty, which is not what it held before the call.  And on a
    session that was never connected, with no settle in progress, [Guide]
    raises the connection error and installs nothing. *)
Lemma Guide_failure_empties_slot :
  let run := @Guider.Guide any_float_repr (JInt 2) (JInt 10) (JInt 100)
               [Some error_response] session_with_done_settle in
  let off := @Guider.Guide any_float_repr (JInt 2) (JInt 10) (JInt 100)
               [Some ok_response] first_session in
  (Guider.settle_in_progress session_with_done_settle = false
   /\ fst run = Raise (GuiderError (JStr "no star"%string))
   /\ Guider.Settle (snd run) = None
   /\ Guider.Settle (snd run) <> Guider.Settle session_with_done_settle)
  /\ (Guider.settle_in_progress first_session = false
      /\ off = (Raise NotConnectedError, first_session)
      /\ Guider.Settle (snd off)
         <> Some (pending_progress (JInt 0) (JInt 2) (JInt 10))).
Proof.
  assert (E : Guider.Settle
                (snd (@Guider.Guide any_float_repr (JInt 2) (JInt 10)
                        (JInt 100) [Some error_response]
                        session_with_done_settle)) = None)
    by (vm_compute; reflexivity).
  cbv zeta. split.
  - split; [reflexivity|]. split; [vm_compute; reflexivity|].
    split; [exact E|]. rewrite E. discriminate.
  - split; [reflexivity|]. split; [reflexivity|]. cbn. discriminate.
Qed.

Lemma Guide_Dither_contract_witness :
  let g := Guider.set_Settle
             (Some (pending_progress (JInt 0) (JInt 2) (JInt 10)))
             (connected_session 1) in
  snd (@Guider.Guide any_float_repr (JInt 2) (JInt 10) (JInt 100) [] g) = g
  /\ exists e,
       fst (@Guider.Guide any_float_repr (JInt 2) (JInt 10) (JInt 100) [] g)
       = Raise e.
Proof.
  exact (proj1 (proj1 (@Guide_Dither_contract any_float_repr (JInt 0)
                         (JInt 2) (JInt 10) (JInt 100)) []
                  (Guider.set_Settle
                     (Some (pending_progress (JInt 0) (JInt 2) (JInt 10)))
                     (connected_session 1))) eq_refl).
Defined.

(** ** Responses that nobody waits for *)

Section StrayResponses.

Context `{FloatRepr}.

Local Open Scope string_scope.

Lemma has_not_Blocks (k : str) (j : json) : Json.has k j <> Blocks.
Proof. destruct j; discriminate. Qed.

Lemma subscript_not_Blocks (k : str) (j : json) : Json.subscript k j <> Blocks.
Proof.
  destruct j; try discriminate. cbn. unfold Json.item.
  destruct (Json.get k d); discriminate.
Qed.

(** C8. The reader stores every line with a [jsonrpc] property in the
    response slot, whatever the slot holds and whether or not a caller
    waits.  A response stored while no caller waits stays there, and the
    next [Call] returns at once with it, before the reader handles any
    further line: as its result when it has no [error], and clearing the
    slot. *)
Theorem stray_response_kept (j : json) (g : Guider.t) :
  Json.has "jsonrpc" j = Ok true ->
  let g1 := snd (Guider._worker_body (Some j) g) in
  fst (Guider._worker_body (Some j) g) = Ok tt
  /\ g1 = Guider.set_response j g
  /\ Json.truthy (Guider.response g1) = true
  /\ forall method params,
       online g ->
       fst (Guider.Call method params [] g1) <> Blocks
       /\ (Guider._failed j = Ok false ->
           fst (Guider.Call method params [] g1) = Ok j)
       /\ Guider.response (snd (Guider.Call method params [] g1)) = JNull.
Proof.
  intros Hj g1. subst g1. rewrite (@worker_body_response j g Hj).
  cbn [fst snd]. split; [reflexivity|]. split; [reflexivity|].
  split; [exact (@has_truthy _ _ j Hj)|].
  intros method params (c & sk & Hc & Hsk & Hacc).
  assert (Hc1 : Guider.conn (Guider.set_response j g) = Some c) by exact Hc.
  destruct (Call_online method params [] (Guider.set_response j g)
              Hc1 Hsk Hacc) as (sk1 & _ & _ & ->).
  match goal with
  | |- context [Guider.receive [] ?g2] =>
      change g2 with
        (Guider.set_response j
           (Guider.set_conn
              (Some (_Conn.mk (_Conn.lines c) (_Conn.buf c) (Some sk1)
                       (_Conn.terminate c))) g))
  end.
  rewrite (@receive_stored j _ (@has_truthy _ _ j Hj)). cbn [fst snd].
  split; [|split].
  - pose proof (has_not_Blocks "error" j) as Hb. unfold Guider._failed.
    destruct (Json.has "error" j) as [[|]| e |]; try discriminate;
      [|congruence].
    pose proof (subscript_not_Blocks "error" j) as Hb1.
    destruct (Json.subscript "error" j) as [err| e |]; try discriminate;
      [|congruence].
    pose proof (subscript_not_Blocks "message" err) as Hb2.
    destruct (Json.subscript "message" err) as [msg| e |];
      try discriminate; congruence.
  - intros ->. reflexivity.
  - reflexivity.
Qed.

End StrayResponses.

Lemma stray_response_kept_witness :
  fst (Guider._worker_body (Some ok_response) (connected_session 1)) = Ok tt.
Proof.
  apply (@stray_response_kept any_float_repr ok_response
           (connected_session 1)).
  reflexivity.
Defined.

(** On a session just connected, on which no call was ever made, the
    reader handles a response: the response is in the slot afterwards, and
    the first call made later returns it as its result. *)
Lemma stray_response_delivered :
  let g1 := snd (Guider._worker_body (Some ok_response)
                   (connected_session 4096)) in
  written (connected_session 4096) = []
  /\ Guider.response (connected_session 4096) = JNull
  /\ Guider.response g1 = ok_response
  /\ Guider.response g1 <> Guider.response (connected_session 4096)
  /\ fst (@Guider.Call any_float_repr "get_exposure"%string JNull [] g1)
     = Ok ok_response.
Proof.
  cbv zeta. split; [reflexivity|]. split; [reflexivity|].
  split; [reflexivity|]. split; [discriminate|].
  vm_compute. reflexivity.
Qed.

(** ** The statistics follow the window of samples *)

Section WindowFacts.

Local Open Scope string_scope.

Lemma is_str_eq (s : str) (e : json) : Json.is_str s e = true -> e = JStr s.
Proof.
  destruct e; try discriminate. cbn. intros Heq.
  apply String.eqb_eq in Heq. rewrite Heq. reflexivity.
Qed.

Lemma same_accum_refl (g : Guider.t) : same_accum g g.
Proof. repeat split. Qed.

Lemma same_accum_trans (g1 g2 g3 : Guider.t) :
  same_accum g1 g2 -> same_accum g2 g3 -> same_accum g1 g3.
Proof.
  unfold same_accum. intros (?&?&?&?) (?&?&?&?). repeat split; congruence.
Qed.

Lemma tracks_same_accum (w : bool * list (R * R)) (g g1 : Guider.t) :
  tracks w g -> same_accum g g1 -> tracks w g1.
Proof.
  unfold tracks, same_accum. intros (Ha & Hr & Hd & Hs) (Ha1 & Hr1 & Hd1 & Hs1).
  rewrite Ha1, Hr1, Hd1, Hs1. auto.
Qed.

(** An event that is none of the four that concern the statistics leaves
    the accumulators and the statistics alone. *)
Lemma handle_event_other (ev e : json) :
  Json.subscript "Event" ev = Ok e ->
  Json.is_str "StartGuiding" e = false ->
  Json.is_str "GuideStep" e = false ->
  Json.is_str "SettleBegin" e = false ->
  Json.is_str "SettleDone" e = false ->
  preserves same_accum (Guider._handle_event ev).
Proof.
  intros He E1 E2 E3 E4. unfold Guider._handle_event.
  apply preserves_bind_lift; [apply same_accum_refl|].
  intros v Hv. rewrite He in Hv. injection Hv as <-.
  rewrite E1, E2, E3, E4. cbv iota.
  repeat preserve_step same_accum_refl same_accum_trans; repeat split.
Qed.

Lemma handle_StartGuiding (ev : json) (g g1 : Guider.t) :
  Json.subscript "Event" ev = Ok (JStr "StartGuiding") ->
  Guider._handle_event ev g = (Ok tt, g1) ->
  tracks (true, []) g1.
Proof.
  intros Hev. known_event Hev. intros [= <-]. repeat split.
Qed.

Lemma handle_SettleBegin (ev : json) (g g1 : Guider.t) :
  Json.subscript "Event" ev = Ok (JStr "SettleBegin") ->
  Guider._handle_event ev g = (Ok tt, g1) ->
  Guider.accum_active g1 = false
  /\ Guider.accum_ra g1 = Guider.accum_ra g
  /\ Guider.accum_dec g1 = Guider.accum_dec g
  /\ Guider.Stats g1 = Guider.Stats g.
Proof.
  intros Hev. known_event Hev. intros [= <-]. repeat split.
Qed.

Lemma handle_GuideStep (ev : json) (g g1 : Guider.t) :
  Json.subscript "Event" ev = Ok (JStr "GuideStep") ->
  Guider._handle_event ev g = (Ok tt, g1) ->
  if Guider.accum_active g then
    exists x y,
      sample_of ev = Some (x, y)
      /\ Guider.accum_active g1 = true
      /\ Guider.accum_ra g1 = _Accum.Add x (Guider.accum_ra g)
      /\ Guider.accum_dec g1 = _Accum.Add y (Guider.accum_dec g)
      /\ Guider.Stats g1
         = Guider._accum_get_stats (Guider.accum_ra g1) (Guider.accum_dec g1)
  else same_accum g g1.
Proof.
  intros Hev. known_event Hev. unfold sample_of, Guider.ret.
  destruct (Guider.accum_active g) eqn:Ha.
  - destruct (Json.subscript "RADistanceRaw" ev) as [ra| |];
      try discriminate.
    destruct (Json.number ra) as [x| |]; try discriminate.
    destruct (Json.subscript "DECDistanceRaw" ev) as [dec| |];
      try discriminate.
    destruct (Json.number dec) as [y| |]; try discriminate.
    cbn [Guider.accum_active Guider.set_accum_ra Guider.set_accum_dec
         Guider.set_AppState Guider.set_AvgDist].
    destruct (Json.subscript "AvgDist" ev) as [d| |]; try discriminate.
    cbn [Guider.accum_active Guider.set_accum_ra Guider.set_accum_dec
         Guider.set_AppState Guider.set_AvgDist].
    rewrite Ha. intros [= <-]. exists x, y. repeat split; exact Ha.
  - destruct (Json.subscript "AvgDist" ev) as [d| |]; try discriminate.
    cbn [Guider.accum_active Guider.set_accum_ra Guider.set_accum_dec
         Guider.set_AppState Guider.set_AvgDist].
    rewrite Ha. intros [= <-]. repeat split.
Qed.

Lemma is_named_event (name : str) (j e : json) :
  Json.has "jsonrpc" j = Ok false ->
  Json.subscript "Event" j = Ok e ->
  is_named name (Some j) = Json.is_str name e.
Proof.
  intros Hh He. unfold is_named, event_name. rewrite Hh, He. reflexivity.
Qed.


Lemma AddAll_snoc (xs : list R) (x : R) (s : _Accum.t) :
  _Accum.AddAll (xs ++ [x]) s = _Accum.Add x (_Accum.AddAll xs s).
Proof. unfold _Accum.AddAll. rewrite fold_left_app. reflexivity. Qed.

(** One line keeps the session on the window. *)
Lemma worker_body_tracks (w : bool * list (R * R)) (line : option json)
  (g g1 : Guider.t) :
  tracks w g ->
  Guider._worker_body line g = (Ok tt, g1) ->
  tracks (window_step w line) g1.
Proof.
  intros Ht. destruct line as [j|].
  - unfold Guider._worker_body, Guider.bind at 1, Guider.lift at 1.
    destruct (Json.has "jsonrpc" j) as [[|]| |] eqn:Hh; try discriminate.
    + intros [= <-].
      assert (Hn : forall name, is_named name (Some j) = false).
      { intros name. unfold is_named, event_name. rewrite Hh. reflexivity. }
      unfold window_step. rewrite !Hn. cbn [orb andb]. exact Ht.
    + intros Hrun.
      destruct (Json.subscript "Event" j) as [e| err |] eqn:He.
      2,3: exfalso; revert Hrun; unfold Guider._handle_event,
             Guider.bind at 1, Guider.lift at 1; rewrite He; discriminate.
      pose proof (fun name => @is_named_event name j e Hh He) as Hn.
      unfold window_step. rewrite !Hn.
      destruct (Json.is_str "StartGuiding" e) eqn:E1.
      { apply is_str_eq in E1. subst e. cbn [orb].
        apply (handle_StartGuiding j g He Hrun). }
      destruct (Json.is_str "SettleDone" e) eqn:E4.
      { apply is_str_eq in E4. subst e. cbn [orb].
        destruct (handle_SettleDone j g He Hrun)
          as (_ & _ & _ & _ & _ & Ha & Hra & Hdec & Hst & _).
        unfold tracks. rewrite Ha, Hra, Hdec, Hst. repeat split. }
      cbn [orb].
      destruct (Json.is_str "SettleBegin" e) eqn:E3.
      { apply is_str_eq in E3. subst e.
        destruct (handle_SettleBegin j g He Hrun) as (Ha & Hra & Hdec & Hst).
        destruct Ht as (_ & Hr0 & Hd0 & Hs0).
        unfold tracks. cbn [fst snd]. rewrite Ha, Hra, Hdec, Hst. auto. }
      destruct (Json.is_str "GuideStep" e) eqn:E2.
      { apply is_str_eq in E2. subst e. cbn [andb].
        pose proof (handle_GuideStep j g He Hrun) as Hg.
        destruct Ht as (Ha0 & Hr0 & Hd0 & Hs0). rewrite Ha0 in Hg.
        destruct w as [[|] samples]; cbn [fst snd] in *.
        - destruct Hg as (x & y & -> & Ha & Hra & Hdec & Hst).
          unfold tracks. cbn [fst snd]. rewrite !map_app.
          cbn [map fst snd]. rewrite !AddAll_snoc, <- Hr0, <- Hd0. auto.
        - apply (@tracks_same_accum (false, samples) g g1);
            [repeat split; assumption | exact Hg]. }
      cbn [andb].
      apply (@tracks_same_accum w g g1 Ht).
      pose proof (@handle_event_other j e He E1 E2 E3 E4 g) as Hp.
      rewrite Hrun in Hp. exact Hp.
  - cbn. intros [= <-]. exact Ht.
Qed.

Lemma worker_cons (line : option json) (lines : list (option json))
  (g g1 : Guider.t) :
  Guider.terminate g = false ->
  Guider._worker (line :: lines) g = (Ok tt, g1) ->
  exists g0,
    Guider._worker_body line g = (Ok tt, g0)
    /\ Guider.terminate g0 = false
    /\ Guider._worker lines g0 = (Ok tt, g1).
Proof.
  intros Hterm. rewrite (worker_running _ _ _ Hterm). unfold Guider.bind.
  destruct (worker_body_same_link line g) as (_ & _ & Ht).
  destruct (Guider._worker_body line g) as [[[]| e |] g0]; try discriminate.
  cbn [snd] in Ht. intros Hrest. exists g0.
  split; [reflexivity|]. split; [congruence | exact Hrest].
Qed.


Lemma worker_tracks (lines : list (option json)) :
  forall (w : bool * list (R * R)) (g g1 : Guider.t),
    Guider.terminate g = false ->
    tracks w g ->
    Guider._worker lines g = (Ok tt, g1) ->
    tracks (window lines w) g1.
Proof.
  induction lines as [|line lines IH]; intros w g g1 Hterm Ht Hrun.
  - cbn in Hrun. injection Hrun as <-. exact Ht.
  - destruct (worker_cons _ _ _ Hterm Hrun) as (g0 & Hb & Ht0 & Hrest).
    cbn [window fold_left]. apply (IH _ g0); [exact Ht0| |exact Hrest].
    apply (@worker_body_tracks w line g g0 Ht Hb).
Qed.

Lemma Stdev_rms (xs : list R) :
  _Accum.Stdev (_Accum.AddAll xs (_Accum.mk 0 0 0 0)) = rms xs.
Proof.
  destruct xs as [|x xs].
  - cbn. reflexivity.
  - apply welford_Stdev; [discriminate|].
    apply (welford_AddAll (x :: xs) (xs := [])).
    exact (welford_Reset (_Accum.mk 0 0 0 0)).
Qed.

Lemma Peak_max_abs (xs : list R) :
  _Accum.Peak (_Accum.AddAll xs (_Accum.mk 0 0 0 0)) = max_abs xs.
Proof.
  apply (welford_AddAll xs (xs := [])).
  exact (welford_Reset (_Accum.mk 0 0 0 0)).
Qed.

(** A session on a window shows the statistics of its samples. *)
Lemma tracks_stats (w : bool * list (R * R)) (g : Guider.t) :
  tracks w g -> Guider.Stats g = stats_of (snd w).
Proof.
  intros (_ & Hra & Hdec & Hst). rewrite Hst, Hra, Hdec.
  unfold Guider._accum_get_stats, stats_of.
  rewrite !Stdev_rms, !Peak_max_abs. reflexivity.
Qed.


End WindowFacts.



(** ** The scenarios of the specification, run on the model *)

Section Scenarios.

Local Open Scope string_scope.

(** CR LF and runs of terminators collapse; the residue stays in the
    buffer. *)
Example framer_collapses_terminators :
  feed ([], []) (encode ("ab" ++ CRLF ++ "cd" ++ String LF (String LF "ef")))
  = ([encode "ab"; encode "cd"], encode "ef").
Proof. reflexivity. Qed.

(** The same bytes in three reads, cut inside a line and inside CR LF. *)
Example framer_three_reads :
  fold_left feed
    [encode "a"; encode (String "b" (String CR EmptyString));
     encode (String LF "cd" ++ String LF (String LF "ef"))] ([], [])
  = ([encode "ab"; encode "cd"], encode "ef").
Proof. reflexivity. Qed.

Example version_captured :
  let g := snd (Guider._worker
                  [Some (event "Version"
                           [("PHDVersion", JStr "2.6.13");
                            ("PHDSubver", JStr "a")])]
                  first_session) in
  (Guider.Version g, Guider.PHDSubver g) = (JStr "2.6.13", JStr "a").
Proof. reflexivity. Qed.

(** [Guide], the reply, a [Settling] event and the [SettleDone] event, with
    a call of [CheckSettling] after each event and one more at the end. *)
Example guide_settling_done :
  let g0 := connected_session 4096 in
  let guide := @Guider.Guide any_float_repr (JInt 2) (JInt 10) (JInt 100)
                 [Some ok_response] g0 in
  let g1 := snd (Guider._worker [Some settling] (snd guide)) in
  let check1 := Guider.CheckSettling g1 in
  let g2 := snd (Guider._worker [Some settle_done] (snd check1)) in
  let check2 := Guider.CheckSettling g2 in
  let check3 := Guider.CheckSettling (snd check2) in
  fst guide = Ok tt
  /\ written (snd guide)
     = (encode (dq "{'method':'guide','id':1,'params':[{'pixels':2,'time':10,'timeout':100},false]}")
          ++ [x0d; x0a])%list
  /\ fst check1
     = Ok (SettleProgress.mk false (JInt 3) (JInt 2) (JInt 1) (JInt 10)
             (JInt 0) JNull)
  /\ fst check2
     = Ok (SettleProgress.mk true (JInt 0) (JInt 0) (JInt 0) (JInt 0)
             (JInt 0) JNull)
  /\ Guider.Settle (snd check2) = None
  /\ fst check3 = Raise (GuiderError (JStr "not settling")).
Proof. vm_compute. repeat split. Qed.

Example rms_of_two_samples : rms [1; 3]%R = 1%R /\ rms [-1; 1]%R = 1%R.
Proof.
  unfold rms, sqdev, mean, sum. cbn [map fold_right length INR].
  split.
  - replace (_ / _)%R with 1%R by field. apply sqrt_1.
  - replace (_ / _)%R with 1%R by field. apply sqrt_1.
Qed.

(** Two guide steps after [StartGuiding]. *)
Example guide_step_stats :
  let g := snd (Guider._worker
                  [Some (event "StartGuiding" []);
                   Some (guide_step 1 (-1) 1); Some (guide_step 3 1 2)]
                  first_session) in
  Guider.Stats g = GuideStats.mk 0 1 1 3 1
  /\ (Guider.AppState g, Guider.AvgDist g) = (JStr "Guiding", JInt 2).
Proof.
  cbv zeta. split; [|vm_compute; reflexivity].
  assert (Hrun : Guider._worker
                   [Some (event "StartGuiding" []);
                    Some (guide_step 1 (-1) 1); Some (guide_step 3 1 2)]
                   first_session
                 = (Ok tt,
                    snd (Guider._worker
                           [Some (event "StartGuiding" []);
                            Some (guide_step 1 (-1) 1);
                            Some (guide_step 3 1 2)] first_session)))
    by (vm_compute; reflexivity).
  assert (Ht0 : tracks (false, []) first_session) by (repeat split).
  pose proof (@worker_tracks _ (false, []) first_session _ eq_refl Ht0 Hrun)
    as Ht.
  rewrite (@tracks_stats _ _ Ht).
  change (snd (window _ _)) with [(1, -1); (3, 1)]%R.
  unfold stats_of. cbn [map fst snd].
  destruct rms_of_two_samples as [-> ->].
  cbn [max_abs fold_right].
  rewrite (Rabs_right 1), (Rabs_right 3), (Rabs_left (-1)) by lra.
  rewrite (Rmax_left 3 0), (Rmax_right 1 3), (Rmax_left 1 0) by lra.
  replace (- -1)%R with 1%R by lra. rewrite (Rmax_left 1 1) by lra.
  reflexivity.
Qed.

End Scenarios.

(** ** More on the accumulator *)

Section AccumMore.

Local Open Scope R_scope.

Lemma sum_repeat (x : R) (k : nat) : sum (repeat x k) = INR k * x.
Proof.
  induction k as [|k IH].
  - cbn. lra.
  - cbn [repeat]. change (sum (x :: repeat x k)) with (x + sum (repeat x k)).
    rewrite IH, S_INR. lra.
Qed.

Lemma sqdev_repeat (x : R) (k : nat) : sqdev x (repeat x k) = 0.
Proof.
  unfold sqdev. induction k as [|k IH].
  - reflexivity.
  - cbn [repeat map].
    change (sum (?h :: ?t)) with (h + sum t). rewrite IH. lra.
Qed.

Lemma max_abs_repeat (x : R) (k : nat) : max_abs (repeat x (S k)) = Rabs x.
Proof.
  induction k as [|k IH].
  - cbn. apply Rmax_left, Rabs_pos.
  - change (max_abs (repeat x (S (S k))))
      with (Rmax (Rabs x) (max_abs (repeat x (S k)))).
    rewrite IH. apply Rmax_left. lra.
Qed.

(** X1. What the accumulator calls the standard deviation is taken about
    the mean: after one or more samples that are all equal to [x] the mean
    is [x], the deviation is 0 whatever [x] is, and the peak is [|x|]. *)
Theorem constant_samples (s0 : _Accum.t) (x : R) (k : nat) :
  let acc := _Accum.AddAll (repeat x (S k)) (_Accum.Reset s0) in
  _Accum.n acc = Z.of_nat (S k)
  /\ _Accum.Mean acc = x
  /\ _Accum.Stdev acc = 0
  /\ _Accum.Peak acc = Rabs x.
Proof.
  intros acc.
  assert (W : welford (repeat x (S k)) acc).
  { apply (welford_AddAll (repeat x (S k)) (xs := [])), welford_Reset. }
  assert (Hne : repeat x (S k) <> []) by discriminate.
  assert (Hm : mean (repeat x (S k)) = x).
  { unfold mean. rewrite sum_repeat, repeat_length. field.
    apply not_0_INR. discriminate. }
  split; [|split; [|split]].
  - rewrite (wf_n W), repeat_length. reflexivity.
  - rewrite (welford_Mean Hne W). exact Hm.
  - rewrite (welford_Stdev Hne W), Hm, sqdev_repeat.
    unfold Rdiv. rewrite Rmult_0_l. apply sqrt_0.
  - unfold _Accum.Peak. rewrite (wf_peak W). apply max_abs_repeat.
Qed.

End AccumMore.

(** ** More on the framer *)

Section FramerMore.

Lemma terminator_free_app (l1 l2 : bytes) :
  terminator_free (l1 ++ l2) = terminator_free l1 && terminator_free l2.
Proof. unfold terminator_free. apply forallb_app. Qed.

Lemma scan_terminator_free (l rest seg : bytes) (lines : list bytes)
  (buf : bytes) :
  terminator_free l = true ->
  _Conn.scan (l ++ rest) seg lines buf = _Conn.scan rest (seg ++ l) lines buf.
Proof.
  revert seg. induction l as [|c l IH]; intros seg Hl.
  - cbn. rewrite app_nil_r. reflexivity.
  - cbn in Hl. apply andb_prop in Hl. destruct Hl as [Hc Hl].
    cbn [app _Conn.scan]. apply negb_true_iff in Hc. rewrite Hc.
    rewrite (IH _ Hl), <- app_assoc. reflexivity.
Qed.

Lemma scan_on_wire (ls : list bytes) :
  forall lines : list bytes,
    forallb clean_line ls = true ->
    _Conn.scan (on_wire ls) [] lines [] = (lines ++ ls, []).
Proof.
  induction ls as [|l ls IH]; intros lines Hls.
  - cbn. rewrite app_nil_r. reflexivity.
  - cbn in Hls. apply andb_prop in Hls. destruct Hls as [Hl Hls].
    unfold on_wire. cbn [map concat]. fold (on_wire ls).
    destruct l as [|b l]; [discriminate|]. cbn [clean_line] in Hl.
    rewrite <- app_assoc, (scan_terminator_free _ _ _ _ _ Hl).
    cbn [app _Conn.scan].
    change (_Conn.is_terminator x0d) with true.
    change (_Conn.is_terminator x0a) with true. cbn [app].
    rewrite (IH _ Hls), <- app_assoc. reflexivity.
Qed.

(** X2. Lines that are not empty and hold no CR or LF, written one after
    the other with CR LF after each, are read back as they were: however
    the bytes are cut into reads, the calls of [ReadLine] return these
    lines in order, and nothing is left in the buffer. *)
Theorem framing_round_trip (ls : list bytes) (chunks : list bytes)
  (sk : Socket.t) (k : nat) :
  forallb clean_line ls = true ->
  concat chunks = on_wire ls ->
  fold_left feed chunks ([], []) = (ls, [])
  /\ fst (_Conn.ReadLines k
            (conn_reading chunks (_Conn.mk [] [] None false) sk))
     = firstn k ls.
Proof.
  intros Hls Hwire. split.
  - rewrite feed_chunks, Hwire. unfold feed. cbn [fst snd].
    apply (scan_on_wire ls [] Hls).
  - rewrite ReadLines_pending. unfold pending.
    cbn [_Conn.lines _Conn.buf _Conn.terminate app]. rewrite Hwire.
    pose proof (frame_lines_app (on_wire ls) [] []) as Hf.
    rewrite (scan_on_wire ls [] Hls) in Hf. cbn [app] in Hf.
    injection Hf as Hf _. rewrite <- Hf. reflexivity.
Qed.

Lemma framing_round_trip_witness :
  fold_left feed [encode "ab"%string; [x0d]; x0a :: encode "c"%string;
                  [x0d; x0a]] ([], [])
  = ([encode "ab"%string; encode "c"%string], []).
Proof.
  apply (@framing_round_trip [encode "ab"%string; encode "c"%string]
           [encode "ab"%string; [x0d]; x0a :: encode "c"%string; [x0d; x0a]]
           (socket_taking 1) 0); reflexivity.
Defined.

Lemma scan_clean (s : bytes) :
  forall (seg : bytes) (lines : list bytes) (buf : bytes),
    forallb clean_line lines = true ->
    terminator_free buf = true -> terminator_free seg = true ->
    forallb clean_line (fst (_Conn.scan s seg lines buf)) = true
    /\ terminator_free (snd (_Conn.scan s seg lines buf)) = true.
Proof.
  induction s as [|c s IH]; intros seg lines buf Hl Hb Hs.
  - cbn. rewrite terminator_free_app, Hb, Hs. auto.
  - cbn [_Conn.scan]. destruct (_Conn.is_terminator c) eqn:Hc.
    + assert (Hbs : terminator_free (buf ++ seg) = true)
        by (rewrite terminator_free_app, Hb, Hs; reflexivity).
      destruct (buf ++ seg) as [|b bs]; apply IH; auto.
      rewrite forallb_app, Hl. cbn [forallb clean_line]. rewrite Hbs.
      reflexivity.
    + apply IH; auto. rewrite terminator_free_app, Hs. cbn.
      rewrite Hc. reflexivity.
Qed.

Lemma ReadLine_loop_clean (inbox : list bytes) :
  forall (lines : list bytes) (buf : bytes) (terminate : bool),
    forallb clean_line lines = true -> terminator_free buf = true ->
    let out := _Conn.ReadLine_loop inbox lines buf terminate in
    forallb clean_line (snd (fst (snd out))) = true
    /\ terminator_free (snd (snd out)) = true
    /\ forall l, fst out = _Conn.Line l -> clean_line l = true.
Proof.
  induction inbox as [|s inbox IH]; intros lines buf terminate Hl Hb.
  - destruct lines as [|l lines]; cbn in *.
    + destruct terminate; cbn; repeat split; auto; discriminate.
    + apply andb_prop in Hl. destruct Hl as [Hl1 Hl2].
      repeat split; auto. intros l0 [= <-]. exact Hl1.
  - destruct lines as [|l lines].
    + cbn [_Conn.ReadLine_loop]. destruct terminate.
      * cbn. repeat split; auto; discriminate.
      * destruct (scan_clean s [] [] buf eq_refl Hb eq_refl) as [H1 H2].
        destruct (_Conn.scan s [] [] buf) as [lines1 buf1]. cbn [fst snd] in *.
        apply IH; assumption.
    + cbn in *. apply andb_prop in Hl. destruct Hl as [Hl1 Hl2].
      repeat split; auto. intros l0 [= <-]. exact Hl1.
Qed.

(** X3. [ReadLine] never returns an empty line or a line with a CR or LF in
    it, and it keeps the connection in order: starting from a queue of
    clean lines and a buffer without terminator, as a new connection has
    them, the line returned is clean and so are the queue and the buffer
    left behind. *)
Theorem ReadLine_clean (c c1 : _Conn.t) (r : _Conn.read) :
  clean_conn c ->
  _Conn.ReadLine c = Some (r, c1) ->
  clean_conn c1
  /\ forall l, r = _Conn.Line l -> l <> [] /\ terminator_free l = true.
Proof.
  intros [Hl Hb]. unfold _Conn.ReadLine.
  destruct (_Conn.sock c) as [sk|]; [|discriminate].
  pose proof (ReadLine_loop_clean (Socket.inbox sk) (_Conn.lines c)
                (_Conn.buf c) (_Conn.terminate c) Hl Hb) as H.
  destruct (_Conn.ReadLine_loop (Socket.inbox sk) (_Conn.lines c)
              (_Conn.buf c) (_Conn.terminate c))
    as [r0 [[inbox1 lines1] buf1]].
  cbn [fst snd] in H. destruct H as (H1 & H2 & H3).
  intros [= <- <-]. split; [split; assumption|].
  intros l Hr. specialize (H3 l Hr). destruct l; [discriminate|].
  split; [discriminate | exact H3].
Qed.

Lemma ReadLine_clean_witness :
  let c := _Conn.mk [] [x61]
             (Some (Socket.mk [[x62; x0d; x0a; x63]] [] (fun _ => Fails) 0))
             false in
  let c1 := _Conn.mk [] [x63]
              (Some (Socket.mk [] [] (fun _ => Fails) 0)) false in
  _Conn.ReadLine c = Some (_Conn.Line [x61; x62], c1)
  /\ clean_conn c1
  /\ [x61; x62] <> []
  /\ terminator_free [x61; x62] = true.
Proof.
  intros c c1. split; [reflexivity|].
  assert (Hc : clean_conn c) by (split; reflexivity).
  pose proof (@ReadLine_clean c c1 (_Conn.Line [x61; x62]) Hc eq_refl)
    as [Hc1 Hl].
  split; [exact Hc1|]. exact (Hl [x61; x62] eq_refl).
Defined.

Lemma ReadLine_loop_terminated (inbox : list bytes) (lines : list bytes)
  (buf : bytes) :
  _Conn.ReadLine_loop inbox lines buf true
  = match lines with
    | l :: rest => (_Conn.Line l, (inbox, rest, buf))
    | [] => (_Conn.Terminated, (inbox, [], buf))
    end.
Proof. destruct inbox; destruct lines; reflexivity. Qed.

Lemma ReadLines_terminated (k : nat) :
  forall (lines : list bytes) (buf : bytes) (sk : Socket.t),
    let out := _Conn.ReadLines k (_Conn.mk lines buf (Some sk) true) in
    fst out = firstn k lines
    /\ _Conn.sock (snd out) = Some sk
    /\ _Conn.buf (snd out) = buf.
Proof.
  induction k as [|k IH]; intros lines buf sk.
  - cbn. auto.
  - cbn [_Conn.ReadLines]. unfold _Conn.ReadLine.
    cbn [_Conn.sock _Conn.lines _Conn.buf _Conn.terminate].
    rewrite ReadLine_loop_terminated. destruct sk as [inbox outbox plan cnt].
    cbn [Socket.inbox Socket.outbox Socket.send_plan Socket.send_count].
    destruct lines as [|l rest].
    + cbn. auto.
    + specialize (IH rest buf (Socket.mk inbox outbox plan cnt)).
      cbv zeta in IH.
      destruct (_Conn.ReadLines k _) as [ls c2]. cbn [fst snd firstn] in *.
      destruct IH as (-> & H2 & H3). auto.
Qed.

(** X4. Once [Terminate()] was called the reader gets the lines that are
    already queued and nothing more: calls of [ReadLine] return them in
    order and then the empty line, and they never take anything from the
    socket, whose pending data and the buffer stay as they are. *)
Theorem Terminate_drains_queue (c : _Conn.t) (sk : Socket.t) (k : nat) :
  _Conn.sock c = Some sk ->
  let out := _Conn.ReadLines k (_Conn.Terminate c) in
  fst out = firstn k (_Conn.lines c)
  /\ _Conn.sock (snd out) = Some sk
  /\ _Conn.buf (snd out) = _Conn.buf c
  /\ (length (_Conn.lines c) <= k ->
      exists c1,
        _Conn.ReadLine (snd out) = Some (_Conn.Terminated, c1)
        /\ _Conn.sock c1 = Some sk).
Proof.
  intros Hsk. unfold _Conn.Terminate. rewrite Hsk.
  pose proof (ReadLines_terminated k (_Conn.lines c) (_Conn.buf c) sk) as H.
  cbv zeta in *. destruct H as (H1 & H2 & H3).
  split; [exact H1|]. split; [exact H2|]. split; [exact H3|].
  intros Hk.
  assert (Hq : forall (j : nat) lines buf,
             length lines <= j ->
             _Conn.lines (snd (_Conn.ReadLines j
                                 (_Conn.mk lines buf (Some sk) true))) = []
             /\ _Conn.terminate (snd (_Conn.ReadLines j
                                 (_Conn.mk lines buf (Some sk) true))) = true).
  { induction j as [|j IHj]; intros lines buf Hlen.
    - destruct lines; [cbn; auto | cbn in Hlen; lia].
    - cbn [_Conn.ReadLines]. unfold _Conn.ReadLine.
      cbn [_Conn.sock _Conn.lines _Conn.buf _Conn.terminate].
      rewrite ReadLine_loop_terminated. destruct sk as [inbox outbox plan cnt].
      cbn [Socket.inbox Socket.outbox Socket.send_plan Socket.send_count].
      destruct lines as [|l rest]; [cbn; auto|].
      cbn in Hlen. specialize (IHj rest buf ltac:(lia)).
      destruct (_Conn.ReadLines j _) as [ls c2]. cbn [fst snd] in *.
      exact IHj. }
  destruct (Hq k (_Conn.lines c) (_Conn.buf c) Hk) as [Hl Ht].
  destruct (snd (_Conn.ReadLines k _)) as [lines2 buf2 sock2 term2].
  cbn [_Conn.lines _Conn.terminate _Conn.sock _Conn.buf] in *. subst.
  unfold _Conn.ReadLine. cbn [_Conn.sock _Conn.lines _Conn.buf _Conn.terminate].
  rewrite ReadLine_loop_terminated. destruct sk. eexists. split; reflexivity.
Qed.

Lemma Terminate_drains_queue_witness :
  fst (_Conn.ReadLines 3
         (_Conn.Terminate
            (_Conn.mk [encode "a"%string] (encode "b"%string)
               (Some (Socket.mk [encode "c"%string] [] (fun _ => Accepts 1) 0))
               false)))
  = firstn 3 [encode "a"%string].
Proof.
  apply (@Terminate_drains_queue
           (_Conn.mk [encode "a"%string] (encode "b"%string)
              (Some (Socket.mk [encode "c"%string] [] (fun _ => Accepts 1) 0))
              false)
           (Socket.mk [encode "c"%string] [] (fun _ => Accepts 1) 0) 3).
  reflexivity.
Defined.

End FramerMore.

(** ** More on the writer *)

Section WriterMore.

Lemma WriteLine_loop_calls (b : bytes) (sk : Socket.t) (totsent : nat) :
  Socket.send_count (snd (_Conn.WriteLine_loop b sk totsent))
  <= Socket.send_count sk + (length b - totsent)
  /\ (length b <= totsent -> _Conn.WriteLine_loop b sk totsent = (Ok tt, sk)).
Proof.
  funelim (_Conn.WriteLine_loop b sk totsent);
    try (apply send_spec in Heq; destruct Heq as (Hin & Hplan & Hcnt & Hr)).
  - cbn. split; [lia | reflexivity].
  - cbn [snd]. split; [lia | intros; lia].
  - destruct H as [Hle _]. cbn [snd] in *. split; [lia | intros; lia].
  - cbn [snd]. split; [lia | intros; lia].
Qed.

Lemma WriteLine_loop_broken (b : bytes) (sk : Socket.t) (totsent : nat) :
  totsent < length b ->
  Socket.send_plan sk (Socket.send_count sk) = Accepts 0 ->
  fst (_Conn.WriteLine_loop b sk totsent)
  = Raise (RuntimeError "socket connection broken"%string)
  /\ Socket.outbox (snd (_Conn.WriteLine_loop b sk totsent))
     = Socket.outbox sk.
Proof.
  funelim (_Conn.WriteLine_loop b sk totsent); intros Hlt0 Hplan0;
    try (apply send_spec in Heq; destruct Heq as (Hin & Hplan & Hcnt & Hr)).
  - lia.
  - destruct Hr as (_ & Hout & _). cbn [fst snd]. rewrite Hout.
    cbn. rewrite app_nil_r. auto.
  - exfalso. destruct Hr as (_ & _ & k & Hk & Hmin).
    rewrite Hplan0 in Hk. injection Hk as <-. cbn in Hmin. lia.
  - exfalso. destruct Hr as (_ & Hf). congruence.
Qed.

(** X5. [WriteLine(s)] calls [send] at most once for every byte of [s]: for
    the empty string it returns at once and leaves the socket alone, and
    when the first [send] of a string that is not empty takes no byte it
    raises "socket connection broken" with nothing written. *)
Theorem WriteLine_send_calls (s : str) (c : _Conn.t) (sk : Socket.t) :
  _Conn.sock c = Some sk ->
  (exists r sk1,
     _Conn.WriteLine s c
     = Some (r, _Conn.mk (_Conn.lines c) (_Conn.buf c) (Some sk1)
                  (_Conn.terminate c))
     /\ Socket.send_count sk1 <= Socket.send_count sk + length (encode s)
     /\ (s = EmptyString -> r = Ok tt /\ sk1 = sk)
     /\ (s <> EmptyString ->
         Socket.send_plan sk (Socket.send_count sk) = Accepts 0 ->
         r = Raise (RuntimeError "socket connection broken"%string)
         /\ Socket.outbox sk1 = Socket.outbox sk)).
Proof.
  intros Hsk. unfold _Conn.WriteLine. rewrite Hsk.
  destruct (WriteLine_loop_calls (encode s) sk 0) as [Hcnt Hdone].
  destruct (_Conn.WriteLine_loop (encode s) sk 0) as [r sk1] eqn:E.
  cbn [snd] in Hcnt. exists r, sk1. split; [reflexivity|].
  split; [lia|]. split.
  - intros ->. cbn in Hdone.
    assert (H0 : (r, sk1) = (Ok tt, sk)) by (apply Hdone; lia).
    injection H0 as -> ->. auto.
  - intros Hne Hplan.
    assert (Hlen : 0 < length (encode s)).
    { destruct s as [|ch s]; [congruence|]. cbn [encode].
      rewrite length_app. unfold encode_char.
      destruct (ord ch <? 128)%nat; cbn; lia. }
    destruct (WriteLine_loop_broken (encode s) sk Hlen Hplan) as [Hr Ho].
    rewrite E in Hr, Ho. cbn [fst snd] in Hr, Ho. auto.
Qed.

Lemma WriteLine_send_calls_witness :
  exists r sk1,
    _Conn.WriteLine "ab"%string
      (_Conn.mk [] [] (Some (socket_taking 0)) false)
    = Some (r, _Conn.mk [] [] (Some sk1) false)
    /\ Socket.send_count sk1 <= 0 + length (encode "ab"%string)
    /\ ("ab"%string = EmptyString -> r = Ok tt /\ sk1 = socket_taking 0)
    /\ ("ab"%string <> EmptyString ->
        Accepts 0 = Accepts 0 ->
        r = Raise (RuntimeError "socket connection broken"%string)
        /\ Socket.outbox sk1 = []).
Proof.
  exact (@WriteLine_send_calls "ab"%string
           (_Conn.mk [] [] (Some (socket_taking 0)) false)
           (socket_taking 0) eq_refl).
Defined.

End WriterMore.

(** ** More on the reader *)

Section ReaderMore.

Local Open Scope string_scope.

Lemma same_response_refl (g : Guider.t) : same_response g g.
Proof. reflexivity. Qed.

Lemma same_response_trans (g1 g2 g3 : Guider.t) :
  same_response g1 g2 -> same_response g2 g3 -> same_response g1 g3.
Proof. unfold same_response. congruence. Qed.

Lemma handle_event_same_response (ev : json) :
  preserves same_response (Guider._handle_event ev).
Proof.
  unfold Guider._handle_event, Guider.reset_accums, Guider.snapshot.
  repeat preserve_step same_response_refl same_response_trans; reflexivity.
Qed.

Lemma worker_body_same_response (line : option json) (g : Guider.t) :
  is_response line = false ->
  same_response g (snd (Guider._worker_body line g)).
Proof.
  destruct line as [j|]; [|reflexivity]. cbn [is_response].
  unfold Guider._worker_body, Guider.bind at 1, Guider.lift at 1.
  destruct (Json.has "jsonrpc" j) as [[|]| e |]; try discriminate; intros _.
  - apply handle_event_same_response.
  - reflexivity.
  - reflexivity.
Qed.

Lemma worker_same_response (lines : list (option json)) :
  forall g : Guider.t,
    forallb (fun line => negb (is_response line)) lines = true ->
    same_response g (snd (Guider._worker lines g)).
Proof.
  induction lines as [|line lines IH]; intros g Hl; [reflexivity|].
  cbn in Hl. apply andb_prop in Hl. destruct Hl as [Hline Hrest].
  apply negb_true_iff in Hline.
  cbn [Guider._worker]. unfold Guider.bind at 1, Guider.gets.
  destruct (Guider.terminate g); [reflexivity|].
  unfold Guider.bind.
  pose proof (worker_body_same_response line g Hline) as Hb.
  destruct (Guider._worker_body line g) as [[[]| e |] g1]; cbn [snd] in *;
    try exact Hb.
  eapply same_response_trans; [exact Hb | apply IH, Hrest].
Qed.

(** X6. The reader never changes the connection of the session, its
    [settle_px] or its [terminate] flag, however it ends; and the response
    slot changes only when a response comes: lines that the reader does
    not take for a response leave it as it is. *)
Theorem reader_leaves_alone (lines : list (option json)) (g : Guider.t) :
  let g1 := snd (Guider._worker lines g) in
  Guider.conn g1 = Guider.conn g
  /\ Guider.settle_px g1 = Guider.settle_px g
  /\ Guider.terminate g1 = Guider.terminate g
  /\ (forallb (fun line => negb (is_response line)) lines = true ->
      Guider.response g1 = Guider.response g).
Proof.
  intros g1. destruct (worker_same_link lines g) as (H1 & H2 & H3).
  repeat split; try assumption. intros Hl.
  apply (worker_same_response lines g Hl).
Qed.

Lemma reader_leaves_alone_witness :
  Guider.response
    (snd (Guider._worker [Some settling; None] (connected_session 1)))
  = Guider.response (connected_session 1).
Proof.
  apply (@reader_leaves_alone [Some settling; None] (connected_session 1)).
  reflexivity.
Defined.

(** X7. A line that parses to something else than an object ends the
    reader, unless it is a list or a string with "jsonrpc" in it: the
    membership test or the lookup of the event name raises [TypeError], the
    session stays as it is and the lines after it are never handled. *)
Theorem reader_dies_on_scalar (j : json) (rest : list (option json))
  (g : Guider.t) :
  Guider.terminate g = false ->
  is_object j = false ->
  Json.has "jsonrpc" j <> Ok true ->
  Guider._worker (Some j :: rest) g = (Raise TypeError, g).
Proof.
  intros Hterm Hobj Hresp. rewrite (worker_running _ _ _ Hterm).
  unfold Guider.bind at 1, Guider._worker_body, Guider.bind at 1,
    Guider.lift at 1.
  destruct j as [| b | z | x | s | l | d]; try discriminate;
    cbn [Json.has] in *; try reflexivity.
  - destruct (contains "jsonrpc" s); [congruence|]. reflexivity.
  - destruct (existsb (Json.is_str "jsonrpc") l); [congruence|]. reflexivity.
Qed.

Lemma reader_dies_on_scalar_witness :
  Guider._worker [Some (JInt 5); Some settle_done] (connected_session 1)
  = (Raise TypeError, connected_session 1).
Proof.
  apply (@reader_dies_on_scalar (JInt 5) [Some settle_done]
           (connected_session 1)); [reflexivity | reflexivity | discriminate].
Defined.

Lemma named_in_cons (name : str) (names : list str) (e : json) :
  named_in (name :: names) e = false ->
  Json.is_str name e = false /\ named_in names e = false.
Proof. cbn. apply orb_false_elim. Qed.

(** X8. An object without [jsonrpc] needs an [Event]: without one the
    reader raises [KeyError] and the session stays as it is.  An event whose
    name is none of those that the reader knows is ignored: the session is
    exactly as before. *)
Theorem unknown_event_ignored (d : dict) (g : Guider.t) :
  (Json.get "Event" d = None ->
   Guider._handle_event (JObj d) g = (Raise (KeyError "Event"), g))
  /\ (forall e,
        Json.get "Event" d = Some e ->
        named_in handled_events e = false ->
        Guider._handle_event (JObj d) g = (Ok tt, g)).
Proof.
  split.
  - intros Hd. unfold Guider._handle_event, Guider.bind, Guider.lift.
    cbn [Json.subscript]. unfold Json.item. rewrite Hd. reflexivity.
  - intros e Hd Hn. unfold Guider._handle_event.
    unfold Guider.bind at 1, Guider.lift at 1.
    cbn [Json.subscript]. unfold Json.item. rewrite Hd.
    unfold handled_events in Hn.
    repeat (apply named_in_cons in Hn;
            let H := fresh "E" in destruct Hn as [H Hn]; rewrite H).
    reflexivity.
Qed.

Lemma unknown_event_ignored_witness :
  Guider._handle_event (JObj [("Timestamp", JInt 1)]) (connected_session 1)
  = (Raise (KeyError "Event"), connected_session 1).
Proof.
  apply (@unknown_event_ignored [("Timestamp", JInt 1)] (connected_session 1)).
  reflexivity.
Defined.

(** X9. A guide step that lacks [DECDistanceRaw], handled while samples
    are collected, raises [KeyError] after its RA sample was added: the RA
    accumulator then holds one sample more than the Dec accumulator, and
    the stored statistics, the state and the average distance are those of
    before. *)
Theorem GuideStep_without_dec (ev ra : json) (x : R) (g : Guider.t) :
  Json.subscript "Event" ev = Ok (JStr "GuideStep") ->
  Guider.accum_active g = true ->
  Json.subscript "RADistanceRaw" ev = Ok ra ->
  Json.number ra = Ok x ->
  Json.subscript "DECDistanceRaw" ev = Raise (KeyError "DECDistanceRaw") ->
  let g1 := snd (Guider._handle_event ev g) in
  fst (Guider._handle_event ev g) = Raise (KeyError "DECDistanceRaw")
  /\ g1 = Guider.set_accum_ra (_Accum.Add x (Guider.accum_ra g)) g
  /\ _Accum.n (Guider.accum_ra g1) = (_Accum.n (Guider.accum_ra g) + 1)%Z
  /\ Guider.accum_dec g1 = Guider.accum_dec g
  /\ Guider.Stats g1 = Guider.Stats g.
Proof.
  intros Hev Ha Hra Hx Hdec. cbv zeta.
  assert (E : Guider._handle_event ev g
              = (Raise (KeyError "DECDistanceRaw"),
                 Guider.set_accum_ra (_Accum.Add x (Guider.accum_ra g)) g)).
  { known_event Hev. unfold Guider.ret. rewrite Ha, Hra, Hx.
    cbn [Guider.accum_active Guider.set_accum_ra]. rewrite Hdec.
    reflexivity. }
  rewrite E. cbn [fst snd]. repeat split.
Qed.

Lemma GuideStep_without_dec_witness :
  let ev := event "GuideStep" [("RADistanceRaw", JInt 2)] in
  let g := Guider.set_accum_active true first_session in
  fst (Guider._handle_event ev g) = Raise (KeyError "DECDistanceRaw")
  /\ snd (Guider._handle_event ev g)
     = Guider.set_accum_ra (_Accum.Add 2 (Guider.accum_ra g)) g
  /\ _Accum.n (Guider.accum_ra (snd (Guider._handle_event ev g)))
     = (_Accum.n (Guider.accum_ra g) + 1)%Z
  /\ Guider.accum_dec (snd (Guider._handle_event ev g)) = Guider.accum_dec g
  /\ Guider.Stats (snd (Guider._handle_event ev g)) = Guider.Stats g.
Proof.
  apply (@GuideStep_without_dec
           (event "GuideStep" [("RADistanceRaw", JInt 2)]) (JInt 2) 2
           (Guider.set_accum_active true first_session)); reflexivity.
Defined.






End ReaderMore.

(** ** More on remote calls *)

Section CallMore.

Context `{FloatRepr}.

Local Open Scope string_scope.

Lemma same_derived_refl (g : Guider.t) : same_derived g g.
Proof. repeat split. Qed.

Lemma same_derived_trans (g1 g2 g3 : Guider.t) :
  same_derived g1 g2 -> same_derived g2 g3 -> same_derived g1 g3.
Proof.
  unfold same_derived.
  intros (?&?&?&?&?&?&?&?&?&?&?&?) (?&?&?&?&?&?&?&?&?&?&?&?).
  repeat split; congruence.
Qed.

(** A call on a working connection during which the reader handles the
    response [j] and nothing else. *)
Lemma Call_answered (method : str) (params j : json) (g : Guider.t) :
  online g -> Guider.terminate g = false ->
  Json.has "jsonrpc" j = Ok true ->
  exists g1,
    Guider.Call method params [Some j] g = (answer j, g1)
    /\ online g1
    /\ Guider.terminate g1 = false
    /\ written g1 = (written g ++ request_line method params)%list
    /\ Guider.response g1 = JNull
    /\ same_derived g g1.
Proof.
  intros (c & sk & Hc & Hsk & Hacc) Hterm Hj.
  destruct (Call_online method params [Some j] g Hc Hsk Hacc)
    as (sk1 & Hout & Hacc1 & ->).
  rewrite receive_one_response; [|exact Hterm | exact Hj].
  rewrite (@receive_stored j _ (@has_truthy _ _ j Hj)).
  eexists. split; [reflexivity|]. split; [|split; [|split; [|split]]].
  - eexists _, sk1. split; [reflexivity|]. split; [reflexivity | exact Hacc1].
  - exact Hterm.
  - unfold written. cbn [Guider.conn Guider.set_response Guider.set_conn
                         _Conn.sock]. rewrite Hc, Hsk. exact Hout.
  - reflexivity.
  - repeat split.
Qed.

Lemma answer_result (v : json) : answer (result_response v) = Ok (result_response v).
Proof. reflexivity. Qed.

(** X11. On a working connection, when the reader handles the response
    and nothing else while the caller waits, [Call] writes the request line
    and ends as the response says: it returns the response when this has
    no [error], and it raises [GuiderError] with the server's message when
    it has one.  Either way the slot is empty afterwards and the state that
    the events maintain is as before. *)
Theorem Call_ends_as_response_says (method : str) (params j : json)
  (g : Guider.t) :
  online g -> Guider.terminate g = false ->
  Json.has "jsonrpc" j = Ok true ->
  let run := Guider.Call method params [Some j] g in
  written (snd run) = (written g ++ request_line method params)%list
  /\ Guider.response (snd run) = JNull
  /\ same_derived g (snd run)
  /\ (Json.has "error" j = Ok false -> fst run = Ok j)
  /\ (forall err msg,
        Json.has "error" j = Ok true ->
        Json.subscript "error" j = Ok err ->
        Json.subscript "message" err = Ok msg ->
        fst run = Raise (GuiderError msg)).
Proof.
  intros Hon Hterm Hj run.
  destruct (@Call_answered method params j g Hon Hterm Hj)
    as (g1 & Hrun & _ & _ & Hw & Hr & Hd).
  subst run. rewrite Hrun. cbn [fst snd].
  split; [exact Hw|]. split; [exact Hr|]. split; [exact Hd|]. split.
  - intros He. unfold answer, Guider._failed. rewrite He. reflexivity.
  - intros err msg He Herr Hmsg. unfold answer, Guider._failed.
    rewrite He, Herr, Hmsg. reflexivity.
Qed.

(** X12. Without a response there is no return: on a working connection
    with nothing in the slot, when none of the lines that the reader
    handles is a response, [Call] has written its request and goes on
    waiting. *)
Theorem Call_waits_for_response (method : str) (params : json)
  (during : list (option json)) (g : Guider.t) :
  online g ->
  Json.truthy (Guider.response g) = false ->
  forallb (fun line => negb (is_response line)) during = true ->
  let run := Guider.Call method params during g in
  fst run = Blocks
  /\ written (snd run) = (written g ++ request_line method params)%list.
Proof.
  intros Hon Hslot Hlines run.
  destruct (@Call_online_written _ method params during g Hon) as [Hw _].
  split; [|exact Hw].
  destruct Hon as (c & sk & Hc & Hsk & Hacc).
  destruct (Call_online method params during g Hc Hsk Hacc)
    as (sk1 & _ & _ & Hrun).
  subst run. rewrite Hrun.
  unfold Guider.receive, Guider.bind at 1, Guider.await_response.
  match goal with
  | |- context [Guider._worker during ?g0] =>
      pose proof (worker_same_response during g0 Hlines) as Hr
  end.
  unfold same_response in Hr. cbn [Guider.response Guider.set_conn] in Hr.
  rewrite Hr, Hslot. reflexivity.
Qed.

End CallMore.

Lemma Call_ends_as_response_says_witness :
  fst (@Guider.Call any_float_repr "get_exposure"%string JNull
         [Some error_response] (connected_session 8))
  = Raise (GuiderError (JStr "no star"%string)).
Proof.
  refine (proj2 (proj2 (proj2 (proj2
    (@Call_ends_as_response_says any_float_repr "get_exposure"%string JNull
       error_response (connected_session 8) _ eq_refl eq_refl))))
    _ _ eq_refl eq_refl eq_refl).
  eexists _, _. split; [reflexivity|]. split; [reflexivity|].
  intros i _. exists 7. reflexivity.
Defined.

Lemma Call_waits_for_response_witness :
  fst (@Guider.Call any_float_repr "get_exposure"%string JNull
         [Some settling; None] (connected_session 8))
  = Blocks.
Proof.
  refine (proj1 (@Call_waits_for_response any_float_repr
                   "get_exposure"%string JNull [Some settling; None]
                   (connected_session 8) _ eq_refl eq_refl)).
  eexists _, _. split; [reflexivity|]. split; [reflexivity|].
  intros i _. exists 7. reflexivity.
Defined.

(** ** Properties of the queries *)

Section QueriesMore.

Context `{FloatRepr}.

Local Open Scope string_scope.

Lemma hypot_sqr (x y : R) : (hypot x y * hypot x y = x * x + y * y)%R.
Proof. unfold hypot. apply sqrt_sqrt. nra. Qed.

Lemma hypot_pos (x y : R) : (0 <= hypot x y)%R.
Proof. unfold hypot. apply sqrt_pos. Qed.

(** X13. On a connected session that holds a window of samples,
    [GetStats] returns the statistics of the window with their total RMS,
    which is the root of the sum of the squares of the two RMS values, and
    it leaves the session as it is: the stored statistics keep their
    total of 0. *)
Theorem GetStats_of_window (w : bool * list (R * R)) (g : Guider.t) :
  connected g -> tracks w g ->
  let ras := map fst (snd w) in
  let decs := map snd (snd w) in
  let total := hypot (rms ras) (rms decs) in
  Guider.GetStats g
  = (Ok (GuideStats.mk total (rms ras) (rms decs)
           (max_abs ras) (max_abs decs)), g)
  /\ (0 <= total)%R
  /\ (total * total = rms ras * rms ras + rms decs * rms decs)%R
  /\ GuideStats.rms_tot (Guider.Stats g) = 0%R.
Proof.
  intros Hc Ht ras decs total.
  split; [|split; [apply hypot_pos|split; [apply hypot_sqr|]]].
  - unfold Guider.GetStats, Guider.bind.
    rewrite (CheckConnected_connected Hc).
    unfold Guider.gets, Guider.ret. rewrite (@tracks_stats w g Ht).
    reflexivity.
  - rewrite (@tracks_stats w g Ht). reflexivity.
Qed.

Lemma connected_same_link (g g1 : Guider.t) :
  same_link g g1 -> connected g -> connected g1.
Proof.
  intros (Hc & _) (c & Hg & Hopen). exists c. split; [congruence|exact Hopen].
Qed.

Lemma GetStatus_connected (g : Guider.t) :
  connected g ->
  Guider.GetStatus g = (Ok (Guider.AppState g, Guider.AvgDist g), g)
  /\ Guider.IsGuiding g = (Ok (Guider._is_guiding (Guider.AppState g)), g).
Proof.
  intros Hc. unfold Guider.IsGuiding, Guider.GetStatus, Guider.bind.
  rewrite (CheckConnected_connected Hc). split; reflexivity.
Qed.

Ltac split_name name :=
  match goal with
  | |- context [String.eqb name ?s] =>
      let E := fresh "E" in
      destruct (String.eqb name s) eqn:E;
      [apply String.eqb_eq in E; subst name|]
  end.

Ltac run_handler :=
  unfold Guider.reset_accums, Guider.snapshot, Guider.bind, Guider.lift,
    Guider.gets, Guider.modify, Guider.ret;
  repeat match goal with
    | |- context [match Json.subscript ?k ?ev with _ => _ end] =>
        destruct (Json.subscript k ev); try discriminate
    | |- context [match Json.get_or_none ?k ?ev with _ => _ end] =>
        destruct (Json.get_or_none k ev); try discriminate
    | |- context [match Json.number ?v with _ => _ end] =>
        destruct (Json.number v); try discriminate
    end.

(** X14. What the status queries tell after the reader has handled an
    event on a connected session.  [GetStatus] returns the stored state and
    distance and [IsGuiding] tells whether this state is [Guiding] or
    [LostLock].  The state is the one that belongs to the event, for the
    seven events that have one; it is the [State] of an [AppState] event;
    and every other event leaves it as it was. *)
Theorem status_after_event (ev : json) (name : str) (g g1 : Guider.t) :
  connected g ->
  Json.subscript "Event" ev = Ok (JStr name) ->
  Guider._handle_event ev g = (Ok tt, g1) ->
  Guider.GetStatus g1 = (Ok (Guider.AppState g1, Guider.AvgDist g1), g1)
  /\ Guider.IsGuiding g1 = (Ok (Guider._is_guiding (Guider.AppState g1)), g1)
  /\ match state_after name with
     | Some st => Guider.AppState g1 = JStr st
     | None =>
         if String.eqb name "AppState"
         then Json.subscript "State" ev = Ok (Guider.AppState g1)
         else Guider.AppState g1 = Guider.AppState g
     end.
Proof.
  intros Hc Hev Hrun.
  assert (Hc1 : connected g1).
  { pose proof (handle_event_same_link ev g) as Hl. rewrite Hrun in Hl.
    exact (connected_same_link Hl Hc). }
  destruct (GetStatus_connected Hc1) as [Hs Hg].
  split; [exact Hs|]. split; [exact Hg|]. clear Hs Hg Hc Hc1.
  revert Hrun. unfold Guider._handle_event.
  unfold Guider.bind at 1. unfold Guider.lift at 1. rewrite Hev. clear Hev.
  cbn [Json.is_str].
  repeat split_name name; cbn [orb];
    try (run_handler;
         repeat match goal with
           | |- context [if ?b then _ else _] => destruct b
           end;
         intros [= <-]; reflexivity).
  run_handler. intros [= <-]. unfold state_after.
  repeat match goal with
    | E : String.eqb name _ = false |- _ => rewrite E; clear E
    end.
  reflexivity.
Qed.

End QueriesMore.

Lemma GetStats_of_window_witness :
  let g := snd (Guider._worker [Some (event "StartGuiding"%string []);
                                Some (guide_step 3 4 5);
                                Some (guide_step 1 0 5)]
                  (connected_session 1)) in
  Guider.GetStats g
  = (Ok (GuideStats.mk (hypot (rms [3; 1]%R) (rms [4; 0]%R))
           (rms [3; 1]%R) (rms [4; 0]%R)
           (max_abs [3; 1]%R) (max_abs [4; 0]%R)), g)
  /\ GuideStats.rms_tot (Guider.Stats g) = 0%R.
Proof.
  intros g.
  assert (Hc : connected g) by (eexists; split; reflexivity).
  assert (Ht0 : tracks (false, []) (connected_session 1)) by (repeat split).
  assert (Hrun : Guider._worker [Some (event "StartGuiding"%string []);
                                 Some (guide_step 3 4 5);
                                 Some (guide_step 1 0 5)]
                   (connected_session 1) = (Ok tt, g)).
  { vm_compute. reflexivity. }
  pose proof (@worker_tracks _ (false, []) (connected_session 1) g eq_refl
                Ht0 Hrun) as Ht.
  pose proof (@GetStats_of_window _ g Hc Ht) as (Hs & _ & _ & H0).
  split; [exact Hs | exact H0].
Defined.

Lemma status_after_event_witness :
  Guider.IsGuiding (snd (Guider._handle_event (event "StarLost"%string
                                                 [("AvgDist"%string, JInt 3)])
                           (connected_session 1)))
  = (Ok true, snd (Guider._handle_event (event "StarLost"%string
                                           [("AvgDist"%string, JInt 3)])
                     (connected_session 1))).
Proof.
  assert (Hc : connected (connected_session 1))
    by (eexists; split; reflexivity).
  exact (proj1 (proj2 (@status_after_event
                         (event "StarLost"%string
                            [("AvgDist"%string, JInt 3)])
                         "StarLost"%string (connected_session 1) _
                         Hc eq_refl eq_refl))).
Defined.

(** ** Properties of the operations of one call *)

Section OneCallMore.

Context `{FloatRepr}.

Local Open Scope string_scope.


Lemma connected_set_Settle (o : option SettleProgress.t) (g : Guider.t) :
  connected g -> connected (Guider.set_Settle o g).
Proof. intros Hc. exact Hc. Qed.


(** X16. At start-up, when the session knows of no settle and the server
    answers the question: [IsSettling] sends [get_settling] and returns the
    answer.  After a true answer [CheckSettling] reports a settle that is
    not done, at distance -1.0 and with the [settle_px] of the session;
    after a false one the session knows of no settle as before. *)
Theorem IsSettling_at_startup (v : json) (g : Guider.t) :
  online g -> Guider.terminate g = false -> Guider.Settle g = None ->
  let run := Guider.IsSettling [Some (result_response v)] g in
  fst run = Ok v
  /\ written (snd run) = (written g ++ request_line "get_settling" JNull)%list
  /\ if Json.truthy v then
       Guider.CheckSettling (snd run)
       = (Ok (SettleProgress.mk false (JFloat (-1)) (Guider.settle_px g)
                (JFloat 0) (JFloat 0) (JInt 0) JNull), snd run)
     else
       fst (Guider.CheckSettling (snd run))
       = Raise (GuiderError (JStr "not settling")).
Proof.
  intros Hon Hterm HS run.
  destruct (@Call_answered _ "get_settling" JNull (result_response v) g
              Hon Hterm eq_refl)
    as (g1 & HC & Hon1 & _ & Hw & _ & Hd).
  assert (HS1 : Guider.Settle g1 = None).
  { destruct Hd as (_&_&_&_&_&_&_&_&_&_&E&_). congruence. }
  assert (Hpx : Guider.settle_px g1 = Guider.settle_px g).
  { destruct Hd as (_&_&_&_&_&_&E&_). exact E. }
  pose proof (online_connected Hon1) as Hc1.
  assert (E : run
              = (Ok v,
                 if Json.truthy v
                 then Guider.set_Settle
                        (Some (SettleProgress.mk false (JFloat (-1)) (JFloat 0)
                                 (JFloat 0) (JFloat 0) (JInt 0) JNull)) g1
                 else g1)).
  { subst run. unfold Guider.IsSettling. unfold Guider.bind at 1.
    rewrite (CheckConnected_connected (online_connected Hon)).
    unfold Guider.bind at 1. unfold Guider.gets at 1. rewrite HS.
    unfold Guider.bind at 1. rewrite HC.
    change (answer (result_response v)) with (Ok (result_response v)).
    unfold Guider.bind at 1. unfold Guider.lift at 1.
    change (Json.subscript "result" (result_response v)) with (Ok v).
    unfold Guider.bind, Guider.gets, Guider.modify, Guider.ret.
    destruct (Json.truthy v); [rewrite HS1|]; reflexivity. }
  rewrite E. cbn [fst snd]. split; [reflexivity|]. split.
  - destruct (Json.truthy v); exact Hw.
  - destruct (Json.truthy v).
    + unfold Guider.CheckSettling, Guider.bind.
      rewrite (CheckConnected_connected
                 (connected_set_Settle _ Hc1)).
      unfold Guider.gets, Guider.ret. cbn. rewrite Hpx. reflexivity.
    + unfold Guider.CheckSettling, Guider.bind.
      rewrite (CheckConnected_connected Hc1).
      unfold Guider.gets. rewrite HS1. reflexivity.
Qed.

(** X17. The result of a single frame is handed over once: after the
    reader has handled a [SingleFrameComplete] event, [CheckSingleFrame]
    returns the [Success], [Error] and [Path] of the event, the last two
    [None] when the event has none, and the next [CheckSingleFrame] returns
    [None].  No connection is asked for. *)
Theorem single_frame_result_once (ev : json) (g g1 : Guider.t) :
  Json.subscript "Event" ev = Ok (JStr "SingleFrameComplete") ->
  Guider._handle_event ev g = (Ok tt, g1) ->
  exists ok err path,
    Json.subscript "Success" ev = Ok ok
    /\ Json.get_or_none "Error" ev = Ok err
    /\ Json.get_or_none "Path" ev = Ok path
    /\ fst (Guider.CheckSingleFrame g1)
       = Ok (Some (SingleFrameResult.mk ok err path))
    /\ fst (Guider.CheckSingleFrame (snd (Guider.CheckSingleFrame g1)))
       = Ok None.
Proof.
  intros Hev. known_event Hev.
  destruct (Json.subscript "Success" ev) as [ok| |]; try discriminate.
  destruct (Json.get_or_none "Error" ev) as [err| |]; try discriminate.
  destruct (Json.get_or_none "Path" ev) as [path| |]; try discriminate.
  intros [= <-]. exists ok, err, path. repeat split.
Qed.

(** X18. [CaptureSingleFrame] forgets the result of an earlier frame:
    with arguments that it accepts, on a working connection where the
    server answers without an error, it returns, and whatever result was
    waiting before, the next [CheckSingleFrame] returns [None]. *)
Theorem CaptureSingleFrame_forgets (exposure binning gain : json)
  (roi : option Subframe.t) (path save j : json) (g : Guider.t) :
  online g -> Guider.terminate g = false ->
  Json.has "jsonrpc" j = Ok true -> Json.has "error" j = Ok false ->
  negb (Json.is_none path) && Json.is_False save = false ->
  let run :=
    Guider.CaptureSingleFrame exposure binning gain roi path save [Some j] g in
  fst run = Ok tt
  /\ fst (Guider.CheckSingleFrame (snd run)) = Ok None
  /\ written (snd run)
     = (written g
        ++ request_line "capture_single_frame"
             (JObj (Guider.capture_params exposure binning gain roi path save)))%list.
Proof.
  intros Hon Hterm Hj He Hargs run.
  destruct (@Call_answered _ "capture_single_frame"
              (JObj (Guider.capture_params exposure binning gain roi path save)) j
              (Guider.set_single_frame None g) Hon Hterm Hj)
    as (g1 & HC & _ & _ & Hw & _ & Hd).
  assert (Ha : answer j = Ok j).
  { unfold answer, Guider._failed. rewrite He. reflexivity. }
  assert (E : run = (Ok tt, g1)).
  { subst run. unfold Guider.CaptureSingleFrame. rewrite Hargs.
    unfold Guider.bind at 1. unfold Guider.modify at 1.
    unfold Guider.bind at 1. rewrite HC, Ha. reflexivity. }
  rewrite E. cbn [fst snd]. split; [reflexivity|]. split.
  - destruct Hd as (_&_&_&_&_&_&_&_&_&_&_&Hsf).
    unfold Guider.CheckSingleFrame, Guider.bind, Guider.gets, Guider.modify,
      Guider.ret. cbn [fst]. rewrite Hsf. reflexivity.
  - exact Hw.
Qed.

Lemma snd_then_ret {A : Type} (m : Guider.M A) (g : Guider.t) :
  snd (Guider.bind m (fun _ => Guider.ret tt) g) = snd (m g).
Proof.
  unfold Guider.bind. destruct (m g) as [[v| |] g1]; reflexivity.
Qed.

(** X19. The requests of [Pause], [Unpause] and [Shutdown] on a working
    connection: [set_paused] with the one parameter [true], [set_paused]
    with [false], and [shutdown] without parameters, each as one line with
    id 1. *)
Theorem Pause_Unpause_Shutdown_requests (during : list (option json))
  (g : Guider.t) :
  online g ->
  written (snd (Guider.Pause during g))
  = (written g
     ++ encode (dq "{'method':'set_paused','id':1,'params':[true]}"
                ++ CRLF)%string)%list
  /\ written (snd (Guider.Unpause during g))
     = (written g
        ++ encode (dq "{'method':'set_paused','id':1,'params':[false]}"
                   ++ CRLF)%string)%list
  /\ written (snd (Guider.Shutdown during g))
     = (written g
        ++ encode (dq "{'method':'shutdown','id':1}" ++ CRLF)%string)%list.
Proof.
  intros Hon. unfold Guider.Pause, Guider.Unpause, Guider.Shutdown.
  rewrite !snd_then_ret.
  rewrite (proj1 (@Call_online_written _ "set_paused" (JBool true) during g Hon)).
  rewrite (proj1 (@Call_online_written _ "set_paused" (JBool false) during g Hon)).
  rewrite (proj1 (@Call_online_written _ "shutdown" JNull during g Hon)).
  rewrite !encode_app. repeat split.
Qed.

(** X20. The operations that return a part of the response, when the
    server answers without an error on a working connection:
    [PixelScale] and [GetExposure] return the [result] of the response and
    [SaveImage] the [filename] inside it, and each of them raises what the
    subscript raises when the part is missing. *)
Theorem result_of_response (j : json) (g : Guider.t) :
  online g -> Guider.terminate g = false ->
  Json.has "jsonrpc" j = Ok true -> Json.has "error" j = Ok false ->
  fst (Guider.PixelScale [Some j] g) = Json.subscript "result" j
  /\ fst (Guider.GetExposure [Some j] g) = Json.subscript "result" j
  /\ fst (Guider.SaveImage [Some j] g)
     = match Json.subscript "result" j with
       | Ok r => Json.subscript "filename" r
       | other => other
       end.
Proof.
  intros Hon Hterm Hj He.
  assert (Ha : answer j = Ok j).
  { unfold answer, Guider._failed. rewrite He. reflexivity. }
  destruct (@Call_answered _ "get_pixel_scale" JNull j g Hon Hterm Hj)
    as (g1 & HC1 & _).
  destruct (@Call_answered _ "get_exposure" JNull j g Hon Hterm Hj)
    as (g2 & HC2 & _).
  destruct (@Call_answered _ "save_image" JNull j g Hon Hterm Hj)
    as (g3 & HC3 & _).
  unfold Guider.PixelScale, Guider.GetExposure, Guider.SaveImage.
  unfold Guider.bind, Guider.lift. rewrite HC1, HC2, HC3, Ha.
  destruct (Json.subscript "result" j) as [r| |]; repeat split.
Qed.

Lemma profile_names_Forall2 (ps names : list json) :
  Guider.profile_names ps = Ok names
  <-> Forall2 (fun p name => Json.subscript "name" p = Ok name) ps names.
Proof.
  revert names. induction ps as [|p ps IH]; intros names; cbn.
  - split.
    + intros [= <-]. constructor.
    + intros Hf. inversion Hf. reflexivity.
  - split.
    + destruct (Json.subscript "name" p) as [name| |] eqn:Hn;
        try discriminate.
      destruct (Guider.profile_names ps) as [rest| |] eqn:Hrest;
        try discriminate.
      intros [= <-]. constructor; [exact Hn|].
      apply IH. reflexivity.
    + intros Hf. inversion Hf as [|p0 name ps0 rest Hn Hrest]; subst.
      rewrite Hn. apply IH in Hrest. rewrite Hrest. reflexivity.
Qed.

(** X21. [GetEquipmentProfiles], when the server answers with a list of
    profiles on a working connection, returns the names of the profiles, one
    for each profile and in the order of the list; and it returns only when
    every profile has a name. *)
Theorem GetEquipmentProfiles_names (ps names : list json) (g : Guider.t) :
  online g -> Guider.terminate g = false ->
  fst (Guider.GetEquipmentProfiles [Some (result_response (JList ps))] g)
  = Ok names
  <-> Forall2 (fun p name => Json.subscript "name" p = Ok name) ps names.
Proof.
  intros Hon Hterm.
  destruct (@Call_answered _ "get_profiles" JNull
              (result_response (JList ps)) g Hon Hterm eq_refl)
    as (g1 & HC & _).
  rewrite <- profile_names_Forall2.
  unfold Guider.GetEquipmentProfiles. unfold Guider.bind at 1. rewrite HC.
  change (answer (result_response (JList ps)))
    with (Ok (result_response (JList ps))).
  unfold Guider.bind, Guider.lift.
  change (Json.subscript "result" (result_response (JList ps)))
    with (Ok (JList ps)).
  cbn [Guider.iterate].
  destruct (Guider.profile_names ps); cbn [fst]; reflexivity.
Qed.

(** X22. The settle threshold of a [Guide] shows in the progress: after
    [Guide] was answered without an error on a working connection with no
    settle going on, and the reader has then handled a [Settling] event,
    [CheckSettling] reports a settle that is not done, with the distance
    and the times of the event and with the [settlePixels] of the [Guide]. *)
Theorem Guide_then_Settling (px tm tmo j ev : json) (g g2 : Guider.t) :
  online g -> Guider.terminate g = false ->
  Guider.settle_in_progress g = false ->
  Json.has "jsonrpc" j = Ok true -> Json.has "error" j = Ok false ->
  Json.subscript "Event" ev = Ok (JStr "Settling") ->
  Guider._handle_event ev (snd (Guider.Guide px tm tmo [Some j] g))
  = (Ok tt, g2) ->
  fst (Guider.Guide px tm tmo [Some j] g) = Ok tt
  /\ exists d t st,
       Json.subscript "Distance" ev = Ok d
       /\ Json.subscript "Time" ev = Ok t
       /\ Json.subscript "SettleTime" ev = Ok st
       /\ Guider.CheckSettling g2
          = (Ok (SettleProgress.mk false d px t st (JInt 0) JNull), g2).
Proof.
  intros Hon Hterm Hidle Hj He Hev.
  rewrite (Guide_idle px tm tmo [Some j] (online_connected Hon) Hidle).
  destruct (@Call_answered _ "guide" (guide_params px tm tmo) j
              (Guider.set_Settle (Some (pending_progress (JInt 0) px tm)) g)
              Hon Hterm Hj)
    as (g1 & HC & Hon1 & _).
  assert (Ha : answer j = Ok j).
  { unfold answer, Guider._failed. rewrite He. reflexivity. }
  rewrite HC, Ha. cbn [settle_call_outcome fst snd]. intros Hrun.
  split; [reflexivity|].
  destruct (@handle_Settling ev _ g2 Hev Hrun)
    as (d & t & st & Hd & Ht & Hst & ->).
  exists d, t, st. split; [exact Hd|]. split; [exact Ht|]. split; [exact Hst|].
  unfold Guider.CheckSettling, Guider.bind.
  rewrite (@CheckConnected_connected
             (Guider.set_Settle _ (Guider.set_settle_px px g1))
             (online_connected Hon1)).
  reflexivity.
Qed.

End OneCallMore.

Ltac session_online :=
  eexists _, _; split; [reflexivity|]; split; [reflexivity|];
  intros i _; exists 7; reflexivity.


Lemma IsSettling_at_startup_witness :
  fst (@Guider.IsSettling any_float_repr [Some (result_response (JInt 1))]
         (connected_session 8))
  = Ok (JInt 1).
Proof.
  refine (proj1 (@IsSettling_at_startup any_float_repr (JInt 1)
                   (connected_session 8) _ eq_refl eq_refl)).
  session_online.
Defined.

Lemma single_frame_result_once_witness :
  exists ok err path,
    Json.subscript "Success"%string
      (event "SingleFrameComplete"%string [("Success"%string, JBool true)])
    = Ok ok
    /\ Json.get_or_none "Error"%string
         (event "SingleFrameComplete"%string [("Success"%string, JBool true)])
       = Ok err
    /\ Json.get_or_none "Path"%string
         (event "SingleFrameComplete"%string [("Success"%string, JBool true)])
       = Ok path
    /\ fst (Guider.CheckSingleFrame
              (Guider.set_single_frame
                 (Some (SingleFrameResult.mk (JBool true) JNull JNull))
                 first_session))
       = Ok (Some (SingleFrameResult.mk ok err path))
    /\ fst (Guider.CheckSingleFrame
              (snd (Guider.CheckSingleFrame
                      (Guider.set_single_frame
                         (Some (SingleFrameResult.mk (JBool true) JNull JNull))
                         first_session))))
       = Ok None.
Proof.
  exact (@single_frame_result_once
           (event "SingleFrameComplete"%string [("Success"%string, JBool true)])
           first_session _ eq_refl eq_refl).
Defined.

Lemma CaptureSingleFrame_forgets_witness :
  fst (Guider.CheckSingleFrame
         (snd (@Guider.CaptureSingleFrame any_float_repr (JInt 2) JNull JNull
                 None JNull JNull [Some ok_response]
                 (Guider.set_single_frame
                    (Some (SingleFrameResult.mk (JBool true) JNull JNull))
                    (connected_session 8)))))
  = Ok None.
Proof.
  refine (proj1 (proj2 (@CaptureSingleFrame_forgets any_float_repr (JInt 2)
                          JNull JNull None JNull JNull ok_response
                          (Guider.set_single_frame
                             (Some (SingleFrameResult.mk (JBool true) JNull
                                      JNull))
                             (connected_session 8))
                          _ eq_refl eq_refl eq_refl eq_refl))).
  session_online.
Defined.

Lemma Pause_Unpause_Shutdown_requests_witness :
  written (snd (@Guider.Pause any_float_repr [] (connected_session 8)))
  = encode (dq "{'method':'set_paused','id':1,'params':[true]}" ++ CRLF)%string.
Proof.
  refine (proj1 (@Pause_Unpause_Shutdown_requests any_float_repr []
                   (connected_session 8) _)).
  session_online.
Defined.

Lemma result_of_response_witness :
  fst (@Guider.SaveImage any_float_repr [Some ok_response]
         (connected_session 8))
  = Raise TypeError.
Proof.
  refine (proj2 (proj2 (@result_of_response any_float_repr ok_response
                          (connected_session 8) _ eq_refl eq_refl eq_refl))).
  session_online.
Defined.

Lemma GetEquipmentProfiles_names_witness :
  fst (@Guider.GetEquipmentProfiles any_float_repr
         [Some (result_response
                  (JList [JObj [("id"%string, JInt 1);
                                ("name"%string, JStr "scope"%string)]]))]
         (connected_session 8))
  = Ok [JStr "scope"%string].
Proof.
  refine (proj2 (@GetEquipmentProfiles_names any_float_repr
                   [JObj [("id"%string, JInt 1);
                          ("name"%string, JStr "scope"%string)]]
                   [JStr "scope"%string] (connected_session 8) _ eq_refl) _).
  - session_online.
  - repeat constructor.
Defined.

Lemma Guide_then_Settling_witness :
  exists d t st,
    Json.subscript "Distance"%string settling = Ok d
    /\ Json.subscript "Time"%string settling = Ok t
    /\ Json.subscript "SettleTime"%string settling = Ok st
    /\ Guider.CheckSettling
         (snd (Guider._handle_event settling
                 (snd (@Guider.Guide any_float_repr (JFloat 2) (JInt 10)
                         (JInt 100) [Some ok_response]
                         (connected_session 8)))))
       = (Ok (SettleProgress.mk false d (JFloat 2) t st (JInt 0) JNull),
          snd (Guider._handle_event settling
                 (snd (@Guider.Guide any_float_repr (JFloat 2) (JInt 10)
                         (JInt 100) [Some ok_response]
                         (connected_session 8))))).
Proof.
  refine (proj2 (@Guide_then_Settling any_float_repr (JFloat 2) (JInt 10)
                   (JInt 100) ok_response settling (connected_session 8)
                   _ _ eq_refl eq_refl eq_refl eq_refl eq_refl _)).
  - session_online.
  - vm_compute. reflexivity.
Defined.

(** ** Properties of the operations with several waiting points *)

Section SeveralCallsMore.

Context `{FloatRepr}.

Local Open Scope string_scope.

Lemma receive_returned (during : list (option json)) (g g1 : Guider.t)
  (v : json) :
  Guider.receive during g = (Ok v, g1) ->
  Json.has "error" v = Ok false
  /\ Json.truthy v = true
  /\ Guider.response g1 = JNull
  /\ v = Guider.response (snd (Guider._worker during g)).
Proof.
  unfold Guider.receive. unfold Guider.bind at 1.
  unfold Guider.await_response.
  destruct (Json.truthy (Guider.response (snd (Guider._worker during g))))
    eqn:Ht; cbn [negb]; [|discriminate].
  unfold Guider.bind at 1. unfold Guider.lift at 1. unfold Guider._failed.
  destruct (Json.has "error"
              (Guider.response (snd (Guider._worker during g))))
    as [[|]| |] eqn:Hf; try discriminate.
  - unfold Guider.bind, Guider.lift, Guider.raise.
    destruct (Json.subscript "error"
                (Guider.response (snd (Guider._worker during g))))
      as [err| |]; try discriminate.
    destruct (Json.subscript "message" err); discriminate.
  - unfold Guider.ret. intros [= <- <-]. auto.
Qed.

(** X23. What a return of [Call] guarantees, whatever the connection and
    the lines of the reader are: the whole request line was written; the
    value returned is a response that was in the slot, it is not empty and
    has no [error]; the slot is empty again; and either the slot was full
    before the call or one of the lines that the reader handled was a
    response. *)
Theorem Call_return_guarantees (method : str) (params : json)
  (during : list (option json)) (g g1 : Guider.t) (v : json) :
  Guider.Call method params during g = (Ok v, g1) ->
  written g1 = (written g ++ request_line method params)%list
  /\ Json.has "error" v = Ok false
  /\ Json.truthy v = true
  /\ Guider.response g1 = JNull
  /\ (Json.truthy (Guider.response g) = true
      \/ existsb is_response during = true).
Proof.
  unfold Guider.Call. unfold Guider.bind at 1. unfold Guider.gets at 1.
  destruct (Guider.conn g) as [c|] eqn:Hc; [|discriminate].
  destruct (_Conn.sock c) as [sk|] eqn:Hsk.
  - destruct (WriteLine_spec
                (Guider._make_jsonrpc method params ++ CRLF)%string c Hsk)
      as (r & sk1 & m & HW & _ & _ & _ & Hall & _).
    cbv zeta. rewrite HW.
    unfold Guider.bind at 1. unfold Guider.modify at 1.
    unfold Guider.bind at 1. unfold Guider.lift at 1.
    destruct r as [[]| |]; try discriminate.
    intros Hrec.
    pose proof (written_receive during
                  (Guider.set_conn
                     (Some (_Conn.mk (_Conn.lines c) (_Conn.buf c) (Some sk1)
                              (_Conn.terminate c))) g)) as Hw.
    rewrite Hrec in Hw. cbn [snd] in Hw.
    destruct (receive_returned _ _ Hrec) as (He & Ht & Hr & Hv).
    split; [|split; [exact He|split; [exact Ht|split; [exact Hr|]]]].
    + rewrite Hw. unfold written.
      cbn [Guider.conn Guider.set_conn _Conn.sock]. rewrite Hc, Hsk.
      rewrite (Hall eq_refl), encode_app. reflexivity.
    + destruct (existsb is_response during) eqn:Hex; [right; reflexivity|].
      left.
      assert (Hall' : forallb (fun line => negb (is_response line)) during
                      = true).
      { clear -Hex. induction during as [|l ls IH]; [reflexivity|].
        cbn in Hex |- *. apply orb_false_elim in Hex.
        destruct Hex as [-> Hls]. cbn. exact (IH Hls). }
      pose proof (worker_same_response during
                    (Guider.set_conn
                       (Some (_Conn.mk (_Conn.lines c) (_Conn.buf c)
                                (Some sk1) (_Conn.terminate c))) g) Hall')
        as Hsame.
      unfold same_response in Hsame.
      cbn [Guider.response Guider.set_conn] in Hsame.
      rewrite <- Hsame, <- Hv. exact Ht.
  - unfold _Conn.WriteLine. rewrite Hsk. discriminate.
Qed.

Lemma call_answered (method : str) (params j : json)
  (rs : list (list (option json))) (f : Guider.future) (g : Guider.t) :
  Guider.rounds f = [Some j] :: rs ->
  online g -> Guider.terminate g = false ->
  Json.has "jsonrpc" j = Ok true ->
  exists g1,
    Guider.call method params f g
    = ((answer j, g1), Guider.Future rs (Guider.clock f))
    /\ online g1
    /\ Guider.terminate g1 = false
    /\ written g1 = (written g ++ request_line method params)%list
    /\ same_derived g g1.
Proof.
  intros Hf Hon Hterm Hj.
  destruct (@Call_answered _ method params j g Hon Hterm Hj)
    as (g1 & HC & Hon1 & Ht1 & Hw & _ & Hd).
  exists g1. unfold Guider.call. rewrite Hf, HC. auto.
Qed.

Lemma poll_true (name : str) (deadline : R)
  (rs : list (list (option json))) :
  forall (ts : list R) (g g1 : Guider.t) (f1 : Guider.future),
    Guider.poll_AppState name deadline rs ts g = ((Ok true, g1), f1) ->
    Guider.AppState g1 = JStr name.
Proof.
  induction rs as [|r rs IH]; intros ts g g1 f1; cbn [Guider.poll_AppState].
  - destruct (Json.is_str name (Guider.AppState g)) eqn:Hs; [|discriminate].
    intros [= <- _]. exact (is_str_eq _ _ Hs).
  - destruct (Json.is_str name (Guider.AppState g)) eqn:Hs.
    + intros [= <- _]. exact (is_str_eq _ _ Hs).
    + destruct (Guider._CheckConnected (snd (Guider._worker r g)))
        as [[[]| |] g2]; try discriminate.
      destruct ts as [|t0 ts]; [discriminate|].
      destruct (Rlt_dec deadline t0); [discriminate|].
      apply IH.
Qed.

(** X24. When [StopCapture] returns, the application state of the
    session is [Stopped]: it was seen so in the loop, or it is the state
    that the server gave for [get_app_state] after the deadline. *)
Theorem StopCapture_ends_stopped (timeoutSeconds : json)
  (f f1 : Guider.future) (g g1 : Guider.t) :
  Guider.StopCapture timeoutSeconds f g = ((Ok tt, g1), f1) ->
  Guider.AppState g1 = JStr "Stopped".
Proof.
  unfold Guider.StopCapture. unfold Guider.bindW at 1.
  destruct (Guider.call "stop_capture" JNull f g) as [[[r| |] ga] fa];
    try discriminate.
  unfold Guider.bindW at 1.
  destruct (Guider.monotonic fa ga) as [[[t0| |] gb] fb]; try discriminate.
  unfold Guider.bindW at 1. unfold Guider.now at 1. unfold Guider.lift at 1.
  destruct (Json.number timeoutSeconds) as [secs| |]; try discriminate.
  unfold Guider.bindW at 1. unfold Guider.poll.
  destruct (Guider.poll_AppState "Stopped" (t0 + secs) (Guider.rounds fb)
              (Guider.clock fb) gb) as [[[[|]| |] gc] fc] eqn:Hp;
    try discriminate.
  - unfold Guider.retW. intros [= <- _]. exact (poll_true _ _ _ _ _ Hp).
  - unfold Guider.bindW at 1.
    destruct (Guider.call "get_app_state" JNull fc gc) as [[[res| |] gd] fd];
      try discriminate.
    unfold Guider.bindW at 1. unfold Guider.now at 1. unfold Guider.lift at 1.
    destruct (Json.subscript "result" res) as [st| |]; try discriminate.
    unfold Guider.bindW at 1. unfold Guider.now at 1.
    unfold Guider.modify at 1.
    destruct (Json.is_str "Stopped" st) eqn:Hs; [|discriminate].
    unfold Guider.retW. intros [= <- _]. exact (is_str_eq _ _ Hs).
Qed.

(** X25. When [Loop] returns, the application state of the session is
    [Looping]; and on a connected session that is looping already it
    returns at once, without a request, a sleep or a look at the clock. *)
Theorem Loop_ends_looping (timeoutSeconds : json) (f : Guider.future)
  (g : Guider.t) :
  (forall (f1 : Guider.future) (g1 : Guider.t),
      Guider.Loop timeoutSeconds f g = ((Ok tt, g1), f1) ->
      Guider.AppState g1 = JStr "Looping")
  /\ (connected g -> Guider.AppState g = JStr "Looping" ->
      Guider.Loop timeoutSeconds f g = ((Ok tt, g), f)).
Proof.
  split.
  - intros f1 g1. unfold Guider.Loop.
    unfold Guider.bindW at 1. unfold Guider.now at 1.
    pose proof (CheckConnected_keeps g) as Hk.
    destruct (Guider._CheckConnected g) as [[[]| |] g0]; try discriminate.
    cbn [snd] in Hk. subst g0.
    unfold Guider.bindW at 1. unfold Guider.now at 1. unfold Guider.gets at 1.
    destruct (Json.is_str "Looping" (Guider.AppState g)) eqn:Hs.
    + unfold Guider.retW. intros [= <- _]. exact (is_str_eq _ _ Hs).
    + unfold Guider.bindW at 1.
      destruct (Guider.call "get_exposure" JNull f g) as [[[res| |] ga] fa];
        try discriminate.
      unfold Guider.bindW at 1. unfold Guider.now at 1.
      unfold Guider.lift at 1.
      destruct (Json.subscript "result" res) as [exp_ms| |];
        try discriminate.
      unfold Guider.bindW at 1.
      destruct (Guider.call "loop" JNull fa ga) as [[[res1| |] gb] fb];
        try discriminate.
      unfold Guider.bindW at 1.
      destruct (Guider.monotonic fb gb) as [[[t0| |] gc] fc];
        try discriminate.
      unfold Guider.bindW at 1. unfold Guider.now at 1.
      unfold Guider.lift at 1.
      destruct (Json.number timeoutSeconds) as [secs| |]; try discriminate.
      unfold Guider.bindW at 1. unfold Guider.now at 1.
      unfold Guider.lift at 1.
      destruct (Json.number exp_ms) as [ms| |]; try discriminate.
      unfold Guider.bindW at 1.
      destruct (Rlt_dec (ms / 1000) 0); [discriminate|].
      destruct (Guider.sleep fc gc) as [[[[]| |] gd] fd]; try discriminate.
      unfold Guider.bindW at 1. unfold Guider.poll.
      destruct (Guider.poll_AppState "Looping" (t0 + secs) (Guider.rounds fd)
                  (Guider.clock fd) gd) as [[[[|]| |] ge] fe] eqn:Hp;
        try discriminate.
      unfold Guider.retW. intros [= <- _]. exact (poll_true _ _ _ _ _ Hp).
  - intros Hc Hs. unfold Guider.Loop.
    unfold Guider.bindW at 1. unfold Guider.now at 1.
    rewrite (CheckConnected_connected Hc).
    unfold Guider.bindW at 1. unfold Guider.now at 1. unfold Guider.gets at 1.
    rewrite Hs. reflexivity.
Qed.

Lemma find_profile_absent (profileName : str) (ps : list json) :
  Forall (fun p => forall name, Json.subscript "name" p = Ok name ->
                                Json.is_str profileName name = false) ps ->
  Guider.find_profile profileName ps
  = match Guider.profile_names ps with
    | Ok _ => Ok (JInt (-1))
    | Raise e => Raise e
    | Blocks => Blocks
    end.
Proof.
  induction 1 as [|p ps Hp _ IH];
    cbn [Guider.find_profile Guider.profile_names].
  - reflexivity.
  - destruct (Json.subscript "name" p) as [name| e |]; try reflexivity.
    rewrite (Hp name eq_refl), IH.
    destruct (Guider.profile_names ps); reflexivity.
Qed.

Lemma profile_names_named (ps : list json) :
  Forall (fun p => exists name, Json.subscript "name" p = Ok name) ps ->
  exists names, Guider.profile_names ps = Ok names.
Proof.
  induction 1 as [|p ps (name & Hn) _ (names & IH)];
    cbn [Guider.profile_names].
  - eexists. reflexivity.
  - rewrite Hn, IH. eexists. reflexivity.
Qed.

(** X26. [ConnectEquipment] with a name that no profile has: when the
    current profile has another name and none of the profiles that the
    server lists is named so, it sends the two requests [get_profile] and
    [get_profiles] and nothing else: capture is not stopped and no
    equipment is disconnected.  When every profile listed has a name it
    raises [GuiderError] with "invalid phd2 profile name: " and the name;
    when one has none it raises what the lookup of the name raises at the
    first such profile. *)
Theorem ConnectEquipment_unknown_profile (profileName : str)
  (prof current : json) (ps : list json) (rs : list (list (option json)))
  (f : Guider.future) (g : Guider.t) :
  online g -> Guider.terminate g = false ->
  Guider.rounds f
  = [Some (result_response prof)] :: [Some (result_response (JList ps))] :: rs ->
  Json.subscript "name" prof = Ok current ->
  Json.is_str profileName current = false ->
  Forall (fun p => forall name, Json.subscript "name" p = Ok name ->
                                Json.is_str profileName name = false) ps ->
  let run := Guider.ConnectEquipment profileName f g in
  let invalid :=
    GuiderError (JStr ("invalid phd2 profile name: " ++ profileName)) in
  fst (fst run)
  = match Guider.profile_names ps with
    | Ok _ => Raise invalid
    | Raise e => Raise e
    | Blocks => Blocks
    end
  /\ (Forall (fun p => exists name, Json.subscript "name" p = Ok name) ps ->
      fst (fst run) = Raise invalid)
  /\ (forall p rest,
        ps = p :: rest -> Json.subscript "name" p = Raise (KeyError "name") ->
        fst (fst run) = Raise (KeyError "name"))
  /\ written (snd (fst run))
     = (written g ++ request_line "get_profile" JNull
        ++ request_line "get_profiles" JNull)%list
  /\ snd run = Guider.Future rs (Guider.clock f).
Proof.
  intros Hon Hterm Hf Hname Hdiff Hps run invalid.
  destruct (@call_answered "get_profile" JNull (result_response prof) _ f g
              Hf Hon Hterm eq_refl)
    as (g1 & HC1 & Hon1 & Ht1 & Hw1 & _).
  destruct (@call_answered "get_profiles" JNull (result_response (JList ps))
              rs (Guider.Future
                    ([Some (result_response (JList ps))] :: rs)
                    (Guider.clock f)) g1 eq_refl Hon1 Ht1 eq_refl)
    as (g2 & HC2 & _ & _ & Hw2 & _).
  cbn [Guider.clock] in HC2.
  assert (E : run
              = ((match Guider.profile_names ps with
                  | Ok _ => Raise invalid
                  | Raise e => Raise e
                  | Blocks => Blocks
                  end, g2),
                 Guider.Future rs (Guider.clock f))).
  { subst run. unfold Guider.ConnectEquipment.
    unfold Guider.bindW at 1. rewrite HC1.
    change (answer (result_response prof)) with (Ok (result_response prof)).
    cbv beta iota.
    unfold Guider.bindW at 1. unfold Guider.now at 1. unfold Guider.lift at 1.
    change (Json.subscript "result" (result_response prof)) with (Ok prof).
    cbv beta iota.
    unfold Guider.bindW at 1. unfold Guider.now at 1. unfold Guider.lift at 1.
    rewrite Hname. cbv beta iota.
    unfold Guider.bindW at 1. rewrite Hdiff. cbn [negb].
    unfold Guider.bindW at 1. rewrite HC2.
    change (answer (result_response (JList ps)))
      with (Ok (result_response (JList ps))).
    cbv beta iota.
    unfold Guider.bindW at 1. unfold Guider.now at 1. unfold Guider.lift at 1.
    change (Json.subscript "result" (result_response (JList ps)))
      with (Ok (JList ps)).
    cbv beta iota.
    unfold Guider.bindW at 1. unfold Guider.now at 1. unfold Guider.lift at 1.
    cbn [Guider.iterate].
    unfold Guider.bindW at 1. unfold Guider.now at 1. unfold Guider.lift at 1.
    rewrite (@find_profile_absent profileName ps Hps).
    destruct (Guider.profile_names ps); reflexivity. }
  rewrite E. cbn [fst snd]. split; [reflexivity|].
  split; [|split; [|split; [|reflexivity]]].
  - intros Hall. destruct (profile_names_named Hall) as (names & ->).
    reflexivity.
  - intros p rest -> Hp. cbn [Guider.profile_names]. rewrite Hp. reflexivity.
  - rewrite Hw2, Hw1, <- app_assoc. reflexivity.
Qed.

(** X27. [ConnectEquipment] with the name of the current profile: when the
    server answers both requests, it sends [get_profile] and then
    [set_connected] with the one parameter [true], and nothing in between:
    the profiles are not listed, capture is not stopped, and what the
    session has learnt from events stays. *)
Theorem ConnectEquipment_current_profile (profileName : str)
  (prof j : json) (rs : list (list (option json)))
  (f : Guider.future) (g : Guider.t) :
  online g -> Guider.terminate g = false ->
  Guider.rounds f = [Some (result_response prof)] :: [Some j] :: rs ->
  Json.subscript "name" prof = Ok (JStr profileName) ->
  Json.has "jsonrpc" j = Ok true -> Json.has "error" j = Ok false ->
  let run := Guider.ConnectEquipment profileName f g in
  fst (fst run) = Ok tt
  /\ written (snd (fst run))
     = (written g ++ request_line "get_profile" JNull
        ++ request_line "set_connected" (JBool true))%list
  /\ same_derived g (snd (fst run))
  /\ snd run = Guider.Future rs (Guider.clock f).
Proof.
  intros Hon Hterm Hf Hname Hj He run.
  destruct (@call_answered "get_profile" JNull (result_response prof) _ f g
              Hf Hon Hterm eq_refl)
    as (g1 & HC1 & Hon1 & Ht1 & Hw1 & Hd1).
  destruct (@call_answered "set_connected" (JBool true) j
              rs (Guider.Future ([Some j] :: rs) (Guider.clock f)) g1
              eq_refl Hon1 Ht1 Hj)
    as (g2 & HC2 & _ & _ & Hw2 & Hd2).
  cbn [Guider.clock] in HC2.
  assert (Ha : answer j = Ok j).
  { unfold answer, Guider._failed. rewrite He. reflexivity. }
  assert (E : run = ((Ok tt, g2), Guider.Future rs (Guider.clock f))).
  { subst run. unfold Guider.ConnectEquipment.
    unfold Guider.bindW at 1. rewrite HC1.
    change (answer (result_response prof)) with (Ok (result_response prof)).
    cbv beta iota.
    unfold Guider.bindW at 1. unfold Guider.now at 1. unfold Guider.lift at 1.
    change (Json.subscript "result" (result_response prof)) with (Ok prof).
    cbv beta iota.
    unfold Guider.bindW at 1. unfold Guider.now at 1. unfold Guider.lift at 1.
    rewrite Hname. cbv beta iota.
    unfold Guider.bindW at 1. cbn [Json.is_str]. rewrite String.eqb_refl.
    cbn [negb]. unfold Guider.retW at 1.
    unfold Guider.bindW at 1. rewrite HC2, Ha. reflexivity. }
  rewrite E. cbn [fst snd]. split; [reflexivity|].
  split; [|split; [exact (same_derived_trans Hd1 Hd2)|reflexivity]].
  rewrite Hw2, Hw1, <- app_assoc. reflexivity.
Qed.

(** X28. [DisconnectEquipment] on a working connection whose session is
    in the state [Stopped], when the server answers both requests: it sends
    [stop_capture] and [set_connected] with the one parameter [false], it
    looks at the clock once and never sleeps, and what the session has
    learnt from events stays. *)
Theorem DisconnectEquipment_when_stopped (j1 j2 : json)
  (rs : list (list (option json))) (t0 : R) (ts : list R)
  (f : Guider.future) (g : Guider.t) :
  online g -> Guider.terminate g = false ->
  Guider.AppState g = JStr "Stopped" ->
  Guider.rounds f = [Some j1] :: [Some j2] :: rs ->
  Guider.clock f = t0 :: ts ->
  Json.has "jsonrpc" j1 = Ok true -> Json.has "error" j1 = Ok false ->
  Json.has "jsonrpc" j2 = Ok true -> Json.has "error" j2 = Ok false ->
  let run := Guider.DisconnectEquipment f g in
  fst (fst run) = Ok tt
  /\ written (snd (fst run))
     = (written g ++ request_line "stop_capture" JNull
        ++ request_line "set_connected" (JBool false))%list
  /\ same_derived g (snd (fst run))
  /\ snd run = Guider.Future rs ts.
Proof.
  intros Hon Hterm Hs Hf Hclock Hj1 He1 Hj2 He2 run.
  destruct (@call_answered "stop_capture" JNull j1 _ f g Hf Hon Hterm Hj1)
    as (g1 & HC1 & Hon1 & Ht1 & Hw1 & Hd1).
  destruct (@call_answered "set_connected" (JBool false) j2
              rs (Guider.Future ([Some j2] :: rs) ts) g1
              eq_refl Hon1 Ht1 Hj2)
    as (g2 & HC2 & _ & _ & Hw2 & Hd2).
  cbn [Guider.clock] in HC2.
  assert (Ha1 : answer j1 = Ok j1).
  { unfold answer, Guider._failed. rewrite He1. reflexivity. }
  assert (Ha2 : answer j2 = Ok j2).
  { unfold answer, Guider._failed. rewrite He2. reflexivity. }
  assert (Hs1 : Guider.AppState g1 = JStr "Stopped").
  { destruct Hd1 as (_ & E & _). congruence. }
  assert (E : run = ((Ok tt, g2), Guider.Future rs ts)).
  { subst run. unfold Guider.DisconnectEquipment.
    unfold Guider.bindW at 1. unfold Guider.StopCapture.
    unfold Guider.bindW at 1. rewrite HC1, Ha1. cbv beta iota.
    unfold Guider.bindW at 1. unfold Guider.monotonic at 1.
    cbn [Guider.clock Guider.rounds]. rewrite Hclock. cbv beta iota.
    unfold Guider.bindW at 1. unfold Guider.now at 1. unfold Guider.lift at 1.
    cbn [Json.number Guider.DEFAULT_STOPCAPTURE_TIMEOUT].
    unfold Guider.bindW at 1. unfold Guider.poll.
    cbn [Guider.clock Guider.rounds Guider.poll_AppState].
    rewrite Hs1. cbn [Json.is_str]. rewrite String.eqb_refl.
    unfold Guider.retW at 1. cbv beta iota.
    unfold Guider.bindW at 1. rewrite HC2, Ha2. reflexivity. }
  rewrite E. cbn [fst snd]. split; [reflexivity|].
  split; [|split; [exact (same_derived_trans Hd1 Hd2)|reflexivity]].
  rewrite Hw2, Hw1, <- app_assoc. reflexivity.
Qed.

(** X29. [StopCapture] past its deadline.  On a working connection whose
    session is not in the state [Stopped], when the server answers
    [stop_capture], no line comes during the sleep and the clock then reads
    past the deadline: [StopCapture] asks [get_app_state] and stores the
    state of the answer as the application state; with [Stopped] it
    returns, and with another state it raises [GuiderError] with "guider
    did not stop capture after ", the timeout, and " seconds!". *)
Theorem StopCapture_past_deadline (timeoutSeconds j st : json) (secs t0 t1 : R)
  (rs : list (list (option json))) (ts : list R)
  (f : Guider.future) (g : Guider.t) :
  online g -> Guider.terminate g = false ->
  Json.is_str "Stopped" (Guider.AppState g) = false ->
  Guider.rounds f = [Some j] :: [] :: [Some (result_response st)] :: rs ->
  Guider.clock f = t0 :: t1 :: ts ->
  Json.has "jsonrpc" j = Ok true -> Json.has "error" j = Ok false ->
  Json.number timeoutSeconds = Ok secs ->
  (t0 + secs < t1)%R ->
  let run := Guider.StopCapture timeoutSeconds f g in
  fst (fst run)
  = (if Json.is_str "Stopped" st then Ok tt
     else Raise (GuiderError
                   (JStr ("guider did not stop capture after "
                          ++ Json.format_number timeoutSeconds
                          ++ " seconds!"))))
  /\ Guider.AppState (snd (fst run)) = st
  /\ written (snd (fst run))
     = (written g ++ request_line "stop_capture" JNull
        ++ request_line "get_app_state" JNull)%list
  /\ snd run = Guider.Future rs ts.
Proof.
  intros Hon Hterm Hs Hf Hclock Hj He Hsecs Hlate run.
  destruct (@call_answered "stop_capture" JNull j _ f g Hf Hon Hterm Hj)
    as (g1 & HC1 & Hon1 & Ht1 & Hw1 & Hd1).
  destruct (@call_answered "get_app_state" JNull (result_response st)
              rs (Guider.Future ([Some (result_response st)] :: rs) ts) g1
              eq_refl Hon1 Ht1 eq_refl)
    as (g2 & HC2 & _ & _ & Hw2 & _).
  cbn [Guider.clock] in HC2.
  assert (Ha : answer j = Ok j).
  { unfold answer, Guider._failed. rewrite He. reflexivity. }
  assert (Hs1 : Json.is_str "Stopped" (Guider.AppState g1) = false).
  { destruct Hd1 as (_ & E & _). rewrite E. exact Hs. }
  assert (E : run
              = ((if Json.is_str "Stopped" st then Ok tt
                  else Raise (GuiderError
                                (JStr ("guider did not stop capture after "
                                       ++ Json.format_number timeoutSeconds
                                       ++ " seconds!"))),
                  Guider.set_AppState st g2),
                 Guider.Future rs ts)).
  { subst run. unfold Guider.StopCapture.
    unfold Guider.bindW at 1. rewrite HC1, Ha. cbv beta iota.
    unfold Guider.bindW at 1. unfold Guider.monotonic at 1.
    cbn [Guider.clock Guider.rounds]. rewrite Hclock. cbv beta iota.
    unfold Guider.bindW at 1. unfold Guider.now at 1. unfold Guider.lift at 1.
    rewrite Hsecs. cbv beta iota.
    unfold Guider.bindW at 1. unfold Guider.poll.
    cbn [Guider.clock Guider.rounds Guider.poll_AppState Guider._worker].
    rewrite Hs1. unfold Guider.ret at 1. cbn [snd].
    rewrite (CheckConnected_connected (online_connected Hon1)).
    destruct (Rlt_dec (t0 + secs) t1) as [_|Hn]; [|contradiction].
    unfold Guider.bindW at 1. rewrite HC2.
    change (answer (result_response st)) with (Ok (result_response st)).
    cbv beta iota.
    unfold Guider.bindW at 1. unfold Guider.now at 1. unfold Guider.lift at 1.
    change (Json.subscript "result" (result_response st)) with (Ok st).
    cbv beta iota.
    unfold Guider.bindW at 1. unfold Guider.now at 1.
    unfold Guider.modify at 1.
    destruct (Json.is_str "Stopped" st); reflexivity. }
  rewrite E. cbn [fst snd]. split; [reflexivity|]. split; [reflexivity|].
  split; [|reflexivity].
  change (written (Guider.set_AppState st g2)) with (written g2).
  rewrite Hw2, Hw1, <- app_assoc. reflexivity.
Qed.

End SeveralCallsMore.

Lemma Call_return_guarantees_witness :
  written (snd (@Guider.Call any_float_repr "get_exposure"%string JNull
                  [Some ok_response] (connected_session 8)))
  = (written (connected_session 8)
     ++ @request_line any_float_repr "get_exposure"%string JNull)%list.
Proof.
  refine (proj1 (@Call_return_guarantees any_float_repr "get_exposure"%string
                   JNull [Some ok_response] (connected_session 8) _
                   ok_response _)).
  vm_compute. reflexivity.
Defined.

Lemma StopCapture_ends_stopped_witness :
  Guider.AppState
    (snd (fst (@Guider.StopCapture any_float_repr (JInt 10)
                 (Guider.Future
                    [[Some ok_response;
                      Some (event "GuidingStopped"%string [])]] [0%R])
                 (connected_session 8))))
  = JStr "Stopped"%string.
Proof.
  refine (@StopCapture_ends_stopped any_float_repr (JInt 10)
            (Guider.Future
               [[Some ok_response; Some (event "GuidingStopped"%string [])]]
               [0%R])
            (Guider.Future [] []) (connected_session 8) _ _).
  vm_compute. reflexivity.
Defined.

Lemma Loop_ends_looping_witness :
  Guider.AppState
    (snd (fst (@Guider.Loop any_float_repr (JInt 10) (Guider.Future [] [])
                 (Guider.set_AppState (JStr "Looping"%string)
                    (connected_session 8)))))
  = JStr "Looping"%string
  /\ @Guider.Loop any_float_repr (JInt 10) (Guider.Future [] [])
       (Guider.set_AppState (JStr "Looping"%string) (connected_session 8))
     = ((Ok tt,
         Guider.set_AppState (JStr "Looping"%string) (connected_session 8)),
        Guider.Future [] []).
Proof.
  split.
  - refine (proj1 (@Loop_ends_looping any_float_repr (JInt 10)
                     (Guider.Future [] [])
                     (Guider.set_AppState (JStr "Looping"%string)
                        (connected_session 8)))
              (Guider.Future [] []) _ _).
    vm_compute. reflexivity.
  - refine (proj2 (@Loop_ends_looping any_float_repr (JInt 10)
                     (Guider.Future [] [])
                     (Guider.set_AppState (JStr "Looping"%string)
                        (connected_session 8))) _ eq_refl).
    eexists. split; reflexivity.
Defined.

Lemma ConnectEquipment_unknown_profile_witness :
  let f := Guider.Future
             [[Some (result_response
                       (JObj [("name"%string, JStr "sim"%string)]))];
              [Some (result_response
                       (JList [JObj [("id"%string, JInt 1);
                                     ("name"%string, JStr "sim"%string)];
                               JObj [("id"%string, JInt 2);
                                     ("name"%string, JStr "rig"%string)]]))]]
             [] in
  let run := @Guider.ConnectEquipment any_float_repr "scope"%string f
               (connected_session 8) in
  fst (fst run)
  = Raise (GuiderError (JStr "invalid phd2 profile name: scope"%string))
  /\ written (snd (fst run))
     = (encode (dq "{'method':'get_profile','id':1}" ++ CRLF)%string
        ++ encode (dq "{'method':'get_profiles','id':1}" ++ CRLF)%string)%list.
Proof.
  intros f run.
  assert (Hon : online (connected_session 8)).
  { eexists _, _. split; [reflexivity|]. split; [reflexivity|].
    intros i _. exists 7. reflexivity. }
  assert (Hps : Forall (fun p => forall name,
                          Json.subscript "name"%string p = Ok name ->
                          Json.is_str "scope"%string name = false)
                  [JObj [("id"%string, JInt 1);
                         ("name"%string, JStr "sim"%string)];
                   JObj [("id"%string, JInt 2);
                         ("name"%string, JStr "rig"%string)]]).
  { repeat constructor; intros name [= <-]; reflexivity. }
  pose proof (@ConnectEquipment_unknown_profile any_float_repr "scope"%string
                (JObj [("name"%string, JStr "sim"%string)])
                (JStr "sim"%string) _ [] f (connected_session 8)
                Hon eq_refl eq_refl eq_refl eq_refl Hps)
    as (_ & Hraise & _ & Hw & _).
  split; [|exact Hw].
  apply Hraise. repeat constructor; eexists; reflexivity.
Defined.

Lemma ConnectEquipment_current_profile_witness :
  fst (fst (@Guider.ConnectEquipment any_float_repr "sim"%string
              (Guider.Future
                 [[Some (result_response
                           (JObj [("name"%string, JStr "sim"%string)]))];
                  [Some ok_response]]
                 [])
              (connected_session 8)))
  = Ok tt.
Proof.
  refine (proj1 (@ConnectEquipment_current_profile any_float_repr
                   "sim"%string
                   (JObj [("name"%string, JStr "sim"%string)])
                   ok_response []
                   (Guider.Future
                      [[Some (result_response
                                (JObj [("name"%string, JStr "sim"%string)]))];
                       [Some ok_response]]
                      [])
                   (connected_session 8)
                   _ eq_refl eq_refl eq_refl eq_refl eq_refl)).
  session_online.
Defined.

Lemma DisconnectEquipment_when_stopped_witness :
  fst (fst (@Guider.DisconnectEquipment any_float_repr
              (Guider.Future [[Some ok_response]; [Some ok_response]] [0%R])
              (Guider.set_AppState (JStr "Stopped"%string)
                 (connected_session 8))))
  = Ok tt.
Proof.
  refine (proj1 (@DisconnectEquipment_when_stopped any_float_repr
                   ok_response ok_response [] 0%R []
                   (Guider.Future [[Some ok_response]; [Some ok_response]]
                      [0%R])
                   (Guider.set_AppState (JStr "Stopped"%string)
                      (connected_session 8))
                   _ eq_refl eq_refl eq_refl eq_refl eq_refl eq_refl eq_refl
                   eq_refl)).
  session_online.
Defined.

Lemma StopCapture_past_deadline_witness :
  fst (fst (@Guider.StopCapture any_float_repr (JInt 10)
              (Guider.Future
                 [[Some ok_response]; [];
                  [Some (result_response (JStr "Guiding"%string))]]
                 [0%R; 11%R])
              (connected_session 8)))
  = Raise (GuiderError
             (JStr "guider did not stop capture after 10 seconds!"%string)).
Proof.
  refine (proj1 (@StopCapture_past_deadline any_float_repr (JInt 10)
                   ok_response (JStr "Guiding"%string) 10%R 0%R 11%R [] []
                   (Guider.Future
                      [[Some ok_response]; [];
                       [Some (result_response (JStr "Guiding"%string))]]
                      [0%R; 11%R])
                   (connected_session 8)
                   _ eq_refl eq_refl eq_refl eq_refl eq_refl eq_refl eq_refl
                   _)).
  - session_online.
  - lra.
Defined.
